(** * rag_demo: the chunk-ingestion helpers of
      [utils/helpers/get_population_func.py]

    A shallow embedding of [calc_chunk_ids], [load_existing_chunks_metadata],
    [filter_chunks], [process_in_batches] and [save_processed_chunks_metadata],
    and of the loading stage [load_docs], [flatten_docs] and [split_docs],
    followed by the properties the specification states about them and by
    further properties of the code.

    Conventions of the embedding.
    - A Python [str] is a [string]; its characters stand for code points
      below 256.  A Python [int] is a [Z].
    - [Document] objects live in a heap indexed by object identity ([loc]);
      a list of chunks is a list of such identities, so that the in-place
      update [chunk.metadata["chunk_id"] = ...] is visible through every
      alias of the chunk.
    - A [dict] is an association list in insertion order.
    - The functions run in a state-and-exception monad over a [World]: the
      heap, the file system, the records handed to [logger], and the state
      of whatever the ingestion function talks to.
    - [exn] ranges over instances of Python's [Exception], which is what
      every handler of the module catches.
    - Library functions ([os.path], [json], [traceback], the tokenizer
      [num_tokens]) are fields of the class [Externals]. *)

From Stdlib Require Import ZArith List String Ascii Lia DecimalString DecimalZ.
From stdpp Require Import gmap strings list.

Open Scope Z_scope.
#[local] Set Warnings "-register-all,-clear-no-such-hyp".

(** ** Python values *)

(** The scalar values a metadata mapping holds. *)
Inductive PyVal : Type :=
  | VNone
  | VBool (b : bool)
  | VInt (z : Z)
  | VStr (s : string).

(** What [json.loads] returns (numbers with a fraction or an exponent are
    left out). *)
Inductive json : Type :=
  | JNull
  | JBool (b : bool)
  | JInt (z : Z)
  | JStr (s : string)
  | JArr (elems : list json)
  | JObj (members : list (string * json)).

Record exn : Type := Exn { exn_class : string; exn_msg : string }.

Inductive Res (A : Type) : Type :=
  | Ok (a : A)
  | Raise (e : exn).
Arguments Ok {A} a.
Arguments Raise {A} e.

#[global] Instance PyVal_eq_dec : EqDecision PyVal.
Proof. solve_decision. Defined.

(** [str(n)] for an [int]. *)
Definition str_int (z : Z) : string := NilZero.string_of_int (Z.to_int z).

(** [str(v)], which is what an f-string field [{v}] expands to. *)
Definition py_str (v : PyVal) : string :=
  match v with
  | VNone => "None"
  | VBool true => "True"
  | VBool false => "False"
  | VInt z => str_int z
  | VStr s => s
  end.

(** [type(v).__name__] *)
Definition py_type_name (v : PyVal) : string :=
  match v with
  | VNone => "NoneType"
  | VBool _ => "bool"
  | VInt _ => "int"
  | VStr _ => "str"
  end.

(** [len(l)] as a Python [int]. *)
Definition len {A} (l : list A) : Z := Z.of_nat (length l).

(** *** Strings *)

Fixpoint str_map (f : ascii -> ascii) (s : string) : string :=
  match s with
  | EmptyString => EmptyString
  | String c s' => String (f c) (str_map f s')
  end.

Definition backslash : ascii := "\"%char.
Definition slash : ascii := "/"%char.

(** [s.replace("\\", "/")] *)
Definition replace_backslash (s : string) : string :=
  str_map (fun c => if Ascii.eqb c backslash then slash else c) s.

(** [str.isspace] on one code point below 256: TAB, LF, VT, FF, CR, the
    four separators FS, GS, RS, US, the space, NEL and the no-break space. *)
Definition is_space (c : ascii) : bool :=
  let n := nat_of_ascii c in
  ((9 <=? n) && (n <=? 13) || (28 <=? n) && (n <=? 32)
   || (n =? 133) || (n =? 160))%nat.

Fixpoint lstrip (s : string) : string :=
  match s with
  | EmptyString => EmptyString
  | String c s' => if is_space c then lstrip s' else s
  end.

(** [s.rstrip()]: the characters of [s] up to the last one that is no
    white space. *)
Fixpoint rstrip (s : string) : string :=
  match s with
  | EmptyString => EmptyString
  | String c s' =>
      match rstrip s' with
      | EmptyString => if is_space c then EmptyString else String c EmptyString
      | r => String c r
      end
  end.

(** [s.strip()] *)
Definition strip (s : string) : string := rstrip (lstrip s).

(** *** Dictionaries with [str] keys, in insertion order *)

Section Dict.
Context {V : Type}.

(** [d.get(k)] as an [option]; the first binding of [k] is the one the
    dictionary holds. *)
Fixpoint dict_get (d : list (string * V)) (k : string) : option V :=
  match d with
  | [] => None
  | (k', v) :: d' => if String.eqb k' k then Some v else dict_get d' k
  end.

(** [d[k] = v]: an existing key keeps its place, a new one goes last. *)
Fixpoint dict_set (d : list (string * V)) (k : string) (v : V)
  : list (string * V) :=
  match d with
  | [] => [(k, v)]
  | (k', v') :: d' =>
      if String.eqb k' k then (k, v) :: d' else (k', v') :: dict_set d' k v
  end.
End Dict.

(** ** Documents, files and the world *)

Definition loc : Type := nat.

Record Document : Type := {
  page_content : string;
  metadata : list (string * PyVal)
}.

(** A path, resolved: its components from the root. *)
Abbreviation path := (list string) (only parsing).

(** A file holds the text that reading it in text mode yields. *)
Inductive node : Type :=
  | File (text : string)
  | Dir.

Inductive level : Type := DEBUG | INFO | WARNING | ERROR.

Record World {E : Type} : Type := {
  heap : loc -> Document;
  fs : gmap path node;
  logs : list (level * string);
  ext : E
}.
Arguments World E : clear implicits.

(** An element of the set of chunk ids: Python compares [True] and [1]
    equal, so a [bool] is stored as its number. *)
Inductive key : Type :=
  | KNone
  | KStr (s : string)
  | KInt (z : Z).

#[global] Instance key_eq_dec : EqDecision key.
Proof. solve_decision. Defined.

#[global] Instance key_countable : Countable key.
Proof.
  refine (inj_countable'
            (fun k => match k with
                      | KNone => inl tt
                      | KStr s => inr (inl s)
                      | KInt z => inr (inr z)
                      end)
            (fun x => match x with
                      | inl _ => KNone
                      | inr (inl s) => KStr s
                      | inr (inr z) => KInt z
                      end) _).
  intros []; reflexivity.
Defined.

(** The collaborators the module imports. *)
Class Externals : Type := {
  (** [os.path.normpath] and [os.path.relpath] on [str] arguments *)
  os_path_normpath : string -> Res string;
  os_path_relpath : string -> string -> Res string;
  (** the tokenizer of [utils.llm.get_llm_func] *)
  num_tokens : string -> Res Z;
  (** [json.loads] on a [str]: the value, or [None] where it raises
      [JSONDecodeError] *)
  json_loads : string -> option json;
  (** [json.dumps] *)
  json_dumps : json -> string;
  (** [traceback.format_exc()] while the exception is being handled *)
  format_exc : exn -> string;
  (** [str(p)] for a [pathlib.Path] *)
  path_str : path -> string
}.

(** ** The monad: state of the world, and exceptions *)

Section Monad.
Context {E : Type}.

Definition M (A : Type) : Type := World E -> Res A * World E.

Definition ret {A} (a : A) : M A := fun w => (Ok a, w).

Definition bind {A B} (m : M A) (f : A -> M B) : M B :=
  fun w =>
    match m w with
    | (Ok a, w') => f a w'
    | (Raise e, w') => (Raise e, w')
    end.

(** The value or the exception a library call ends with. *)
Definition lift {A} (r : Res A) : M A := fun w => (r, w).

(** [try: body / except Exception as e: handler]; what [body] did to
    the world before it raised stays done. *)
Definition try_except {A} (body : M A) (handler : exn -> M A) : M A :=
  fun w =>
    match body w with
    | (Ok a, w') => (Ok a, w')
    | (Raise e, w') => handler e w'
    end.

(** [try: body / except cls: handler], for a class with no subclass. *)
Definition try_except_class {A} (cls : string) (body : M A)
    (handler : M A) : M A :=
  fun w =>
    match body w with
    | (Ok a, w') => (Ok a, w')
    | (Raise e, w') =>
        if String.eqb (exn_class e) cls then handler w' else (Raise e, w')
    end.

(** [for x in l: s = body(s, x)], the loop's variables threaded as [s];
    an exception ends the loop. *)
Fixpoint for_fold {S A} (body : S -> A -> M S) (s : S) (l : list A) : M S :=
  match l with
  | [] => ret s
  | x :: l' => bind (body s x) (fun s' => for_fold body s' l')
  end.

(** [logger.debug], [logger.info], [logger.warning], [logger.error] *)
Definition logger (lv : level) (msg : string) : M unit :=
  fun w =>
    (Ok tt, {| heap := heap w; fs := fs w;
               logs := logs w ++ [(lv, msg)]; ext := ext w |}).

(** The object a reference denotes. *)
Definition deref (l : loc) : M Document := fun w => (Ok (heap w l), w).

(** [chunk.metadata[k] = v] *)
Definition set_metadata_item (l : loc) (k : string) (v : PyVal) : M unit :=
  fun w =>
    let d := heap w l in
    let d' := {| page_content := page_content d;
                 metadata := dict_set (metadata d) k v |} in
    (Ok tt, {| heap := fun l' => if Nat.eqb l' l then d' else heap w l';
               fs := fs w; logs := logs w; ext := ext w |}).
End Monad.

Notation "x <- m ;; k" := (bind m (fun x => k))
  (at level 100, m at next level, k at level 200, only parsing).
Notation "m ;; k" := (bind m (fun _ => k))
  (at level 100, k at level 200, only parsing).

(** ** Files *)

Definition newline : ascii := ascii_of_nat 10.

(** The lines [for line in f] runs through, each with its line end. *)
Fixpoint text_lines (s : string) : list string :=
  match s with
  | EmptyString => []
  | String c s' =>
      if Ascii.eqb c newline then String c EmptyString :: text_lines s'
      else
        match text_lines s' with
        | [] => [String c EmptyString]
        | l :: ls => String c l :: ls
        end
  end.

(** [p.parent] *)
Definition parent (p : path) : path := removelast p.

(** [os.path.exists(p)] *)
Definition exists_in (f : gmap path node) (p : path) : bool :=
  match p with
  | [] => true
  | _ => bool_decide (is_Some (f !! p))
  end.

(** Make the directories [seen ++ [c1]], [seen ++ [c1; c2]], ... that are
    not there yet; a file in the way is an error. *)
Fixpoint mkdir_from (seen todo : path) (f : gmap path node)
  : Res (gmap path node) :=
  match todo with
  | [] => Ok f
  | c :: todo' =>
      let q := seen ++ [c] in
      match f !! q with
      | Some Dir => mkdir_from q todo' f
      | Some (File _) =>
          Raise (Exn (match todo' with
                      | [] => "FileExistsError"
                      | _ => "NotADirectoryError"
                      end) "cannot create directory")
      | None => mkdir_from q todo' (<[q := Dir]> f)
      end
  end.

Section Files.
Context {E : Type}.

Definition with_fs (f : gmap path node) (w : World E) : World E :=
  {| heap := heap w; fs := f; logs := logs w; ext := ext w |}.

Definition path_exists (p : path) : M bool (E:=E) :=
  fun w => (Ok (exists_in (fs w) p), w).

(** [p.mkdir(parents=True, exist_ok=True)] *)
Definition mkdir_parents (p : path) : M unit (E:=E) :=
  fun w =>
    match mkdir_from [] p (fs w) with
    | Ok f => (Ok tt, with_fs f w)
    | Raise e => (Raise e, w)
    end.

(** [open(p, "r", encoding="utf-8")] and the lines read from it. *)
Definition read_lines (p : path) : M (list string) (E:=E) :=
  fun w =>
    match p, fs w !! p with
    | [], _ | _, Some Dir =>
        (Raise (Exn "IsADirectoryError" "Is a directory"), w)
    | _, Some (File text) => (Ok (text_lines text), w)
    | _, None =>
        (Raise (Exn "FileNotFoundError" "No such file or directory"), w)
    end.

(** [open(p, "a", encoding="utf-8")]: the file is created when it is
    not there and its directory is. *)
Definition open_append (p : path) : M unit (E:=E) :=
  fun w =>
    match p, fs w !! p with
    | [], _ | _, Some Dir =>
        (Raise (Exn "IsADirectoryError" "Is a directory"), w)
    | _, Some (File _) => (Ok tt, w)
    | _, None =>
        match parent p, fs w !! parent p with
        | [], _ | _, Some Dir =>
            (Ok tt, with_fs (<[p := File EmptyString]> (fs w)) w)
        | _, Some (File _) =>
            (Raise (Exn "NotADirectoryError" "Not a directory"), w)
        | _, None =>
            (Raise (Exn "FileNotFoundError" "No such file or directory"), w)
        end
    end.

(** [f.write(s)] on a file opened for appending. *)
Definition write_end (p : path) (s : string) : M unit (E:=E) :=
  fun w =>
    match fs w !! p with
    | Some (File text) =>
        (Ok tt, with_fs (<[p := File (text +:+ s)]> (fs w)) w)
    | _ => (Raise (Exn "ValueError" "I/O operation on closed file"), w)
    end.
End Files.

(** ** What a parsed line is asked for *)

(** [type(j).__name__] for the value [json.loads] made of [j]. *)
Definition json_type_name (j : json) : string :=
  match j with
  | JNull => "NoneType"
  | JBool _ => "bool"
  | JInt _ => "int"
  | JStr _ => "str"
  | JArr _ => "list"
  | JObj _ => "dict"
  end.

(** A JSON object read as a [dict]: of two members with one name the
    later one stays. *)
Definition json_get (j : json) (k : string) (dflt : json) : Res json :=
  match j with
  | JObj members => Ok (default dflt (dict_get (rev members) k))
  | _ =>
      Raise (Exn "AttributeError"
               ("'" +:+ json_type_name j
                +:+ "' object has no attribute 'get'"))
  end.

(** [bool(j)] *)
Definition truthy (j : json) : bool :=
  match j with
  | JNull => false
  | JBool b => b
  | JInt z => negb (z =? 0)
  | JStr s => negb (String.eqb s EmptyString)
  | JArr l => match l with [] => false | _ => true end
  | JObj m => match m with [] => false | _ => true end
  end.

(** The element [existing_ids.add(j)] adds; lists and dicts cannot be
    hashed. *)
Definition hash_key (j : json) : Res key :=
  match j with
  | JStr s => Ok (KStr s)
  | JInt z => Ok (KInt z)
  | JBool b => Ok (KInt (if b then 1 else 0))
  | JNull => Ok KNone
  | JArr _ | JObj _ => Raise (Exn "TypeError" "unhashable type")
  end.

Definition to_json (v : PyVal) : json :=
  match v with
  | VNone => JNull
  | VBool b => JBool b
  | VInt z => JInt z
  | VStr s => JStr s
  end.

(** The [dict] [{"content": ..., "metadata": ...}] written for a chunk. *)
Definition chunk_record (d : Document) : json :=
  JObj [("content", JStr (page_content d));
        ("metadata", JObj (map (fun kv => (kv.1, to_json kv.2)) (metadata d)))].

(** ** The functions of the module *)

Section Population.
Context {E : Type} {X : Externals}.

(** [os.path.normpath(source)] for whatever [metadata.get("source")]
    returned: anything but a [str] is refused with a [TypeError]. *)
Definition normpath_of (source : PyVal) : Res string :=
  match source with
  | VStr s => os_path_normpath s
  | _ =>
      Raise (Exn "TypeError"
               ("expected str, bytes or os.PathLike object, not "
                +:+ py_type_name source))
  end.

(** One turn of the loop of [calc_chunk_ids]; the state is
    [(last_page_id, curr_chunk_idx)]. *)
Definition calc_chunk_ids_step (base_data_path : string)
    (st : option string * Z) (chunk : loc) : M (option string * Z) (E:=E) :=
  let '(last_page_id, curr_chunk_idx) := st in
  d <- deref chunk ;;
  let source := default VNone (dict_get (metadata d) "source") in
  let page := default VNone (dict_get (metadata d) "page") in
  norm_source <- lift (normpath_of source) ;;
  rel <- lift (os_path_relpath norm_source base_data_path) ;;
  let rel_source := replace_backslash rel in
  let curr_page_id := rel_source +:+ ":" +:+ py_str page in
  let curr_chunk_idx :=
    if decide (Some curr_page_id = last_page_id)
    then curr_chunk_idx + 1 else 0 in
  let chunk_id := curr_page_id +:+ ":" +:+ str_int curr_chunk_idx in
  let last_page_id := Some curr_page_id in
  set_metadata_item chunk "chunk_id" (VStr chunk_id) ;;
  ret (last_page_id, curr_chunk_idx).

Definition calc_chunk_ids (chunks : list loc) (base_data_path : string)
  : M (list loc) (E:=E) :=
  try_except
    (logger INFO "[Stage 01, Part 06.1.1] Calculating chunk IDs..." ;;
     _ <- for_fold (calc_chunk_ids_step base_data_path) (None, 0) chunks ;;
     logger INFO "[Stage 01, Part 06.1.2] Chunk IDs calculated successfully." ;;
     ret chunks)
    (fun e =>
       logger ERROR ("[Stage 01, Part 06.1] Error calculating chunk IDs: "
                     +:+ exn_msg e) ;;
       logger DEBUG (format_exc e) ;;
       ret chunks).

Definition filter_chunks (chunks : list loc) (lower_limit upper_limit : Z)
  : M (list loc) (E:=E) :=
  logger INFO "[Stage 01, Part 06.5.1] Applying custom (token-based) filtering on chunks before ingestion..." ;;
  try_except
    (filtered <-
       for_fold
         (fun filtered chunk =>
            d <- deref chunk ;;
            let content := strip (page_content d) in
            token_len <- lift (num_tokens content) ;;
            if (lower_limit <? token_len) && (token_len <? upper_limit)
            then ret (filtered ++ [chunk])
            else ret filtered)
         [] chunks ;;
     logger INFO ("[Stage 01, Part 06.5.2(a)] Chunks remaining before filter: "
                  +:+ str_int (len chunks)) ;;
     logger INFO ("[Stage 01, Part 06.5.2(b)] Chunks remaining after filter: "
                  +:+ str_int (len filtered)) ;;
     ret filtered)
    (fun e =>
       logger ERROR ("[Stage 01, Part 06.5] Error applying custom filtering on chunks: "
                     +:+ exn_msg e) ;;
       logger DEBUG (format_exc e) ;;
       ret chunks).

(** [range(start, stop, step)] as the list it runs through. *)
Definition py_range (start stop step : Z) : Res (list Z) :=
  if step =? 0 then
    Raise (Exn "ValueError" "range() arg 3 must not be zero")
  else
    let n :=
      if 0 <? step
      then (if start <? stop then (stop - start - 1) / step + 1 else 0)
      else (if stop <? start then (start - stop - 1) / (- step) + 1 else 0) in
    Ok (map (fun k => start + Z.of_nat k * step) (seq 0 (Z.to_nat n))).

(** [l[i:j]]: a negative bound counts from the end, and both are
    clamped to the list. *)
Definition py_slice {A} (l : list A) (i j : Z) : list A :=
  let n := len l in
  let clamp k := if k <? 0 then Z.max (k + n) 0 else Z.min k n in
  let i' := clamp i in
  let j' := clamp j in
  take (Z.to_nat (j' - i')) (drop (Z.to_nat i') l).

Definition process_in_batches (documents : list loc) (ingest_batch_size : Z)
    (ingest_fn : list loc -> M unit (E:=E)) : M unit (E:=E) :=
  let total := len documents in
  logger INFO ("[Stage 01, Part 08.3] Processing " +:+ str_int total
               +:+ " documents in batches of " +:+ str_int ingest_batch_size
               +:+ "...") ;;
  indices <- lift (py_range 0 total ingest_batch_size) ;;
  _ <- for_fold
    (fun (_ : unit) i =>
       let batch := py_slice documents i (i + ingest_batch_size) in
       try_except
         (ingest_fn batch ;;
          logger INFO ("[Stage 01, Part 08.4] Ingested batch "
                       +:+ str_int (i / ingest_batch_size)))
         (fun e =>
            logger ERROR ("[Stage 01, Part 08.4] Failed to ingest batch "
                          +:+ str_int (i / ingest_batch_size) +:+ ": "
                          +:+ exn_msg e) ;;
            logger DEBUG (format_exc e)))
    tt indices ;;
  ret tt.

(** [json.loads(s)] with its exception. *)
Definition loads_res (s : string) : Res json :=
  match json_loads s with
  | Some j => Ok j
  | None => Raise (Exn "JSONDecodeError" "Expecting value")
  end.

(** The body of the loop over the lines, which
    [load_existing_chunks_metadata] and the second half of
    [save_processed_chunks_metadata] both have: one turn for one line. *)
Definition add_line_id (existing_ids : gset key) (line : string)
  : M (gset key) (E:=E) :=
  try_except_class "JSONDecodeError"
    (chunk_data <- lift (loads_res (strip line)) ;;
     md <- lift (json_get chunk_data "metadata" (JObj [])) ;;
     chunk_id <- lift (json_get md "chunk_id" JNull) ;;
     if truthy chunk_id then
       k <- lift (hash_key chunk_id) ;;
       ret (existing_ids ∪ {[ k ]})
     else ret existing_ids)
    (ret existing_ids).

Definition load_existing_chunks_metadata (chunks_dir : path)
  : M (gset key) (E:=E) :=
  try_except
    (found <- path_exists chunks_dir ;;
     if negb found then
       logger WARNING ("[Stage 01, Part 06.2] No existing chunks file found at "
                       +:+ path_str chunks_dir) ;;
       ret ∅
     else
       lines <- read_lines chunks_dir ;;
       existing_ids <- for_fold add_line_id ∅ lines ;;
       logger INFO ("[Stage 01, Part 06.2] Loaded "
                    +:+ str_int (Z.of_nat (size existing_ids))
                    +:+ " existing chunk IDs") ;;
       ret existing_ids)
    (fun e =>
       logger ERROR ("[Stage 01, Part 06.2] Error loading existing chunks metadata: "
                     +:+ exn_msg e) ;;
       logger DEBUG (format_exc e) ;;
       ret ∅).

Definition save_processed_chunks_metadata (chunks : list loc)
    (chunks_dir : path) : M (gset key) (E:=E) :=
  try_except
    (logger INFO ("[Stage 01, Part 10.1.1] Saving processed chunks metadata to: "
                  +:+ path_str chunks_dir) ;;
     mkdir_parents (parent chunks_dir) ;;
     found <- path_exists chunks_dir ;;
     _ <- (if found then
             lines <- read_lines chunks_dir ;;
             for_fold
               (fun existing_data line =>
                  try_except_class "JSONDecodeError"
                    (j <- lift (loads_res (strip line)) ;;
                     ret (existing_data ++ [j]))
                    (ret existing_data))
               [] lines
           else ret []) ;;
     open_append chunks_dir ;;
     _ <- for_fold
       (fun (_ : unit) chunk =>
          d <- deref chunk ;;
          let chunk_data := chunk_record d in
          write_end chunks_dir (json_dumps chunk_data +:+ String newline EmptyString))
       tt chunks ;;
     logger INFO ("[Stage 01, Part 10.1.2] Saved " +:+ str_int (len chunks)
                  +:+ " processed chunks to metadata file"))
    (fun e =>
       logger ERROR ("[Stage 01, Part 10.1] Error saving processed chunks metadata: "
                     +:+ exn_msg e) ;;
       logger DEBUG (format_exc e)) ;;
  try_except
    (found <- path_exists chunks_dir ;;
     if negb found then
       logger INFO ("[Stage 01, Part 10.2.1] No existing chunks file found at "
                    +:+ path_str chunks_dir) ;;
       ret ∅
     else
       lines <- read_lines chunks_dir ;;
       existing_ids <- for_fold add_line_id ∅ lines ;;
       logger INFO ("[Stage 01, Part 10.2.2] Loaded "
                    +:+ str_int (Z.of_nat (size existing_ids))
                    +:+ " existing chunk IDs") ;;
       ret existing_ids)
    (fun e =>
       logger ERROR ("[Stage 01, Part 10.2] Error loading existing chunks metadata: "
                     +:+ exn_msg e) ;;
       logger DEBUG (format_exc e) ;;
       ret ∅).

End Population.

(** ** The loading stage: [load_docs], [flatten_docs], [split_docs]

    Their collaborators are library objects: the enumeration
    [base_data_path.glob("*.pdf")], the loader
    [PyMuPDFLoader(str(f)).load()], the construction of the splitter
    [RecursiveCharacterTextSplitter.from_tiktoken_encoder(...)] and its
    method [split_documents(docs)].  Each is an action on the world that
    returns its value or raises. *)

(** What a list handed to [flatten_docs] may hold: a Document, a list, or
    some other object. *)
Inductive pyobj : Type :=
  | ODoc (l : loc)
  | OList (items : list pyobj)
  | OOther (repr : string).

Section Loading.
Context {E : Type} {X : Externals}.

(** [glob_pdf p]: the files [p.glob("*.pdf")] lists, in the order the
    system gives them.  [pdf_load f]: the Documents of the file [f]. *)
Variable glob_pdf : path -> M (list path) (E:=E).
Variable pdf_load : path -> M (list loc) (E:=E).

(** One turn of the loop of [load_docs]; [gc.collect()] frees memory and
    shows in nothing that is modelled. *)
Definition load_docs_step (all_docs : list loc) (pdf_file : path)
  : M (list loc) (E:=E) :=
  try_except
    (docs <- pdf_load pdf_file ;;
     ret (all_docs ++ docs))
    (fun inner_e =>
       logger WARNING ("[Part 02] Failed to load " +:+ path_str pdf_file
                       +:+ ": " +:+ exn_msg inner_e) ;;
       logger DEBUG (format_exc inner_e) ;;
       ret all_docs).

Definition load_docs (base_data_path : path) : M (list loc) (E:=E) :=
  try_except
    (logger INFO "[Stage 01, Part 01.1] Loading docs from base directory....." ;;
     found <- path_exists base_data_path ;;
     if negb found then
       logger ERROR ("[Stage 01, Part 01.2] Base directory does not exist: "
                     +:+ path_str base_data_path) ;;
       ret []
     else
       pdf_files <- glob_pdf base_data_path ;;
       logger INFO ("[Stage 01, Part 02] Found " +:+ str_int (len pdf_files)
                    +:+ " PDFs in base directory") ;;
       all_docs <- for_fold load_docs_step [] pdf_files ;;
       logger INFO ("[Stage 01, Part 03] Total documents loaded: "
                    +:+ str_int (len all_docs)) ;;
       ret all_docs)
    (fun e =>
       logger ERROR ("[Stage 01, Part 03] Error during document loading: "
                     +:+ exn_msg e) ;;
       logger DEBUG (format_exc e) ;;
       ret []).

(** [iter_other o]: what [for item in o] runs through when [o] is no
    list, or the exception it raises. *)
Variable iter_other : pyobj -> Res (list pyobj).

(** [for item in sublist] *)
Definition iter_obj (o : pyobj) : Res (list pyobj) :=
  match o with
  | OList items => Ok items
  | _ => iter_other o
  end.

(** [isinstance(o, list)] *)
Definition is_list (o : pyobj) : bool :=
  match o with
  | OList _ => true
  | _ => false
  end.

(** [[item for sublist in docs for item in sublist]] *)
Fixpoint flatten_comprehension (docs : list pyobj) : Res (list pyobj) :=
  match docs with
  | [] => Ok []
  | sublist :: rest =>
      match iter_obj sublist with
      | Raise e => Raise e
      | Ok items =>
          match flatten_comprehension rest with
          | Raise e => Raise e
          | Ok more => Ok (items ++ more)
          end
      end
  end.

Definition flatten_docs (docs : list pyobj) : M (list pyobj) (E:=E) :=
  try_except
    (logger INFO "[Stage 01, Part 04] Flattening docs list....." ;;
     if match docs with
        | first :: _ => is_list first
        | [] => false
        end
     then
       docs_list <- lift (flatten_comprehension docs) ;;
       logger INFO ("[Stage 01, Part 04(a)] Flattened docs count: "
                    +:+ str_int (len docs_list)) ;;
       ret docs_list
     else
       logger INFO ("[Stage 01, Part 04(b)] Docs already flat, count: "
                    +:+ str_int (len docs)) ;;
       ret docs)
    (fun e =>
       logger ERROR ("[Stage 01, Part 04] Error flattening docs list: "
                     +:+ exn_msg e) ;;
       logger DEBUG (format_exc e) ;;
       ret docs).

(** [from_tiktoken_encoder size overlap]: the splitter that
    [RecursiveCharacterTextSplitter.from_tiktoken_encoder] builds for the
    chunk size and overlap.  [split_documents splitter docs]: the chunks
    [splitter.split_documents(docs)] makes. *)
Context {Splitter : Type}.
Variable from_tiktoken_encoder : Z -> Z -> M Splitter (E:=E).
Variable split_documents : Splitter -> list loc -> M (list loc) (E:=E).

Definition split_docs (docs : list loc) (chunk_size chunk_overlap : Z)
  : M (list loc) (E:=E) :=
  try_except
    (logger INFO "[Stage 01, Part 05] Splitting docs into chunks...." ;;
     text_splitter <- from_tiktoken_encoder chunk_size chunk_overlap ;;
     logger INFO ("[Stage 01, Part 05.1] Splitting " +:+ str_int (len docs)
                  +:+ " documents into chunks (size=" +:+ str_int chunk_size
                  +:+ ", overlap=" +:+ str_int chunk_overlap +:+ ")...") ;;
     chunks <- split_documents text_splitter docs ;;
     logger INFO ("[Stage 01, Part 05.2] Total chunks created: "
                  +:+ str_int (len chunks)) ;;
     ret chunks)
    (fun e =>
       logger ERROR ("[Stage 01, Part 05] Error splitting documents: "
                     +:+ exn_msg e) ;;
       logger DEBUG (format_exc e) ;;
       ret []).

End Loading.

(** ** Reference collaborators

    The POSIX flavour of [os.path] ([posixpath.py]) and the part of [json]
    the sidecar file needs, so that the functions above can be run. *)

Module Posix.

(** [s.split("/")] *)
Fixpoint split (s : string) : list string :=
  match s with
  | EmptyString => [EmptyString]
  | String c s' =>
      if Ascii.eqb c slash then EmptyString :: split s'
      else
        match split s' with
        | [] => [String c EmptyString]
        | x :: xs => String c x :: xs
        end
  end.

Definition startswith (pre s : string) : bool := String.prefix pre s.

(** [s.endswith("/")] *)
Fixpoint endswith_slash (s : string) : bool :=
  match s with
  | EmptyString => false
  | String c EmptyString => Ascii.eqb c slash
  | String _ s' => endswith_slash s'
  end.

Definition isabs (s : string) : bool := startswith "/" s.

(** The loop of [normpath] over the components; [new_comps] grows at its
    end. *)
Fixpoint normpath_comps (initial_slashes : nat) (new_comps comps : list string)
  : list string :=
  match comps with
  | [] => new_comps
  | comp :: rest =>
      if String.eqb comp EmptyString || String.eqb comp "." then
        normpath_comps initial_slashes new_comps rest
      else if negb (String.eqb comp "..")
              || (Nat.eqb initial_slashes 0
                  && match new_comps with [] => true | _ => false end)
              || match last new_comps with
                 | Some l => String.eqb l ".."
                 | None => false
                 end
      then normpath_comps initial_slashes (new_comps ++ [comp]) rest
      else normpath_comps initial_slashes (removelast new_comps) rest
  end.

Definition normpath (p : string) : string :=
  if String.eqb p EmptyString then "." else
  let initial_slashes :=
    if startswith "/" p then
      if startswith "//" p && negb (startswith "///" p) then 2%nat else 1%nat
    else 0%nat in
  let comps := normpath_comps initial_slashes [] (split p) in
  let joined := String.concat "/" comps in
  let res :=
    match initial_slashes with
    | 0%nat => joined
    | 1%nat => "/" +:+ joined
    | _ => "//" +:+ joined
    end in
  if String.eqb res EmptyString then "." else res.

(** [join(a, b)] *)
Definition join (a b : string) : string :=
  if startswith "/" b then b
  else if String.eqb a EmptyString || endswith_slash a then a +:+ b
  else a +:+ "/" +:+ b.

(** [abspath(p)] in the working directory [cwd]. *)
Definition abspath (cwd p : string) : string :=
  normpath (if isabs p then p else join cwd p).

(** The length of [commonprefix([l1, l2])]: that of the longest list
    both start with. *)
Fixpoint common_len (l1 l2 : list string) : nat :=
  match l1, l2 with
  | x :: l1', y :: l2' =>
      if String.eqb x y then S (common_len l1' l2') else 0%nat
  | _, _ => 0%nat
  end.

Definition nonempty (s : string) : bool := negb (String.eqb s EmptyString).

Definition relpath (cwd p start : string) : Res string :=
  if String.eqb p EmptyString then
    Raise (Exn "ValueError" "no path specified")
  else
    let start_list := List.filter nonempty (split (abspath cwd start)) in
    let path_list := List.filter nonempty (split (abspath cwd p)) in
    let i := common_len start_list path_list in
    let rel_list :=
      repeat ".." (length start_list - i) ++ drop i path_list in
    match rel_list with
    | [] => Ok "."
    | a :: ps => Ok (fold_left join ps a)
    end.

Fixpoint has_char (c : ascii) (s : string) : bool :=
  match s with
  | EmptyString => false
  | String c' s' => Ascii.eqb c' c || has_char c s'
  end.

(** What stands between two separators. *)
Definition segment (s : string) : bool :=
  nonempty s && negb (has_char slash s).

(** A component a path can be made of: a segment that is neither [.]
    nor [..]. *)
Definition component (s : string) : bool :=
  segment s && negb (String.eqb s ".") && negb (String.eqb s "..").


Definition not_dot (c : string) : bool := negb (String.eqb c ".").

(** The absolute path with the components [cs]. *)
Definition abs_of (cs : list string) : string := "/" +:+ String.concat "/" cs.

End Posix.

Module Json.

Definition dquote : ascii := ascii_of_nat 34.

Definition hex_digit (n : nat) : ascii :=
  ascii_of_nat (if (n <? 10)%nat then 48 + n else 87 + n).

(** One character of a string as [json.dumps] writes it with
    [ensure_ascii=True]. *)
Definition escape_char (c : ascii) : string :=
  let n := nat_of_ascii c in
  if Ascii.eqb c dquote then String backslash (String dquote EmptyString)
  else if Ascii.eqb c backslash then String backslash (String backslash EmptyString)
  else if (n =? 10)%nat then String backslash "n"
  else if (n =? 13)%nat then String backslash "r"
  else if (n =? 9)%nat then String backslash "t"
  else if (n =? 8)%nat then String backslash "b"
  else if (n =? 12)%nat then String backslash "f"
  else if ((n <? 32) || (126 <? n))%nat then
    String backslash
      ("u00" +:+ String (hex_digit (n / 16)) (String (hex_digit (n mod 16)) EmptyString))
  else String c EmptyString.

Fixpoint escape (s : string) : string :=
  match s with
  | EmptyString => EmptyString
  | String c s' => escape_char c +:+ escape s'
  end.

Definition quoted (s : string) : string :=
  String dquote (escape s +:+ String dquote EmptyString).

(** [json.dumps(j)] with the default separators. *)
Fixpoint dumps (j : json) : string :=
  match j with
  | JNull => "null"
  | JBool true => "true"
  | JBool false => "false"
  | JInt z => str_int z
  | JStr s => quoted s
  | JArr l =>
      "[" +:+
      (fix elems (l : list json) : string :=
         match l with
         | [] => EmptyString
         | [x] => dumps x
         | x :: r => dumps x +:+ ", " +:+ elems r
         end) l
      +:+ "]"
  | JObj m =>
      "{" +:+
      (fix members (m : list (string * json)) : string :=
         match m with
         | [] => EmptyString
         | [(k, v)] => quoted k +:+ ": " +:+ dumps v
         | (k, v) :: r => quoted k +:+ ": " +:+ dumps v +:+ ", " +:+ members r
         end) m
      +:+ "}"
  end.

(** The white space between JSON tokens. *)
Definition is_ws (c : ascii) : bool :=
  let n := nat_of_ascii c in
  ((n =? 32) || (n =? 9) || (n =? 10) || (n =? 13))%nat.

Fixpoint skip_ws (s : string) : string :=
  match s with
  | String c s' => if is_ws c then skip_ws s' else s
  | EmptyString => EmptyString
  end.

Definition digit_of (c : ascii) : option Z :=
  let n := nat_of_ascii c in
  if ((48 <=? n) && (n <=? 57))%nat then Some (Z.of_nat (n - 48)) else None.

Definition hex_of (c : ascii) : option nat :=
  let n := nat_of_ascii c in
  if ((48 <=? n) && (n <=? 57))%nat then Some (n - 48)%nat
  else if ((97 <=? n) && (n <=? 102))%nat then Some (n - 87)%nat
  else if ((65 <=? n) && (n <=? 70))%nat then Some (n - 55)%nat
  else None.

(** The digits that follow, as a number. *)
Fixpoint parse_digits (acc : Z) (s : string) : Z * string :=
  match s with
  | String c s' =>
      match digit_of c with
      | Some d => parse_digits (acc * 10 + d) s'
      | None => (acc, s)
      end
  | EmptyString => (acc, s)
  end.

(** An integer: [0], or a digit from 1 to 9 and more digits; a fraction
    or an exponent after it is refused. *)
Definition parse_nat (s : string) : option (Z * string) :=
  match s with
  | String c s' =>
      match digit_of c with
      | Some d =>
          let '(n, rest) :=
            if d =? 0 then (0, s') else parse_digits d s' in
          match rest with
          | String c' _ =>
              if Ascii.eqb c' "."%char || Ascii.eqb c' "e"%char
                 || Ascii.eqb c' "E"%char
              then None else Some (n, rest)
          | EmptyString => Some (n, rest)
          end
      | None => None
      end
  | EmptyString => None
  end.

(** The characters of a string literal after its opening quote. *)
Fixpoint parse_chars (s : string) : option (string * string) :=
  match s with
  | EmptyString => None
  | String c s' =>
      if Ascii.eqb c dquote then Some (EmptyString, s')
      else if Ascii.eqb c backslash then
        match s' with
        | String e s'' =>
            let cont (ch : ascii) (rest : string) :=
              match parse_chars rest with
              | Some (str, r) => Some (String ch str, r)
              | None => None
              end in
            if Ascii.eqb e dquote then cont dquote s''
            else if Ascii.eqb e backslash then cont backslash s''
            else if Ascii.eqb e "/"%char then cont "/"%char s''
            else if Ascii.eqb e "n"%char then cont (ascii_of_nat 10) s''
            else if Ascii.eqb e "r"%char then cont (ascii_of_nat 13) s''
            else if Ascii.eqb e "t"%char then cont (ascii_of_nat 9) s''
            else if Ascii.eqb e "b"%char then cont (ascii_of_nat 8) s''
            else if Ascii.eqb e "f"%char then cont (ascii_of_nat 12) s''
            else if Ascii.eqb e "u"%char then
              match s'' with
              | String "0" (String "0" (String h1 (String h2 s3))) =>
                  match hex_of h1, hex_of h2 with
                  | Some a, Some b => cont (ascii_of_nat (16 * a + b)) s3
                  | _, _ => None
                  end
              | _ => None
              end
            else None
        | EmptyString => None
        end
      else if (nat_of_ascii c <? 32)%nat then None
      else
        match parse_chars s' with
        | Some (str, r) => Some (String c str, r)
        | None => None
        end
  end.

Section Parser.
Variable parse_value : string -> option (json * string).

(** The elements of an array after its first one. *)
Fixpoint parse_elems (fuel : nat) (acc : list json) (s : string)
  : option (json * string) :=
  match fuel with
  | O => None
  | S fuel' =>
      match skip_ws s with
      | String "]" rest => Some (JArr acc, rest)
      | String "," rest =>
          match parse_value rest with
          | Some (v, rest') => parse_elems fuel' (acc ++ [v]) rest'
          | None => None
          end
      | _ => None
      end
  end.

(** One member, [name : value]. *)
Definition parse_member (s : string) : option ((string * json) * string) :=
  match skip_ws s with
  | String c rest =>
      if Ascii.eqb c dquote then
        match parse_chars rest with
        | Some (k, rest') =>
            match skip_ws rest' with
            | String ":" rest'' =>
                match parse_value rest'' with
                | Some (v, r) => Some ((k, v), r)
                | None => None
                end
            | _ => None
            end
        | None => None
        end
      else None
  | EmptyString => None
  end.

(** The members of an object after its first one. *)
Fixpoint parse_members (fuel : nat) (acc : list (string * json)) (s : string)
  : option (json * string) :=
  match fuel with
  | O => None
  | S fuel' =>
      match skip_ws s with
      | String "}" rest => Some (JObj acc, rest)
      | String "," rest =>
          match parse_member rest with
          | Some (kv, rest') => parse_members fuel' (acc ++ [kv]) rest'
          | None => None
          end
      | _ => None
      end
  end.
End Parser.

(** A JSON value at the head of [s], white space before it skipped;
    [fuel] bounds the nesting. *)
Fixpoint parse_value (fuel : nat) (s : string) : option (json * string) :=
  match fuel with
  | O => None
  | S fuel' =>
      let s := skip_ws s in
      let n := String.length s in
      match s with
      | String "n" (String "u" (String "l" (String "l" rest))) =>
          Some (JNull, rest)
      | String "t" (String "r" (String "u" (String "e" rest))) =>
          Some (JBool true, rest)
      | String "f" (String "a" (String "l" (String "s" (String "e" rest)))) =>
          Some (JBool false, rest)
      | String "[" rest =>
          match skip_ws rest with
          | String "]" rest' => Some (JArr [], rest')
          | _ =>
              match parse_value fuel' rest with
              | Some (v, rest') => parse_elems (parse_value fuel') n [v] rest'
              | None => None
              end
          end
      | String "{" rest =>
          match skip_ws rest with
          | String "}" rest' => Some (JObj [], rest')
          | _ =>
              match parse_member (parse_value fuel') rest with
              | Some (kv, rest') =>
                  parse_members (parse_value fuel') n [kv] rest'
              | None => None
              end
          end
      | String "-" rest =>
          match parse_nat rest with
          | Some (z, rest') => Some (JInt (- z), rest')
          | None => None
          end
      | String c rest =>
          if Ascii.eqb c dquote then
            match parse_chars rest with
            | Some (str, rest') => Some (JStr str, rest')
            | None => None
            end
          else
            match parse_nat s with
            | Some (z, rest') => Some (JInt z, rest')
            | None => None
            end
      | EmptyString => None
      end
  end.

(** [json.loads(s)]: one value and nothing but white space after it;
    [None] stands for [JSONDecodeError]. *)
Definition loads (s : string) : option json :=
  match parse_value (S (String.length s)) s with
  | Some (v, rest) =>
      match skip_ws rest with
      | EmptyString => Some v
      | _ => None
      end
  | None => None
  end.

End Json.

(** The collaborators on a POSIX system whose working directory is [cwd],
    with the tokenizer [tok]. *)
Definition posix_externals (cwd : string) (tok : string -> Res Z) : Externals :=
  {| os_path_normpath := fun s => Ok (Posix.normpath s);
     os_path_relpath := Posix.relpath cwd;
     num_tokens := tok;
     json_loads := Json.loads;
     json_dumps := Json.dumps;
     format_exc := fun e =>
       "Traceback (most recent call last): " +:+ exn_class e +:+ ": "
       +:+ exn_msg e;
     path_str := fun p => "/" +:+ String.concat "/" p |}.

(** ** Notions the properties are stated with *)

Section Notions.
Context {E : Type} {X : Externals}.

Definition with_heap (h : loc -> Document) (w : World E) : World E :=
  {| heap := h; fs := fs w; logs := logs w; ext := ext w |}.

Definition with_logs (l : list (level * string)) (w : World E) : World E :=
  {| heap := heap w; fs := fs w; logs := l; ext := ext w |}.

(** The value of [metadata["chunk_id"]], when the key is there. *)
Definition chunk_id_of (d : Document) : option PyVal :=
  dict_get (metadata d) "chunk_id".

(** The page id [calc_chunk_ids] computes for a document:
    the normalised source relative to the base directory, [":"], the page. *)
Definition page_id_of (base_data_path : string) (d : Document) : Res string :=
  match normpath_of (default VNone (dict_get (metadata d) "source")) with
  | Raise e => Raise e
  | Ok norm_source =>
      match os_path_relpath norm_source base_data_path with
      | Raise e => Raise e
      | Ok rel =>
          Ok (replace_backslash rel +:+ ":"
              +:+ py_str (default VNone (dict_get (metadata d) "page")))
      end
  end.

(** The heap after [h[c].metadata["chunk_id"] = v]. *)
Definition assign (h : loc -> Document) (c : loc) (v : string)
  : loc -> Document :=
  fun l =>
    if Nat.eqb l c
    then {| page_content := page_content (h c);
            metadata := dict_set (metadata (h c)) "chunk_id" (VStr v) |}
    else h l.

Definition assign_all (ws : list (loc * string)) (h : loc -> Document)
  : loc -> Document :=
  fold_left (fun h cv => assign h cv.1 cv.2) ws h.

(** The assignments the loop of [calc_chunk_ids] makes, in order, from the
    loop state [st], and how the loop ends. *)
Fixpoint assignments (base_data_path : string) (st : option string * Z)
    (chunks : list loc) (h : loc -> Document)
  : list (loc * string) * Res (option string * Z) :=
  match chunks with
  | [] => ([], Ok st)
  | c :: cs =>
      match page_id_of base_data_path (h c) with
      | Raise e => ([], Raise e)
      | Ok pid =>
          let idx := if decide (Some pid = st.1) then st.2 + 1 else 0 in
          let r := assignments base_data_path (Some pid, idx) cs h in
          ((c, pid +:+ ":" +:+ str_int idx) :: r.1, r.2)
      end
  end.

(** The token count [filter_chunks] takes for a chunk. *)
Definition token_len_of (h : loc -> Document) (c : loc) : Res Z :=
  num_tokens (strip (page_content (h c))).

Definition in_window (lower_limit upper_limit : Z) (h : loc -> Document)
    (c : loc) : bool :=
  match token_len_of h c with
  | Ok n => (lower_limit <? n) && (n <? upper_limit)
  | Raise _ => false
  end.

(** How many indices [range(0, total, step)] has for a positive step. *)
Definition range_count (total step : Z) : nat :=
  Z.to_nat (if 0 <? total then (total - 0 - 1) / step + 1 else 0).

(** Contiguous batches of [n] elements; the last one may be shorter. *)
Fixpoint batches_fuel {A} (fuel : nat) (n : nat) (l : list A) : list (list A) :=
  match fuel, l with
  | O, _ | _, [] => []
  | S fuel', _ => take n l :: batches_fuel fuel' n (drop n l)
  end.

Definition batches {A} (n : nat) (l : list A) : list (list A) :=
  batches_fuel (length l) n l.

(** One attempt: the batch is handed to [ingest_fn], and the outcome is
    logged under the batch's number. *)
Definition attempt (ingest_fn : list loc -> M unit (E:=E)) (k : Z)
    (batch : list loc) (w : World E) : World E :=
  match ingest_fn batch w with
  | (Ok _, w') =>
      with_logs (logs w' ++ [(INFO, "[Stage 01, Part 08.4] Ingested batch "
                                    +:+ str_int k)]) w'
  | (Raise e, w') =>
      with_logs (logs w' ++
                 [(ERROR, "[Stage 01, Part 08.4] Failed to ingest batch "
                          +:+ str_int k +:+ ": " +:+ exn_msg e);
                  (DEBUG, format_exc e)]) w'
  end.

(** Every batch attempted in turn, numbered from [k]. *)
Fixpoint attempt_all (ingest_fn : list loc -> M unit (E:=E)) (k : Z)
    (bs : list (list loc)) (w : World E) : World E :=
  match bs with
  | [] => w
  | b :: bs' => attempt_all ingest_fn (k + 1) bs' (attempt ingest_fn k b w)
  end.

(** The chunk id a parsed line carries, as an element of the ledger:
    the line is an object, its ["metadata"] (an empty object when absent)
    is an object, and the ["chunk_id"] there is truthy and hashable. *)
Definition record_key (j : json) : Res (option key) :=
  match json_get j "metadata" (JObj []) with
  | Raise e => Raise e
  | Ok md =>
      match json_get md "chunk_id" JNull with
      | Raise e => Raise e
      | Ok cid =>
          if truthy cid then
            match hash_key cid with
            | Ok k => Ok (Some k)
            | Raise e => Raise e
            end
          else Ok None
      end
  end.

(** A line is fit for the ledger when it does not parse, or parses to a
    record [record_key] accepts. *)
Definition line_ok (line : string) : bool :=
  match json_loads (strip line) with
  | Some j => match record_key j with Ok _ => true | Raise _ => false end
  | None => true
  end.

(** The key a line contributes. *)
Definition line_key (line : string) : option key :=
  match json_loads (strip line) with
  | Some j => match record_key j with Ok (Some k) => Some k | _ => None end
  | None => None
  end.

(** The ledger of a text: the keys of its lines. *)
Definition ledger_of (text : string) : gset key :=
  list_to_set (omap line_key (text_lines text)).

(** What one turn of the loop over the lines makes of the set. *)
Definition line_step (ids : gset key) (line : string) : Res (gset key) :=
  match json_loads (strip line) with
  | None => Ok ids
  | Some j =>
      match record_key j with
      | Ok (Some k) => Ok (ids ∪ {[ k ]})
      | Ok None => Ok ids
      | Raise e => Raise e
      end
  end.

Fixpoint ledger_fold (ids : gset key) (lines : list string) : Res (gset key) :=
  match lines with
  | [] => Ok ids
  | line :: lines' =>
      match line_step ids line with
      | Ok ids' => ledger_fold ids' lines'
      | Raise e => Raise e
      end
  end.

(** The set a scan of the file at [p] returns. *)
Definition scan_result (f : gmap path node) (p : path) : gset key :=
  match p, f !! p with
  | _ :: _, Some (File text) =>
      match ledger_fold ∅ (text_lines text) with
      | Ok ids => ids
      | Raise _ => ∅
      end
  | _, _ => ∅
  end.

(** A scan of the file, as both functions do it, whatever they log. *)
Definition scan (missing : level * string) (loaded_pre loaded_post : string)
    (err : string) (p : path) : M (gset key) (E:=E) :=
  try_except
    (found <- path_exists p ;;
     if negb found then logger missing.1 missing.2 ;; ret ∅
     else
       lines <- read_lines p ;;
       existing_ids <- for_fold add_line_id ∅ lines ;;
       logger INFO (loaded_pre +:+ str_int (Z.of_nat (size existing_ids))
                    +:+ loaded_post) ;;
       ret existing_ids)
    (fun e =>
       logger ERROR (err +:+ exn_msg e) ;;
       logger DEBUG (format_exc e) ;;
       ret ∅).

(** The text [save_processed_chunks_metadata] appends for the chunks. *)
Definition appended_text (h : loc -> Document) (chunks : list loc) : string :=
  fold_right
    (fun c rest =>
       (json_dumps (chunk_record (h c)) +:+ String newline EmptyString)
       +:+ rest)
    EmptyString chunks.

Fixpoint ends_with_newline (s : string) : bool :=
  match s with
  | EmptyString => true
  | String c EmptyString => Ascii.eqb c newline
  | String _ s' => ends_with_newline s'
  end.

Fixpoint has_newline (s : string) : bool :=
  match s with
  | EmptyString => false
  | String c s' => Ascii.eqb c newline || has_newline s'
  end.

(** The element of the ledger a chunk's own [chunk_id] is. *)
Definition chunk_key (d : Document) : option key :=
  match chunk_id_of d with
  | Some v =>
      if truthy (to_json v) then
        match hash_key (to_json v) with Ok k => Some k | Raise _ => None end
      else None
  | None => None
  end.

(** The last value assigned to [l] by a list of assignments. *)
Fixpoint last_write (ws : list (loc * string)) (l : loc) : option string :=
  match ws with
  | [] => None
  | (c, v) :: ws' =>
      match last_write ws' l with
      | Some v' => Some v'
      | None => if Nat.eqb l c then Some v else None
      end
  end.

(** A document with its chunk id set, or as it is. *)
Definition with_chunk_id (d : Document) (o : option string) : Document :=
  match o with
  | Some v => {| page_content := page_content d;
                 metadata := dict_set (metadata d) "chunk_id" (VStr v) |}
  | None => d
  end.

(** The index the loop gives to each page id of a sequence, from the loop
    state [(last, idx)]. *)
Fixpoint indices (last : option string) (idx : Z) (pids : list string)
  : list Z :=
  match pids with
  | [] => []
  | pid :: pids' =>
      let idx' := if decide (Some pid = last) then idx + 1 else 0 in
      idx' :: indices (Some pid) idx' pids'
  end.

End Notions.

(** Projections of a world that was built by [with_fs], [with_logs] or
    [with_heap]. *)
Ltac world_simpl :=
  unfold with_fs, with_logs, with_heap; cbn [heap fs logs ext].

(** ** Further notions *)

(** The chunks of one page come one after the other: a page id, once
    left, does not come back. *)
Definition grouped (pids : list string) : Prop :=
  forall i j k p, (i <= j <= k)%nat ->
    pids !! i = Some p -> pids !! k = Some p -> pids !! j = Some p.

(** Position [i] is where a page begins: the chunk before it, if any, has
    another page id. *)
Definition page_start (pids : list string) (i : nat) : Prop :=
  forall i' p q, i = S i' -> pids !! i' = Some q -> pids !! i = Some p -> q <> p.

Definition colon : ascii := ":"%char.

(** [source] lies at the components [ps] below the base directory: both
    are relative to the working directory, or both are absolute. *)
Inductive placed (cwd base source : string) (ps : list string) : Prop :=
  | placed_relative (cs bs : list string) :
      cwd = Posix.abs_of cs ->
      Forall (fun c => Posix.component c = true) cs ->
      Forall (fun c => Posix.component c = true) bs -> bs <> [] ->
      base = String.concat "/" bs ->
      source = String.concat "/" (bs ++ ps) ->
      placed cwd base source ps
  | placed_absolute (bs : list string) :
      Forall (fun c => Posix.component c = true) bs ->
      base = Posix.abs_of bs ->
      source = Posix.abs_of (bs ++ ps) ->
      placed cwd base source ps.



(** An ingestion function that counts its calls in the ingestion state
    and ends as [outcome] says. *)
Definition counting (outcome : list loc -> Res unit)
  : list loc -> M unit (E:=nat) :=
  fun batch w =>
    (outcome batch,
     {| heap := heap w; fs := fs w; logs := logs w; ext := S (ext w) |}).

(** The files after an action on the file at [p] that only adds: every
    other entry is kept, a directory at [p] stays one, and the text of a
    file at [p] is the start of its new text. *)
Definition grown (p : path) (f f' : gmap path node) : Prop :=
  (forall q x, q <> p -> f !! q = Some x -> f' !! q = Some x)
  /\ (f !! p = Some Dir -> f' !! p = Some Dir)
  /\ (forall old, f !! p = Some (File old) ->
        exists more, f' !! p = Some (File (old +:+ more))).

(** An action that leaves the documents and the ingestion state alone and
    lets the files only grow. *)
Definition keeps {E A} (p : path) (m : M A (E:=E)) : Prop :=
  forall w, heap (m w).2 = heap w /\ ext (m w).2 = ext w
            /\ grown p (fs w) (fs (m w).2).

(** The line written for a chunk is one line, and [json.loads] reads it
    back as the chunk's record. *)
Definition reads_back {X : Externals} (h : loc -> Document) (c : loc) : Prop :=
  NoDup (map fst (metadata (h c)))
  /\ has_newline (json_dumps (chunk_record (h c))) = false
  /\ json_loads (strip (json_dumps (chunk_record (h c))
                        +:+ String newline EmptyString))
     = Some (chunk_record (h c)).

(** The list a call returned, and nothing for a call that raised. *)
Definition ok_list {A} (r : Res (list A)) : list A :=
  match r with
  | Ok l => l
  | Raise _ => []
  end.

(** ** Sample worlds

    The inputs of the specification's examples, on a POSIX system with
    working directory [/proj]. *)

(** A tokenizer that counts one token per character. *)
Definition tok_len (s : string) : Res Z := Ok (Z.of_nat (String.length s)).

(** A tokenizer that is out of order. *)
Definition tok_down (s : string) : Res Z :=
  Raise (Exn "RuntimeError" "tokenizer unavailable").

Definition px : Externals := posix_externals "/proj" tok_len.
Definition px_down : Externals := posix_externals "/proj" tok_down.

Definition doc (content source : string) (page : Z) : Document :=
  {| page_content := content;
     metadata := [("source", VStr source); ("page", VInt page)] |}.

Definition world_of {E : Type} (h : loc -> Document) (f : gmap path node)
    (e : E) : World E :=
  {| heap := h; fs := f; logs := []; ext := e |}.

(** Four chunks: two of page 1 and two of page 2 of [data/a.pdf]. *)
Definition pages_heap : loc -> Document :=
  fun l =>
    match l with
    | 0%nat | 1%nat => doc "text" "data/a.pdf" 1
    | _ => doc "text" "data/a.pdf" 2
    end.

Definition pages_world : World unit := world_of pages_heap ∅ tt.

(** Four chunks of 10, 11, 19 and 20 characters, white space around. *)
Definition sized_heap : loc -> Document :=
  fun l =>
    match l with
    | 0%nat => doc "  0123456789 " "data/a.pdf" 1
    | 1%nat => doc " 0123456789a  " "data/a.pdf" 1
    | 2%nat => doc "0123456789abcdefghi " "data/a.pdf" 1
    | _ => doc " 0123456789abcdefghij" "data/a.pdf" 1
    end.

Definition sized_world : World unit := world_of sized_heap ∅ tt.

(** An ingestion function that notes the batch it is given and fails on
    the batch [[2; 3]]. *)
Definition ingest_noting : list loc -> M unit (E:=list (list loc)) :=
  fun batch w =>
    let w' := {| heap := heap w; fs := fs w; logs := logs w;
                 ext := ext w ++ [batch] |} in
    if decide (batch = [2; 3]%nat)
    then (Raise (Exn "RuntimeError" "store unavailable"), w')
    else (Ok tt, w').

Definition batch_world : World (list (list loc)) := world_of pages_heap ∅ [].

(** The sidecar file and what may be in it. *)
Definition sidecar : path := ["faiss"; "chunks.jsonl"].

Definition line_end : string := String newline EmptyString.

Definition stored (content chunk_id : string) : Document :=
  {| page_content := content;
     metadata := [("source", VStr "data/a.pdf"); ("page", VInt 1);
                  ("chunk_id", VStr chunk_id)] |}.

Definition record_line (chunk_id : string) : string :=
  Json.dumps (chunk_record (stored "text" chunk_id)).

Definition sidecar_world (text : string) : World unit :=
  world_of (fun l => match l with
                     | 0%nat => stored "more" "a.pdf:1:1"
                     | _ => stored "most" "a.pdf:1:2"
                     end)
           {[ ["faiss"] := Dir; sidecar := File text ]} tt.


(** One record, and a line that is JSON but no record. *)
Definition text_with_number : string :=
  record_line "a.pdf:1:0" +:+ line_end +:+ "42" +:+ line_end.

(** One record and a line that is no JSON. *)
Definition text_with_garbage : string :=
  record_line "a.pdf:1:0" +:+ line_end +:+ "{not json" +:+ line_end.




(** ** More sample worlds *)

(** Three chunks, the second without a [source]. *)
Definition holed_heap : loc -> Document :=
  fun l =>
    match l with
    | 1%nat => {| page_content := "text"; metadata := [("page", VInt 1)] |}
    | _ => doc "text" "data/a.pdf" 1
    end.

Definition holed_world : World unit := world_of holed_heap ∅ tt.

(** Page 1, page 2, and page 1 again. *)
Definition returning_heap : loc -> Document :=
  fun l =>
    match l with
    | 1%nat => doc "text" "data/a.pdf" 2
    | _ => doc "text" "data/a.pdf" 1
    end.

Definition returning_world : World unit := world_of returning_heap ∅ tt.

(** The same file under another base directory, given as absolute path,
    for a process with another working directory. *)
Definition moved_world : World unit :=
  world_of (fun _ => doc "text" "/srv/docs/a.pdf" 1) ∅ tt.

(** A chunk whose source is an absolute path. *)
Definition absolute_world : World unit :=
  world_of (fun _ => doc "text" "/proj/data/a.pdf" 1) ∅ tt.

(** Ingestion fails on the batch [[2; 3]]. *)
Definition outcome_second_fails (batch : list loc) : Res unit :=
  if decide (batch = [2; 3]%nat)
  then Raise (Exn "RuntimeError" "store unavailable")
  else Ok tt.

Definition counting_world : World nat := world_of pages_heap ∅ 0%nat.

(** A file stands where the directory of the sidecar file should be. *)
Definition blocked_world : World unit :=
  world_of (fun _ => stored "more" "a.pdf:1:1") {[ ["faiss"] := File "x" ]} tt.

(** A base directory with three PDF files, the second of which cannot be
    loaded. *)
Definition sample_glob : path -> M (list path) (E:=unit) :=
  fun base =>
    ret [base ++ ["a.pdf"]; base ++ ["b.pdf"]; base ++ ["c.pdf"]].

Definition sample_outcome (f : path) : Res (list loc) :=
  if decide (f = ["data"; "a.pdf"]) then Ok [0; 1]%nat
  else if decide (f = ["data"; "c.pdf"]) then Ok [2%nat]
  else Raise (Exn "RuntimeError" "cannot open broken document").

Definition sample_load : path -> M (list loc) (E:=unit) :=
  fun f => lift (sample_outcome f).

Definition data_world : World unit :=
  world_of pages_heap {[ ["data"] := Dir ]} tt.

(** What [for item in o] gives for an object that is no list: a Document
    yields its fields as (name, value) pairs; anything else here stands
    for a number, which cannot be iterated. *)
Definition document_fields : list pyobj :=
  [OOther "('id', None)"; OOther "('metadata', {...})";
   OOther "('page_content', '...')"; OOther "('type', 'Document')"].

Definition iter_fields (o : pyobj) : Res (list pyobj) :=
  match o with
  | ODoc _ => Ok document_fields
  | _ => Raise (Exn "TypeError" "'int' object is not iterable")
  end.

(** * Properties *)

(** ** Dictionaries *)

Section DictFacts.
Context {V : Type}.
Implicit Types (d : list (string * V)) (k : string) (v : V).

Lemma dict_get_set_eq d k v : dict_get (dict_set d k v) k = Some v.
Proof.
  induction d as [|[k' v'] d IH]; simpl.
  - now rewrite String.eqb_refl.
  - destruct (String.eqb_spec k' k) as [->|Hne]; simpl.
    + now rewrite String.eqb_refl.
    + destruct (String.eqb_spec k' k); [congruence | exact IH].
Qed.

Lemma dict_get_set_ne d k k' v :
  k' ≠ k -> dict_get (dict_set d k v) k' = dict_get d k'.
Proof.
  intros Hne. induction d as [|[k0 v0] d IH]; simpl.
  - destruct (String.eqb_spec k k'); [congruence | reflexivity].
  - destruct (String.eqb_spec k0 k) as [->|Hk]; simpl.
    + destruct (String.eqb_spec k k'); [congruence | reflexivity].
    + destruct (String.eqb_spec k0 k'); [reflexivity | exact IH].
Qed.

Lemma dict_set_set d k v1 v2 :
  dict_set (dict_set d k v1) k v2 = dict_set d k v2.
Proof.
  induction d as [|[k0 v0] d IH]; simpl.
  - now rewrite String.eqb_refl.
  - destruct (String.eqb_spec k0 k) as [->|Hk]; simpl.
    + now rewrite String.eqb_refl.
    + destruct (String.eqb_spec k0 k); [congruence | now rewrite IH].
Qed.
End DictFacts.

(** ** The world a computation leaves *)

Section MonadFacts.
Context {E : Type}.
Implicit Types (w : World E).

Lemma with_heap_id w : with_heap (heap w) w = w.
Proof. now destruct w. Qed.

Lemma for_fold_app {S A} (body : S -> A -> M S (E:=E)) s l1 l2 w :
  for_fold body s (l1 ++ l2) w =
  match for_fold body s l1 w with
  | (Ok s', w') => for_fold body s' l2 w'
  | (Raise e, w') => (Raise e, w')
  end.
Proof.
  revert s w. induction l1 as [|x l1 IH]; intros s w; simpl.
  - reflexivity.
  - unfold bind. destruct (body s x w) as [[s'|e] w']; [apply IH | reflexivity].
Qed.
End MonadFacts.

(** ** [calc_chunk_ids] *)

Section CalcFacts.
Context {E : Type} {X : Externals}.
Implicit Types (w : World E) (h : loc -> Document) (c l : loc).

Lemma page_id_of_assign base h c v l :
  page_id_of base (assign h c v l) = page_id_of base (h l).
Proof.
  unfold assign. destruct (Nat.eqb_spec l c) as [->|Hne]; [|reflexivity].
  unfold page_id_of; simpl. now rewrite !dict_get_set_ne by discriminate.
Qed.

Lemma assign_all_spec ws h l :
  assign_all ws h l = with_chunk_id (h l) (last_write ws l).
Proof.
  revert h. induction ws as [|[c v] ws IH]; intros h; [reflexivity|].
  change (assign_all ((c, v) :: ws) h l) with (assign_all ws (assign h c v) l).
  rewrite IH. simpl. destruct (last_write ws l) as [v'|]; simpl.
  - unfold assign. destruct (Nat.eqb_spec l c) as [->|Hne]; simpl.
    + now rewrite dict_set_set.
    + reflexivity.
  - unfold assign. destruct (Nat.eqb_spec l c) as [->|Hne]; reflexivity.
Qed.

Lemma page_id_of_with_chunk_id base d o :
  page_id_of base (with_chunk_id d o) = page_id_of base d.
Proof.
  destruct o as [v|]; [|reflexivity].
  unfold page_id_of; simpl. now rewrite !dict_get_set_ne by discriminate.
Qed.

Lemma with_chunk_id_twice d o :
  with_chunk_id (with_chunk_id d o) o = with_chunk_id d o.
Proof. destruct o; simpl; [now rewrite dict_set_set | reflexivity]. Qed.

Lemma assignments_ext base st chunks h h' :
  (forall l, h l = h' l) ->
  assignments base st chunks h = assignments base st chunks h'.
Proof.
  intros Hh. revert st. induction chunks as [|c cs IH]; intros st; simpl.
  - reflexivity.
  - rewrite Hh. destruct (page_id_of base (h' c)); [|reflexivity].
    now rewrite IH.
Qed.

Lemma assignments_page_ids base st chunks h h' :
  (forall l, page_id_of base (h l) = page_id_of base (h' l)) ->
  assignments base st chunks h = assignments base st chunks h'.
Proof.
  intros Hh. revert st. induction chunks as [|c cs IH]; intros st; simpl.
  - reflexivity.
  - rewrite Hh. destruct (page_id_of base (h' c)); [|reflexivity].
    now rewrite IH.
Qed.

(** One turn of the loop: the page id is computed from the document as it
    stands, and the chunk id goes into its metadata. *)
Lemma calc_chunk_ids_step_run base last idx c w :
  calc_chunk_ids_step base (last, idx) c w =
  match page_id_of base (heap w c) with
  | Raise e => (Raise e, w)
  | Ok pid =>
      let idx' := if decide (Some pid = last) then idx + 1 else 0 in
      (Ok (Some pid, idx'),
       with_heap (assign (heap w) c (pid +:+ ":" +:+ str_int idx')) w)
  end.
Proof.
  unfold calc_chunk_ids_step, page_id_of, bind, deref, lift.
  destruct (normpath_of _) as [ns|e]; [|reflexivity].
  destruct (os_path_relpath ns base) as [rel|e]; reflexivity.
Qed.

(** The loop makes the assignments [assignments] lists, computed on any
    heap with the same page ids. *)
Lemma calc_chunk_ids_loop base chunks st w h0 :
  (forall l, page_id_of base (heap w l) = page_id_of base (h0 l)) ->
  for_fold (calc_chunk_ids_step base) st chunks w =
  ((assignments base st chunks h0).2,
   with_heap (assign_all (assignments base st chunks h0).1 (heap w)) w).
Proof.
  revert st w. induction chunks as [|c cs IH]; intros [last idx] w Hpid.
  - simpl. unfold ret. now rewrite with_heap_id.
  - cbn [for_fold assignments]. unfold bind.
    rewrite calc_chunk_ids_step_run, Hpid.
    destruct (page_id_of base (h0 c)) as [pid|e]; cbn [fst snd].
    + rewrite IH.
      * reflexivity.
      * intros l; simpl. now rewrite page_id_of_assign.
    + change (assign_all [] (heap w)) with (heap w). now rewrite with_heap_id.
Qed.

(** The whole function: it returns its argument, and the heap it leaves is
    the one the assignments give. *)
Lemma calc_chunk_ids_run chunks base w :
  let r := calc_chunk_ids chunks base w in
  r.1 = Ok chunks
  /\ heap r.2 = assign_all (assignments base (None, 0) chunks (heap w)).1 (heap w)
  /\ fs r.2 = fs w /\ ext r.2 = ext w.
Proof.
  unfold calc_chunk_ids, try_except, bind; simpl.
  rewrite (calc_chunk_ids_loop base chunks (None, 0) _ (heap w))
    by reflexivity.
  destruct (assignments base (None, 0) chunks (heap w)) as [ws [st|e]];
    simpl; auto.
Qed.

Lemma assignments_prefix base st chunks h :
  map fst (assignments base st chunks h).1 `prefix_of` chunks.
Proof.
  revert st. induction chunks as [|c cs IH]; intros st; simpl.
  - reflexivity.
  - destruct (page_id_of base (h c)) as [pid|e]; simpl.
    + apply prefix_cons, IH.
    + apply prefix_nil.
Qed.

Lemma last_write_None ws l : l ∉ map fst ws -> last_write ws l = None.
Proof.
  induction ws as [|[c v] ws IH]; simpl; intros Hl; [reflexivity|].
  rewrite not_elem_of_cons in Hl. destruct Hl as [Hne Hl].
  rewrite (IH Hl). destruct (Nat.eqb_spec l c); [contradiction | reflexivity].
Qed.

Lemma last_write_app ws1 ws2 l :
  last_write (ws1 ++ ws2) l
  = match last_write ws2 l with
    | Some v => Some v
    | None => last_write ws1 l
    end.
Proof.
  induction ws1 as [|[c v] ws1 IH]; simpl.
  - now destruct (last_write ws2 l).
  - rewrite IH. now destruct (last_write ws2 l).
Qed.

(** The assignment made at position [i] is the one in force right after
    it, and stays in force when no later assignment is to the same
    document. *)
Lemma last_write_at (ws : list (loc * string)) i c v :
  ws !! i = Some (c, v) ->
  last_write (take (S i) ws) c = Some v
  /\ (c ∉ map fst (drop (S i) ws) -> last_write ws c = Some v).
Proof.
  intros Hi.
  assert (Hpre : last_write (take (S i) ws) c = Some v).
  { rewrite (take_S_r ws i (c, v) Hi), last_write_app. simpl.
    now rewrite Nat.eqb_refl. }
  split; [exact Hpre|]. intros Hlater.
  rewrite <- (take_drop (S i) ws) at 1.
  now rewrite last_write_app, (last_write_None _ _ Hlater).
Qed.

Lemma indices_length last idx pids :
  length (indices last idx pids) = length pids.
Proof.
  revert last idx. induction pids as [|p pids IH]; intros; simpl; auto.
Qed.

Lemma indices_step pids : forall last idx i p q a b,
  pids !! i = Some p -> pids !! S i = Some q ->
  indices last idx pids !! i = Some a ->
  indices last idx pids !! S i = Some b ->
  b = if decide (q = p) then a + 1 else 0.
Proof.
  induction pids as [|p0 pids IH]; intros last idx i p q a b Hp Hq Ha Hb;
    [discriminate|].
  destruct i as [|i].
  - destruct pids as [|q0 pids]; [discriminate|]. simpl in *.
    injection Hp as ->. injection Hq as ->. injection Ha as <-.
    injection Hb as <-.
    destruct (decide (q = p)) as [->|Hne].
    + now rewrite decide_True.
    + rewrite decide_False; [reflexivity | congruence].
  - simpl in Ha, Hb. eapply IH; eauto.
Qed.

Lemma assignments_ok base chunks pids h : forall st,
  Forall2 (fun c pid => page_id_of base (h c) = Ok pid) chunks pids ->
  (assignments base st chunks h).1 =
  zip chunks
    (zip_with (fun pid k => pid +:+ ":" +:+ str_int k) pids
       (indices st.1 st.2 pids)).
Proof.
  intros st Hall. revert st.
  induction Hall as [|c pid cs pids Hc Hall IH]; intros st; simpl.
  - reflexivity.
  - rewrite Hc. simpl. now rewrite IH.
Qed.

(** C7. [calc_chunk_ids] returns the list it was given, the very same
    chunks in the same positions; no chunk's text changes; the metadata of
    a chunk is either untouched or differs by one assignment to the key
    ["chunk_id"] (added when absent, overwritten in place when present), so
    every other key keeps its value; documents that are not in the list,
    the files and the ingestion state are untouched.  This holds for every
    input, also when the loop is cut short by an exception. *)
Theorem calc_chunk_ids_frame (chunks : list loc) (base : string) (w : World E) :
  let r := calc_chunk_ids chunks base w in
  r.1 = Ok chunks
  /\ (forall l, page_content (heap r.2 l) = page_content (heap w l))
  /\ (forall l,
        metadata (heap r.2 l) = metadata (heap w l)
        \/ exists v, metadata (heap r.2 l)
                     = dict_set (metadata (heap w l)) "chunk_id" (VStr v))
  /\ (forall l k, k <> "chunk_id" ->
        dict_get (metadata (heap r.2 l)) k = dict_get (metadata (heap w l)) k)
  /\ (forall l, l ∉ chunks -> heap r.2 l = heap w l)
  /\ fs r.2 = fs w /\ ext r.2 = ext w.
Proof.
  intros r. destruct (calc_chunk_ids_run chunks base w) as (Hr & Hh & Hfs & Hext).
  fold r in Hr, Hh, Hfs, Hext.
  set (ws := (assignments base (None, 0) chunks (heap w)).1) in *.
  assert (Hl : forall l, heap r.2 l = with_chunk_id (heap w l) (last_write ws l)).
  { intros l. rewrite Hh. apply assign_all_spec. }
  repeat split; auto.
  - intros l. rewrite Hl. now destruct (last_write ws l).
  - intros l. rewrite Hl. destruct (last_write ws l) as [v|]; simpl; eauto.
  - intros l k Hk. rewrite Hl. destruct (last_write ws l) as [v|]; simpl; auto.
    now apply dict_get_set_ne.
  - intros l Hnot. rewrite Hl, last_write_None; [reflexivity|].
    intros Hin. apply Hnot.
    destruct (assignments_prefix base (None, 0) chunks (heap w)) as [k Hk].
    fold ws in Hk. rewrite Hk. apply elem_of_app. now left.
Qed.

Lemma assignments_take base chunks pids h : forall n st,
  Forall2 (fun c pid => page_id_of base (h c) = Ok pid) chunks pids ->
  (assignments base st (take n chunks) h).1
  = take n (assignments base st chunks h).1.
Proof.
  intros n st Hall. revert n st.
  induction Hall as [|c pid cs pids Hc Hall IH]; intros n st.
  - now destruct n.
  - destruct n as [|n]; [reflexivity|].
    cbn [take assignments]. rewrite Hc. cbn [fst]. now rewrite IH.
Qed.

(** C1. When the page id of every chunk can be computed (its source is a
    [str] and [os.path] accepts it), the id [calc_chunk_ids] assigns to a
    chunk when its turn comes is [page_id + ":" + index], where the index
    is 0 for the first chunk, one more than the previous chunk's index
    when the page id equals the previous chunk's page id, and 0 again when
    it differs; and that id is the one the chunk carries at the end,
    unless the same Document object comes again later in the list. *)
Theorem calc_chunk_ids_indices (chunks : list loc) (base : string)
    (w : World E) (pids : list string) :
  Forall2 (fun c pid => page_id_of base (heap w c) = Ok pid) chunks pids ->
  exists idxs : list Z,
    length idxs = length chunks
    /\ (forall k, idxs !! 0%nat = Some k -> k = 0)
    /\ (forall i p q a b,
          pids !! i = Some p -> pids !! S i = Some q ->
          idxs !! i = Some a -> idxs !! S i = Some b ->
          (q = p -> b = a + 1) /\ (q <> p -> b = 0))
    /\ (forall i c pid k,
          chunks !! i = Some c -> pids !! i = Some pid -> idxs !! i = Some k ->
          chunk_id_of (heap (calc_chunk_ids (take (S i) chunks) base w).2 c)
          = Some (VStr (pid +:+ ":" +:+ str_int k))
          /\ (c ∉ drop (S i) chunks ->
              chunk_id_of (heap (calc_chunk_ids chunks base w).2 c)
              = Some (VStr (pid +:+ ":" +:+ str_int k)))).
Proof.
  intros Hall. exists (indices None 0 pids).
  pose proof (Forall2_length _ _ _ Hall) as Hlen.
  split; [now rewrite indices_length|].
  split.
  { intros k. destruct pids as [|p pids]; simpl; [discriminate|].
    now intros [= <-]. }
  split.
  { intros i p q a b Hp Hq Ha Hb.
    rewrite (indices_step pids _ _ _ _ _ _ _ Hp Hq Ha Hb).
    destruct (decide (q = p)); split; intros; congruence. }
  intros i c pid k Hc Hpid Hk.
  set (ws := (assignments base (None, 0) chunks (heap w)).1).
  assert (Hws : ws = zip chunks
                       (zip_with (fun pid k => pid +:+ ":" +:+ str_int k) pids
                          (indices None 0 pids)))
    by (unfold ws; now rewrite (assignments_ok base chunks pids (heap w) (None, 0) Hall)).
  assert (Hi : ws !! i = Some (c, pid +:+ ":" +:+ str_int k)).
  { rewrite Hws. apply lookup_zip_with_Some. exists c, (pid +:+ ":" +:+ str_int k).
    split; [reflexivity|]. split; [exact Hc|].
    apply lookup_zip_with_Some. exists pid, k. auto. }
  destruct (last_write_at ws i c _ Hi) as [Hpre Hfin].
  assert (Hfst : map fst ws = chunks).
  { rewrite Hws. apply fst_zip.
    rewrite length_zip_with, indices_length. lia. }
  split.
  - destruct (calc_chunk_ids_run (take (S i) chunks) base w) as (_ & -> & _).
    rewrite assign_all_spec, (assignments_take base chunks pids) by exact Hall.
    fold ws. rewrite Hpre. unfold chunk_id_of. simpl. apply dict_get_set_eq.
  - intros Hlater.
    destruct (calc_chunk_ids_run chunks base w) as (_ & -> & _).
    rewrite assign_all_spec. fold ws. rewrite Hfin.
    + unfold chunk_id_of. simpl. apply dict_get_set_eq.
    + change (map fst (drop (S i) ws)) with (fst <$> drop (S i) ws).
      rewrite fmap_drop. change (fst <$> ws) with (map fst ws).
      now rewrite Hfst.
Qed.

Lemma assignments_agree base chunks h1 h2 : forall st,
  (forall c, c ∈ chunks -> page_id_of base (h1 c) = page_id_of base (h2 c)) ->
  assignments base st chunks h1 = assignments base st chunks h2.
Proof.
  induction chunks as [|c cs IH]; intros st Hall; [reflexivity|].
  cbn [assignments]. rewrite (Hall c) by now left.
  destruct (page_id_of base (h2 c)); [|reflexivity].
  rewrite IH; [reflexivity|]. intros c' Hc'. apply Hall. now right.
Qed.

Lemma assignments_all base chunks h : forall st,
  (forall c, c ∈ chunks -> exists pid, page_id_of base (h c) = Ok pid) ->
  map fst (assignments base st chunks h).1 = chunks.
Proof.
  induction chunks as [|c cs IH]; intros st Hall; [reflexivity|].
  cbn [assignments]. destruct (Hall c ltac:(now left)) as [pid ->].
  cbn [fst map]. f_equal. apply IH. intros c' Hc'. apply Hall. now right.
Qed.

Lemma last_write_Some ws l :
  l ∈ map fst ws -> exists v, last_write ws l = Some v.
Proof.
  induction ws as [|[c v] ws IH]; intros Hl; [now apply elem_of_nil in Hl|].
  cbn [last_write]. destruct (last_write ws l) as [v'|] eqn:Hw; [eauto|].
  cbn [map fst] in Hl. apply elem_of_cons in Hl as [->|Hl].
  - rewrite Nat.eqb_refl. eauto.
  - destruct (IH Hl) as [v' Hv']. congruence.
Qed.

(** Chunks with the same page ids get the same chunk ids. *)
Lemma calc_chunk_ids_same_page_ids chunks base (w1 w2 : World E) :
  (forall c, c ∈ chunks ->
     exists pid, page_id_of base (heap w1 c) = Ok pid
                 /\ page_id_of base (heap w2 c) = Ok pid) ->
  forall c, c ∈ chunks ->
    exists id,
      chunk_id_of (heap (calc_chunk_ids chunks base w1).2 c) = Some (VStr id)
      /\ chunk_id_of (heap (calc_chunk_ids chunks base w2).2 c) = Some (VStr id).
Proof.
  intros Hall c Hc.
  destruct (calc_chunk_ids_run chunks base w1) as (_ & -> & _).
  destruct (calc_chunk_ids_run chunks base w2) as (_ & -> & _).
  rewrite !assign_all_spec.
  rewrite (assignments_agree base chunks (heap w1) (heap w2)).
  - destruct (last_write_Some (assignments base (None, 0) chunks (heap w2)).1 c)
      as [v ->].
    + rewrite assignments_all; [exact Hc|].
      intros c' Hc'. destruct (Hall c' Hc') as (pid & _ & Hpid). eauto.
    + exists v. unfold chunk_id_of. cbn [with_chunk_id metadata].
      now rewrite !dict_get_set_eq.
  - intros c' Hc'. destruct (Hall c' Hc') as (pid & -> & ->). reflexivity.
Qed.

End CalcFacts.

(** ** Two runs of [calc_chunk_ids] *)

Section DeterminismFacts.
Context {E : Type}.
Implicit Types (w : World E) (h : loc -> Document).

(** The page id is made with [os.path.normpath] and [os.path.relpath] and
    with no other collaborator. *)
Lemma page_id_of_os_path (X X' : Externals) base (d : Document) :
  (forall s, os_path_normpath (Externals:=X') s
             = os_path_normpath (Externals:=X) s) ->
  (forall s b, os_path_relpath (Externals:=X') s b
               = os_path_relpath (Externals:=X) s b) ->
  page_id_of (X:=X') base d = page_id_of (X:=X) base d.
Proof.
  intros Hn Hr. unfold page_id_of, normpath_of.
  destruct (default VNone (dict_get (metadata d) "source")) as [|b|z|s];
    try reflexivity.
  rewrite Hn. destruct (os_path_normpath s) as [ns|e]; [|reflexivity].
  now rewrite Hr.
Qed.

Lemma assignments_os_path (X X' : Externals) base chunks h :
  (forall s, os_path_normpath (Externals:=X') s
             = os_path_normpath (Externals:=X) s) ->
  (forall s b, os_path_relpath (Externals:=X') s b
               = os_path_relpath (Externals:=X) s b) ->
  forall st,
    assignments (X:=X') base st chunks h = assignments (X:=X) base st chunks h.
Proof.
  intros Hn Hr. induction chunks as [|c cs IH]; intros st; [reflexivity|].
  cbn [assignments]. rewrite (page_id_of_os_path X X' base (h c) Hn Hr).
  destruct (page_id_of (X:=X) base (h c)); [|reflexivity]. now rewrite IH.
Qed.

(** C9, as the code has it.  The ids are made from the chunk sequence, the
    documents, the base directory and what [os.path.normpath] and
    [os.path.relpath] answer, which on a given platform is fixed by the
    working directory of the process.  So, for two runs whose [os.path]
    answers alike (same platform, same working directory), whatever their
    other collaborators are: running [calc_chunk_ids] a second time on the
    same chunks, which now carry the ids of the first run, returns the same
    list and leaves every document, hence every [chunk_id], as the first
    run left it; and a run from any other world holding the same documents
    (other log, other files, other ingestion state) leaves the same
    documents too. *)
Theorem calc_chunk_ids_deterministic (X X' : Externals) (chunks : list loc)
    (base : string) (w : World E) :
  (forall s, os_path_normpath (Externals:=X') s
             = os_path_normpath (Externals:=X) s) ->
  (forall s b, os_path_relpath (Externals:=X') s b
               = os_path_relpath (Externals:=X) s b) ->
  let r1 := calc_chunk_ids (X:=X) chunks base w in
  let r2 := calc_chunk_ids (X:=X') chunks base r1.2 in
  r2.1 = r1.1
  /\ (forall l, heap r2.2 l = heap r1.2 l)
  /\ (forall l, chunk_id_of (heap r2.2 l) = chunk_id_of (heap r1.2 l))
  /\ (forall w' : World E,
        (forall l, heap w' l = heap w l) ->
        forall l, heap (calc_chunk_ids (X:=X') chunks base w').2 l
                  = heap r1.2 l).
Proof.
  intros Hn Hr r1 r2.
  destruct (calc_chunk_ids_run (X:=X) chunks base w) as (Hr1 & Hh1 & _).
  destruct (calc_chunk_ids_run (X:=X') chunks base r1.2) as (Hr2 & Hh2 & _).
  fold r1 in Hr1, Hh1. fold r2 in Hr2, Hh2.
  rewrite (assignments_os_path X X' base chunks _ Hn Hr) in Hh2.
  assert (Hsame : assignments (X:=X) base (None, 0) chunks (heap r1.2)
                  = assignments (X:=X) base (None, 0) chunks (heap w)).
  { apply assignments_page_ids. intros l.
    rewrite Hh1, assign_all_spec. apply page_id_of_with_chunk_id. }
  assert (Heq : forall l, heap r2.2 l = heap r1.2 l).
  { intros l. rewrite Hh2, Hsame, assign_all_spec, Hh1, assign_all_spec.
    apply with_chunk_id_twice. }
  repeat split.
  - congruence.
  - exact Heq.
  - intros l. now rewrite Heq.
  - intros w' Hw' l.
    destruct (calc_chunk_ids_run (X:=X') chunks base w') as (_ & Hh' & _).
    rewrite Hh', (assignments_os_path X X' base chunks _ Hn Hr).
    rewrite Hh1, !assign_all_spec.
    rewrite (assignments_ext (X:=X) base (None, 0) chunks (heap w') (heap w) Hw').
    now rewrite Hw'.
Qed.

End DeterminismFacts.

(** ** [filter_chunks] *)

Section FilterFacts.
Context {E : Type} {X : Externals}.
Implicit Types (w : World E) (c : loc).

(** The loop either keeps the chunks in the window, or stops at the first
    chunk the tokenizer fails on; it changes nothing in the world. *)
Lemma filter_loop lower upper (chunks : list loc) : forall acc w,
  let body := fun (filtered : list loc) chunk =>
    d <- deref chunk ;;
    let content := strip (page_content d) in
    token_len <- lift (num_tokens content) ;;
    if (lower <? token_len) && (token_len <? upper)
    then ret (filtered ++ [chunk]) (E:=E)
    else ret filtered in
  (Forall (fun c => exists n, token_len_of (heap w) c = Ok n) chunks
   /\ for_fold body acc chunks w
      = (Ok (acc ++ List.filter (in_window lower upper (heap w)) chunks), w))
  \/ (exists c e, c ∈ chunks /\ token_len_of (heap w) c = Raise e
      /\ for_fold body acc chunks w = (Raise e, w)).
Proof.
  intros acc w body. revert acc.
  induction chunks as [|c cs IH]; intros acc.
  - left. split; [constructor|]. simpl. unfold ret. now rewrite app_nil_r.
  - assert (Hstep : body acc c w =
              match token_len_of (heap w) c with
              | Ok n => (Ok (if (lower <? n) && (n <? upper)
                             then acc ++ [c] else acc), w)
              | Raise e => (Raise e, w)
              end).
    { unfold body, bind, deref, lift, token_len_of.
      destruct (num_tokens _) as [n|e]; [|reflexivity].
      now destruct ((lower <? n) && (n <? upper)). }
    cbn [for_fold List.filter]. unfold bind. rewrite Hstep.
    assert (Hw : in_window lower upper (heap w) c =
                 match token_len_of (heap w) c with
                 | Ok n => (lower <? n) && (n <? upper)
                 | Raise _ => false
                 end) by reflexivity.
    rewrite Hw. clear Hw Hstep.
    destruct (token_len_of (heap w) c) as [n|e] eqn:Hn.
    + destruct (IH (if (lower <? n) && (n <? upper) then acc ++ [c] else acc))
        as [[Hall Hrun]|(c' & e & Hin & He & Hrun)].
      * left. split.
        -- constructor; [exists n; exact Hn | exact Hall].
        -- rewrite Hrun.
           destruct ((lower <? n) && (n <? upper));
             [now rewrite <- app_assoc | reflexivity].
      * right. exists c', e. repeat split; auto. now right.
    + right. exists c, e. repeat split; auto. now left.
Qed.

(** What [filter_chunks] returns in the two cases, and that it leaves the
    heap, the files and the ingestion state alone. *)
Lemma filter_chunks_cases (chunks : list loc) (lower upper : Z) (w : World E) :
  let r := filter_chunks chunks lower upper w in
  ((Forall (fun c => exists n, token_len_of (heap w) c = Ok n) chunks
    /\ r.1 = Ok (List.filter (in_window lower upper (heap w)) chunks))
   \/ (exists c e, c ∈ chunks /\ token_len_of (heap w) c = Raise e
       /\ r.1 = Ok chunks))
  /\ heap r.2 = heap w /\ fs r.2 = fs w /\ ext r.2 = ext w.
Proof.
  pose proof (filter_loop lower upper chunks []
    (logger INFO "[Stage 01, Part 06.5.1] Applying custom (token-based) filtering on chunks before ingestion..." w).2)
    as Hloop.
  cbv zeta in Hloop. intros r. subst r.
  unfold filter_chunks, try_except, bind, logger in *. cbn [fst snd heap] in *.
  destruct Hloop as [[Hall Hrun]|(c & e & Hin & He & Hrun)]; rewrite Hrun.
  - split; [left|]; auto.
  - split; [right; exists c, e|]; auto.
Qed.

Lemma in_window_iff lower upper (h : loc -> Document) c n :
  token_len_of h c = Ok n ->
  in_window lower upper h c = true <-> lower < n < upper.
Proof.
  intros Hn. unfold in_window. rewrite Hn.
  now rewrite andb_true_iff, !Z.ltb_lt.
Qed.

(** C2. When the tokenizer returns a count for every chunk,
    [filter_chunks] returns exactly the chunks whose count [n], taken on
    the stripped text, satisfies [lower_limit < n < upper_limit], in their
    order; a count equal to a bound is outside. *)
Theorem filter_chunks_window (chunks : list loc) (lower upper : Z)
    (w : World E) :
  Forall (fun c => exists n, token_len_of (heap w) c = Ok n) chunks ->
  (filter_chunks chunks lower upper w).1
  = Ok (List.filter (in_window lower upper (heap w)) chunks)
  /\ (forall c res, (filter_chunks chunks lower upper w).1 = Ok res ->
        (c ∈ res <->
         c ∈ chunks
         /\ exists n, num_tokens (strip (page_content (heap w c))) = Ok n
                      /\ lower < n /\ n < upper)).
Proof.
  intros Hall.
  assert (Hres : (filter_chunks chunks lower upper w).1
                 = Ok (List.filter (in_window lower upper (heap w)) chunks)).
  { destruct (filter_chunks_cases chunks lower upper w)
      as [[[_ Hr]|(c & e & Hin & He & _)] _]; [exact Hr|].
    rewrite Forall_forall in Hall. destruct (Hall c Hin) as [n Hn]. congruence. }
  split; [exact Hres|].
  intros c res Hr. rewrite Hres in Hr. injection Hr as <-.
  rewrite list_elem_of_In, filter_In, <- list_elem_of_In.
  rewrite Forall_forall in Hall. split.
  - intros [Hin Hw]. split; [exact Hin|].
    destruct (Hall c Hin) as [n Hn]. exists n. split; [exact Hn|].
    now apply (in_window_iff lower upper (heap w) c n Hn).
  - intros (Hin & n & Hn & Hlt). split; [exact Hin|].
    now apply (in_window_iff lower upper (heap w) c n Hn).
Qed.

(** C4. When the tokenizer raises on some chunk, [filter_chunks] returns
    the list it was given, whole and in order, whatever the other chunks'
    counts are: the failure does not leave the function, and the result
    is neither empty nor partial. *)
Theorem filter_chunks_fail_open (chunks : list loc) (lower upper : Z)
    (w : World E) (c : loc) (e : exn) :
  c ∈ chunks ->
  token_len_of (heap w) c = Raise e ->
  (filter_chunks chunks lower upper w).1 = Ok chunks.
Proof.
  intros Hin He.
  destruct (filter_chunks_cases chunks lower upper w)
    as [[[Hall _]|(c' & e' & _ & _ & Hr)] _]; [|exact Hr].
  rewrite Forall_forall in Hall. destruct (Hall c Hin) as [n Hn]. congruence.
Qed.

(** C10. Whatever the tokenizer does, the list [filter_chunks] returns is
    a sublist of its argument: the same chunk objects, in their relative
    order, none repeated or added; and no document, file or ingestion
    state is touched. *)
Theorem filter_chunks_sublist (chunks : list loc) (lower upper : Z)
    (w : World E) :
  exists res,
    (filter_chunks chunks lower upper w).1 = Ok res
    /\ sublist res chunks
    /\ heap (filter_chunks chunks lower upper w).2 = heap w
    /\ fs (filter_chunks chunks lower upper w).2 = fs w
    /\ ext (filter_chunks chunks lower upper w).2 = ext w.
Proof.
  destruct (filter_chunks_cases chunks lower upper w)
    as [[[_ Hr]|(c' & e' & _ & _ & Hr)] Hframe].
  - eexists. split; [exact Hr|]. split; [|exact Hframe].
    clear. induction chunks as [|c cs IH]; simpl.
    + constructor.
    + destruct (in_window _ _ _ c);
        [now apply sublist_skip | now apply sublist_cons].
  - exists chunks. split; [exact Hr|]. split; [reflexivity | exact Hframe].
Qed.

End FilterFacts.

(** ** [process_in_batches] *)

Section BatchFacts.
Context {E : Type} {X : Externals}.
Implicit Types (w : World E).

Lemma range_count_nil step : range_count 0 step = 0%nat.
Proof. reflexivity. Qed.

Lemma range_count_drop {A} (l : list A) (n : nat) :
  (0 < n)%nat -> l <> [] ->
  range_count (len l) (Z.of_nat n)
  = S (range_count (len (drop n l)) (Z.of_nat n)).
Proof.
  intros Hn Hl. unfold range_count, len. rewrite length_drop.
  assert (0 < length l)%nat by (destruct l; simpl; [congruence | lia]).
  destruct (Z.ltb_spec 0 (Z.of_nat (length l))); [|lia].
  destruct (Z.ltb_spec 0 (Z.of_nat (length l - n))).
  - replace (Z.of_nat (length l) - 0 - 1)
      with ((Z.of_nat (length l - n) - 0 - 1) + 1 * Z.of_nat n) by lia.
    rewrite Z.div_add by lia.
    assert (0 <= (Z.of_nat (length l - n) - 0 - 1) / Z.of_nat n)
      by (apply Z.div_pos; lia).
    lia.
  - rewrite Z.div_small by lia. reflexivity.
Qed.

Lemma batches_fuel_seq {A} (n : nat) : forall fuel (l : list A),
  (0 < n)%nat -> (length l <= fuel)%nat ->
  batches_fuel fuel n l
  = map (fun j => take n (drop (j * n) l))
        (seq 0 (range_count (len l) (Z.of_nat n))).
Proof.
  induction fuel as [|fuel IH]; intros l Hn Hlen.
  - destruct l; [reflexivity | simpl in Hlen; lia].
  - destruct l as [|x l]; [reflexivity|].
    cbn [batches_fuel].
    rewrite (range_count_drop (x :: l) n Hn) by discriminate.
    rewrite IH by (try rewrite length_drop; simpl in *; lia).
    cbn [seq map]. f_equal.
    rewrite <- seq_shift, map_map. apply map_ext. intros j.
    rewrite drop_drop. f_equal; f_equal; lia.
Qed.

Lemma batches_seq {A} (n : nat) (l : list A) :
  (0 < n)%nat ->
  batches n l
  = map (fun j => take n (drop (j * n) l))
        (seq 0 (range_count (len l) (Z.of_nat n))).
Proof. intros Hn. now apply batches_fuel_seq. Qed.

Lemma concat_batches {A} (n : nat) (l : list A) :
  (0 < n)%nat -> concat (batches n l) = l.
Proof.
  intros Hn. unfold batches.
  assert (Hgen : forall fuel (l : list A),
            (length l <= fuel)%nat -> concat (batches_fuel fuel n l) = l).
  { induction fuel as [|fuel IH]; intros l0 Hlen.
    - destruct l0; [reflexivity | simpl in Hlen; lia].
    - destruct l0 as [|x l0]; [reflexivity|].
      cbn [batches_fuel concat]. rewrite IH.
      + apply take_drop.
      + rewrite length_drop. simpl in *. lia. }
  now apply Hgen.
Qed.

(** The slice the loop takes at its [k]-th index. *)
Lemma py_slice_batch {A} (l : list A) (k n : nat) :
  (0 < n)%nat ->
  py_slice l (0 + Z.of_nat k * Z.of_nat n)
             (0 + Z.of_nat k * Z.of_nat n + Z.of_nat n)
  = take n (drop (k * n) l).
Proof.
  intros Hn. unfold py_slice, len. rewrite <- Nat2Z.inj_mul.
  set (L := length l). set (kn := (k * n)%nat).
  destruct (Z.ltb_spec (0 + Z.of_nat kn) 0); [lia|].
  destruct (Z.ltb_spec (0 + Z.of_nat kn + Z.of_nat n) 0); [lia|].
  destruct (Nat.le_gt_cases kn L) as [Hle|Hgt].
  - rewrite (Z.min_l (0 + Z.of_nat kn)) by lia.
    replace (Z.to_nat (0 + Z.of_nat kn)) with kn by lia.
    destruct (Nat.le_gt_cases (kn + n) L) as [Hle2|Hgt2].
    + rewrite Z.min_l by lia. f_equal. lia.
    + rewrite Z.min_r by lia.
      rewrite !take_ge; try reflexivity; rewrite length_drop; lia.
  - rewrite !Z.min_r by lia. rewrite Z.sub_diag. simpl.
    rewrite (drop_ge l kn) by (fold L; lia). now rewrite take_nil.
Qed.

(** One turn of the loop is one attempt; it never raises. *)
Lemma process_step (ingest_fn : list loc -> M unit (E:=E)) (k : Z)
    (batch : list loc) w :
  try_except
    (ingest_fn batch ;;
     logger INFO ("[Stage 01, Part 08.4] Ingested batch " +:+ str_int k))
    (fun e =>
       logger ERROR ("[Stage 01, Part 08.4] Failed to ingest batch "
                     +:+ str_int k +:+ ": " +:+ exn_msg e) ;;
       logger DEBUG (format_exc e)) w
  = (Ok tt, attempt ingest_fn k batch w).
Proof.
  unfold try_except, bind, attempt, logger, with_logs.
  destruct (ingest_fn batch w) as [[[]|e] w']; simpl.
  - reflexivity.
  - now rewrite <- app_assoc.
Qed.

Lemma process_loop (documents : list loc) (n : nat)
    (ingest_fn : list loc -> M unit (E:=E)) :
  (0 < n)%nat ->
  forall m k w,
  for_fold
    (fun (_ : unit) i =>
       let batch := py_slice documents i (i + Z.of_nat n) in
       try_except
         (ingest_fn batch ;;
          logger INFO ("[Stage 01, Part 08.4] Ingested batch "
                       +:+ str_int (i / Z.of_nat n)))
         (fun e =>
            logger ERROR ("[Stage 01, Part 08.4] Failed to ingest batch "
                          +:+ str_int (i / Z.of_nat n) +:+ ": "
                          +:+ exn_msg e) ;;
            logger DEBUG (format_exc e)))
    tt (map (fun j => 0 + Z.of_nat j * Z.of_nat n) (seq k m)) w
  = (Ok tt,
     attempt_all ingest_fn (Z.of_nat k)
       (map (fun j => take n (drop (j * n) documents)) (seq k m)) w).
Proof.
  intros Hn. induction m as [|m IH]; intros k w; [reflexivity|].
  cbn [seq map for_fold attempt_all]. unfold bind at 1.
  cbv zeta. rewrite process_step, py_slice_batch by exact Hn.
  replace ((0 + Z.of_nat k * Z.of_nat n) / Z.of_nat n) with (Z.of_nat k)
    by (rewrite Z.add_0_l, Z.div_mul; lia).
  rewrite IH. now rewrite Nat2Z.inj_succ.
Qed.

(** C3. For a positive batch size, [process_in_batches] ends normally,
    having attempted the batches of [batches] one after the other: each
    batch is handed to the ingestion function once, a failure is caught and
    logged under the number of its batch, and the next batch is attempted
    from the world the failed call left.  The batches are contiguous
    pieces of the list, in order: the [k]-th one is what follows the first
    [k * batch_size] documents, cut at [batch_size]; it is not empty, and
    only the last one can be shorter than [batch_size]. *)
Theorem process_in_batches_attempts (documents : list loc) (batch_size : Z)
    (ingest_fn : list loc -> M unit (E:=E)) (w : World E) :
  0 < batch_size ->
  let n := Z.to_nat batch_size in
  let bs := batches n documents in
  process_in_batches documents batch_size ingest_fn w
  = (Ok tt,
     attempt_all ingest_fn 0 bs
       (with_logs
          (logs w ++
           [(INFO, "[Stage 01, Part 08.3] Processing "
                   +:+ str_int (len documents)
                   +:+ " documents in batches of " +:+ str_int batch_size
                   +:+ "...")]) w))
  /\ concat bs = documents
  /\ (forall k b, bs !! k = Some b ->
        b = take n (drop (k * n) documents)
        /\ (0 < length b <= n)%nat
        /\ (S k < length bs -> length b = n)%nat).
Proof.
  intros Hpos n bs.
  assert (Hn : (0 < n)%nat) by (unfold n; lia).
  assert (Hbs : batch_size = Z.of_nat n) by (unfold n; lia).
  split; [|split].
  - unfold process_in_batches. unfold bind at 1, logger at 1.
    unfold bind at 1, lift, py_range.
    destruct (Z.eqb_spec batch_size 0); [lia|].
    destruct (Z.ltb_spec 0 batch_size); [|lia].
    unfold bind at 1. rewrite Hbs.
    fold (range_count (len documents) (Z.of_nat n)).
    rewrite (process_loop documents n ingest_fn Hn).
    unfold bs. rewrite (batches_seq n documents Hn). reflexivity.
  - now apply concat_batches.
  - intros k b Hk. unfold bs in *. rewrite (batches_seq n documents Hn) in *.
    rewrite length_map, length_seq.
    rewrite list_lookup_fmap in Hk.
    destruct (seq 0 (range_count (len documents) (Z.of_nat n)) !! k)
      as [j|] eqn:Hj; [|discriminate].
    apply lookup_seq in Hj. destruct Hj as [-> Hlt]. simpl in Hk.
    injection Hk as <-.
    assert (Hcount : forall k', (k' < range_count (len documents) (Z.of_nat n))%nat ->
              (k' * n < length documents)%nat).
    { intros k' Hk'. unfold range_count, len in Hk'.
      destruct (Z.ltb_spec 0 (Z.of_nat (length documents))); [|simpl in Hk'; lia].
      pose proof (Z.mul_div_le (Z.of_nat (length documents) - 0 - 1)
                    (Z.of_nat n) ltac:(lia)).
      assert (0 <= (Z.of_nat (length documents) - 0 - 1) / Z.of_nat n)
        by (apply Z.div_pos; lia).
      nia. }
    split; [reflexivity|]. rewrite length_take, length_drop.
    pose proof (Hcount k Hlt). split; [lia|].
    intros HS. pose proof (Hcount (S k) HS). simpl in *. lia.
Qed.

End BatchFacts.

(** ** The sidecar file: [load_existing_chunks_metadata] and
       [save_processed_chunks_metadata] *)

Section LedgerFacts.
Context {E : Type} {X : Externals}.
Implicit Types (w : World E) (p : path).

(** One turn of the loop over the lines. *)
Lemma add_line_id_run ids line w :
  add_line_id ids line w = (line_step ids line, w).
Proof.
  unfold add_line_id, try_except_class, line_step, loads_res, record_key,
    bind, lift, ret.
  destruct (json_loads (strip line)) as [j|]; [|reflexivity].
  destruct j as [| | | | |m]; try reflexivity. cbn [json_get].
  destruct (default (JObj []) (dict_get (rev m) "metadata"))
    as [| | | | |md]; try reflexivity. cbn [json_get].
  destruct (default JNull (dict_get (rev md) "chunk_id")) as [|[]|z|s|l|o];
    cbn [truthy hash_key]; try reflexivity.
  - now destruct (negb (z =? 0)).
  - now destruct (negb (String.eqb s EmptyString)).
  - now destruct l.
  - now destruct o.
Qed.

Lemma ledger_loop lines : forall ids w,
  for_fold add_line_id ids lines w = (ledger_fold ids lines, w).
Proof.
  induction lines as [|line lines IH]; intros ids w; [reflexivity|].
  cbn [for_fold ledger_fold]. unfold bind. rewrite add_line_id_run.
  destruct (line_step ids line); [apply IH | reflexivity].
Qed.

Lemma line_step_ok ids line :
  line_ok line = true ->
  line_step ids line = Ok (ids ∪ list_to_set (option_list (line_key line))).
Proof.
  unfold line_ok, line_step, line_key.
  destruct (json_loads (strip line)) as [j|]; simpl.
  - destruct (record_key j) as [[k|]|e]; simpl; intros Hok;
      try discriminate; f_equal; set_solver.
  - intros _. f_equal. set_solver.
Qed.

Lemma ledger_fold_ok lines : forall ids,
  Forall (fun line => line_ok line = true) lines ->
  ledger_fold ids lines = Ok (ids ∪ list_to_set (omap line_key lines)).
Proof.
  induction lines as [|line lines IH]; intros ids Hall.
  - simpl. f_equal. set_solver.
  - inversion Hall as [|? ? Hline Hrest]; subst.
    cbn [ledger_fold]. rewrite (line_step_ok ids line Hline), (IH _ Hrest).
    f_equal. cbn [omap list_omap].
    destruct (line_key line) as [k|] eqn:Hk; simpl; set_solver.
Qed.

Lemma scan_run missing pre post err p w :
  exists l,
    scan missing pre post err p w
    = (Ok (scan_result (fs w) p), with_logs (logs w ++ l) w).
Proof.
  unfold scan, try_except, bind at 1, path_exists, scan_result.
  destruct p as [|c p']; cbn [exists_in negb].
  - unfold bind, read_lines, logger, ret, with_logs. cbn [heap fs logs ext].
    rewrite <- app_assoc. eauto.
  - destruct (fs w !! (c :: p')) as [[text|]|] eqn:Hp.
    + rewrite bool_decide_eq_true_2 by eauto. cbn [negb].
      unfold bind at 1, read_lines. rewrite Hp.
      unfold bind at 1. rewrite ledger_loop.
      unfold bind, logger, ret, with_logs.
      destruct (ledger_fold ∅ (text_lines text)); cbn [heap fs logs ext];
        rewrite <- ?app_assoc; eauto.
    + rewrite bool_decide_eq_true_2 by eauto. cbn [negb].
      unfold bind at 1, read_lines. rewrite Hp.
      unfold bind, logger, ret, with_logs. cbn [heap fs logs ext].
      rewrite <- app_assoc. eauto.
    + rewrite bool_decide_eq_false_2 by (intros [x Hx]; discriminate).
      unfold bind, logger, ret, with_logs. cbn [negb heap fs logs ext]. eauto.
Qed.

Lemma load_existing_chunks_metadata_scan p :
  load_existing_chunks_metadata (E:=E) p
  = scan (WARNING, "[Stage 01, Part 06.2] No existing chunks file found at "
                   +:+ path_str p)
         "[Stage 01, Part 06.2] Loaded " " existing chunk IDs"
         "[Stage 01, Part 06.2] Error loading existing chunks metadata: " p.
Proof. reflexivity. Qed.

Lemma elem_of_ledger_of text k :
  k ∈ ledger_of text <->
  exists line j, line ∈ text_lines text /\ json_loads (strip line) = Some j
                 /\ record_key j = Ok (Some k).
Proof.
  unfold ledger_of. rewrite elem_of_list_to_set, list_elem_of_omap. split.
  - intros (line & Hin & Hk). unfold line_key in Hk.
    destruct (json_loads (strip line)) as [j|] eqn:Hj; [|discriminate].
    destruct (record_key j) as [[k'|]|e] eqn:Hr; try discriminate.
    injection Hk as ->. eauto.
  - intros (line & j & Hin & Hj & Hr). exists line. split; [exact Hin|].
    unfold line_key. now rewrite Hj, Hr.
Qed.

(** C5, as the code has it. A missing file gives the empty set and one
    warning.  For a file whose every line either fails to parse as JSON or
    parses to a record (an object whose ["metadata"], when present, is an
    object, and whose ["chunk_id"] there is falsy or hashable), the
    result is the set of the truthy chunk ids of the lines that parse;
    the lines that do not parse are passed over without a log record, and
    the only record logged is the final count. *)
Theorem load_existing_chunks_metadata_ledger (p : path) (w : World E) :
  (exists_in (fs w) p = false ->
   load_existing_chunks_metadata p w
   = (Ok ∅,
      with_logs
        (logs w ++
         [(WARNING, "[Stage 01, Part 06.2] No existing chunks file found at "
                    +:+ path_str p)]) w))
  /\ (forall text,
        p <> [] ->
        fs w !! p = Some (File text) ->
        Forall (fun line => line_ok line = true) (text_lines text) ->
        load_existing_chunks_metadata p w
        = (Ok (ledger_of text),
           with_logs
             (logs w ++
              [(INFO, "[Stage 01, Part 06.2] Loaded "
                      +:+ str_int (Z.of_nat (size (ledger_of text)))
                      +:+ " existing chunk IDs")]) w)
        /\ forall k,
             k ∈ ledger_of text <->
             exists line j,
               line ∈ text_lines text /\ json_loads (strip line) = Some j
               /\ record_key j = Ok (Some k)).
Proof.
  split.
  - intros Hex. unfold load_existing_chunks_metadata, try_except, bind at 1,
      path_exists. rewrite Hex. reflexivity.
  - intros text Hp Hfile Hall. split; [|apply elem_of_ledger_of].
    unfold load_existing_chunks_metadata, try_except, bind at 1, path_exists.
    destruct p as [|c p']; [congruence|]. cbn [exists_in].
    rewrite bool_decide_eq_true_2 by eauto. cbn [negb].
    unfold bind at 1, read_lines. rewrite Hfile.
    unfold bind at 1. rewrite ledger_loop, (ledger_fold_ok _ _ Hall).
    rewrite (left_id_L ∅ (∪)). reflexivity.
Qed.

(** *** Strings and lines *)

Lemma str_app_assoc (a b c : string) : (a +:+ b) +:+ c = a +:+ (b +:+ c).
Proof.
  induction a as [|x a IH]; [reflexivity|].
  change (String x ((a +:+ b) +:+ c) = String x (a +:+ (b +:+ c))).
  now f_equal.
Qed.

Lemma str_app_nil_r (a : string) : a +:+ EmptyString = a.
Proof.
  induction a as [|x a IH]; [reflexivity|].
  change (String x (a +:+ EmptyString) = String x a). now f_equal.
Qed.

Lemma text_lines_nil (s : string) : text_lines s = [] -> s = EmptyString.
Proof.
  destruct s as [|c s]; [reflexivity|]. simpl.
  destruct (Ascii.eqb c newline); [discriminate|].
  now destruct (text_lines s).
Qed.

(** Text appended to a text that ends with a line end starts a line of
    its own. *)
Lemma text_lines_app (s1 s2 : string) :
  ends_with_newline s1 = true ->
  text_lines (s1 +:+ s2) = text_lines s1 ++ text_lines s2.
Proof.
  induction s1 as [|c s1 IH]; [reflexivity|]. intros Hend.
  change (String c s1 +:+ s2) with (String c (s1 +:+ s2)).
  cbn [text_lines].
  destruct (Ascii.eqb c newline) eqn:Hc.
  - destruct s1 as [|c' s1']; [reflexivity|].
    rewrite IH by exact Hend. reflexivity.
  - destruct s1 as [|c' s1']; [simpl in Hend; congruence|].
    rewrite IH by exact Hend.
    destruct (text_lines (String c' s1')) as [|l ls] eqn:Hl.
    + apply text_lines_nil in Hl. discriminate.
    + reflexivity.
Qed.

(** A text with no line end in it, then a line end, is one line. *)
Lemma text_lines_line (s rest : string) :
  has_newline s = false ->
  text_lines ((s +:+ String newline EmptyString) +:+ rest)
  = (s +:+ String newline EmptyString) :: text_lines rest.
Proof.
  induction s as [|c s IH]; intros Hnl.
  - reflexivity.
  - simpl in Hnl. apply orb_false_elim in Hnl. destruct Hnl as [Hc Hs].
    change ((String c s +:+ String newline EmptyString) +:+ rest)
      with (String c ((s +:+ String newline EmptyString) +:+ rest)).
    cbn [text_lines]. rewrite Hc, (IH Hs). reflexivity.
Qed.

Lemma text_lines_appended (h : loc -> Document) (chunks : list loc) :
  Forall (fun c => has_newline (json_dumps (chunk_record (h c))) = false)
         chunks ->
  text_lines (appended_text h chunks)
  = map (fun c => json_dumps (chunk_record (h c)) +:+ String newline EmptyString)
        chunks.
Proof.
  induction 1 as [|c cs Hc Hall IH]; [reflexivity|].
  cbn [appended_text fold_right map].
  rewrite (text_lines_line _ _ Hc). f_equal. exact IH.
Qed.

(** *** Directories *)

Lemma mkdir_from_lookup_long todo : forall seen (f f' : gmap path node) q,
  mkdir_from seen todo f = Ok f' ->
  (length seen + length todo < length q)%nat ->
  f' !! q = f !! q.
Proof.
  induction todo as [|c todo IH]; intros seen f f' q Hmk Hlen; simpl in Hmk.
  - now injection Hmk as <-.
  - simpl in Hlen.
    destruct (f !! (seen ++ [c])) as [[t|]|] eqn:Hq; [discriminate| |].
    + apply (IH _ _ _ q) in Hmk; [exact Hmk|]. rewrite length_app. simpl. lia.
    + apply (IH _ _ _ q) in Hmk; [|rewrite length_app; simpl; lia].
      rewrite Hmk. apply lookup_insert_ne. intros Heq.
      rewrite <- Heq, length_app in Hlen. simpl in Hlen. lia.
Qed.

Lemma mkdir_from_keeps todo : forall seen (f f' : gmap path node) q x,
  mkdir_from seen todo f = Ok f' ->
  f !! q = Some x -> f' !! q = Some x.
Proof.
  induction todo as [|c todo IH]; intros seen f f' q x Hmk Hq; simpl in Hmk.
  - now injection Hmk as <-.
  - destruct (f !! (seen ++ [c])) as [[t|]|] eqn:Hc; [discriminate| |].
    + eapply IH; eauto.
    + eapply IH; [exact Hmk|]. rewrite lookup_insert_ne; [exact Hq|].
      intros <-. congruence.
Qed.

Lemma mkdir_from_dir todo : forall seen (f f' : gmap path node),
  mkdir_from seen todo f = Ok f' ->
  todo <> [] ->
  f' !! (seen ++ todo) = Some Dir.
Proof.
  induction todo as [|c todo IH]; intros seen f f' Hmk Hne; [congruence|].
  simpl in Hmk.
  destruct todo as [|c' todo'].
  - destruct (f !! (seen ++ [c])) as [[t|]|] eqn:Hc; [discriminate| |];
      simpl in Hmk; injection Hmk as <-; [exact Hc | apply lookup_insert_eq].
  - replace (seen ++ c :: c' :: todo') with ((seen ++ [c]) ++ c' :: todo')
      by now rewrite <- app_assoc.
    destruct (f !! (seen ++ [c])) as [[t|]|] eqn:Hc; [discriminate| |];
      (eapply IH; [exact Hmk | discriminate]).
Qed.

Lemma parent_length (p : path) :
  p <> [] -> (length (parent p) < length p)%nat.
Proof.
  intros Hp. unfold parent. rewrite removelast_firstn_len, length_take.
  destruct p; [congruence | simpl; lia].
Qed.

(** *** The first half of [save_processed_chunks_metadata] *)

Lemma existing_data_loop lines : forall acc w,
  exists data,
    for_fold
      (fun (existing_data : list json) line =>
         try_except_class "JSONDecodeError"
           (j <- lift (loads_res (strip line)) ;;
            ret (existing_data ++ [j]))
           (ret existing_data))
      acc lines w
    = (Ok data, w).
Proof.
  induction lines as [|line lines IH]; intros acc w.
  - exists acc. reflexivity.
  - cbn [for_fold]. unfold bind at 1, try_except_class, bind, lift, loads_res.
    destruct (json_loads (strip line)) as [j|]; simpl; apply IH.
Qed.

Lemma with_fs_id w : with_fs (fs w) w = w.
Proof. now destruct w. Qed.

Lemma write_loop p (chunks : list loc) : forall t w,
  fs w !! p = Some (File t) ->
  for_fold
    (fun (_ : unit) chunk =>
       d <- deref chunk ;;
       let chunk_data := chunk_record d in
       write_end p (json_dumps chunk_data +:+ String newline EmptyString))
    tt chunks w
  = (Ok tt,
     with_fs (<[p := File (t +:+ appended_text (heap w) chunks)]> (fs w)) w).
Proof.
  induction chunks as [|c cs IH]; intros t w Hp.
  - simpl. unfold ret. rewrite str_app_nil_r, insert_id by exact Hp.
    now rewrite with_fs_id.
  - cbn [for_fold]. unfold bind at 1. unfold bind at 1, deref. cbv zeta.
    unfold write_end. rewrite Hp.
    rewrite (IH (t +:+ (json_dumps (chunk_record (heap w c))
                        +:+ String newline EmptyString)))
      by apply lookup_insert_eq.
    unfold with_fs. cbn [heap fs logs ext appended_text fold_right].
    now rewrite insert_insert_eq, str_app_assoc.
Qed.

(** The second half is a scan of the file the first half left; the first
    half never raises. *)
Lemma save_processed_chunks_metadata_scan chunks p w :
  exists w1,
    save_processed_chunks_metadata chunks p w
    = scan (INFO, "[Stage 01, Part 10.2.1] No existing chunks file found at "
                  +:+ path_str p)
           "[Stage 01, Part 10.2.2] Loaded " " existing chunk IDs"
           "[Stage 01, Part 10.2] Error loading existing chunks metadata: "
           p w1.
Proof.
  unfold save_processed_chunks_metadata. unfold bind at 1, try_except at 1.
  match goal with |- context [match ?b w with _ => _ end] =>
    destruct (b w) as [[[]|e] w']
  end.
  - exists w'. reflexivity.
  - unfold bind, logger. eexists. reflexivity.
Qed.

(** The first half when nothing is in its way: the directories of the
    path can be made, and the path is a file or is free. *)
Lemma save_processed_chunks_metadata_run chunks p w old f1 :
  p <> [] ->
  mkdir_from [] (parent p) (fs w) = Ok f1 ->
  fs w !! p = Some (File old) \/ (fs w !! p = None /\ old = EmptyString) ->
  exists l,
    save_processed_chunks_metadata chunks p w
    = scan (INFO, "[Stage 01, Part 10.2.1] No existing chunks file found at "
                  +:+ path_str p)
           "[Stage 01, Part 10.2.2] Loaded " " existing chunk IDs"
           "[Stage 01, Part 10.2] Error loading existing chunks metadata: "
           p
           (with_logs (logs w ++ l)
              (with_fs (<[p := File (old +:+ appended_text (heap w) chunks)]> f1)
                 w)).
Proof.
  intros Hp Hmk Hold.
  assert (Hsame : f1 !! p = fs w !! p).
  { apply (mkdir_from_lookup_long _ _ _ _ _ Hmk). simpl.
    now apply parent_length. }
  unfold save_processed_chunks_metadata. unfold bind at 1, try_except at 1.
  unfold bind at 1, logger at 1.
  unfold bind at 1, mkdir_parents. cbn [fs]. rewrite Hmk.
  unfold bind at 1, path_exists. world_simpl.
  destruct p as [|c p']; [congruence|]. cbn [exists_in].
  destruct Hold as [Hfile|[Hnone ->]].
  - rewrite bool_decide_eq_true_2 by (rewrite Hsame, Hfile; eauto).
    unfold bind at 1. unfold bind at 1, read_lines. world_simpl.
    rewrite Hsame, Hfile.
    match goal with |- context [for_fold ?b [] (text_lines old) ?w0] =>
      destruct (existing_data_loop (text_lines old) [] w0) as [data Hd]
    end.
    rewrite Hd.
    unfold bind at 1, open_append. world_simpl. rewrite Hsame, Hfile.
    unfold bind at 1. rewrite (write_loop _ chunks old)
      by (cbn [fs]; now rewrite Hsame, Hfile).
    unfold logger. world_simpl.
    rewrite <- app_assoc. eexists. reflexivity.
  - rewrite bool_decide_eq_false_2
      by (rewrite Hsame, Hnone; intros [x Hx]; discriminate).
    unfold bind at 1, ret at 1.
    unfold bind at 1, open_append. world_simpl.
    rewrite Hsame, Hnone.
    pose proof (mkdir_from_dir _ [] _ _ Hmk) as Hd.
    assert (Hmatch : parent (c :: p') = [] \/
                     f1 !! parent (c :: p') = Some Dir).
    { destruct (parent (c :: p')); [now left | right; now apply Hd]. }
    clear Hd.
    destruct Hmatch as [Hroot|Hdir];
      [rewrite Hroot | rewrite Hdir; destruct (parent (c :: p'))].
    all: unfold bind at 1; rewrite (write_loop _ chunks EmptyString)
      by (cbn [fs]; apply lookup_insert_eq).
    all: unfold logger; world_simpl.
    all: rewrite insert_insert_eq, <- app_assoc; eexists; reflexivity.
Qed.

(** *** A record read back *)

Lemma dict_get_app {V} (d1 d2 : list (string * V)) k :
  dict_get (d1 ++ d2) k
  = match dict_get d1 k with Some v => Some v | None => dict_get d2 k end.
Proof.
  induction d1 as [|[k' v'] d1 IH]; simpl; [reflexivity|].
  now destruct (String.eqb k' k).
Qed.

Lemma dict_get_not_in {V} (d : list (string * V)) k :
  k ∉ map fst d -> dict_get d k = None.
Proof.
  induction d as [|[k' v'] d IH]; simpl; intros Hk; [reflexivity|].
  rewrite not_elem_of_cons in Hk. destruct Hk as [Hne Hk].
  destruct (String.eqb_spec k' k); [congruence | auto].
Qed.

(** In a dictionary, where no key comes twice, the last binding of a key
    is its first. *)
Lemma dict_get_rev {V} (d : list (string * V)) k :
  NoDup (map fst d) -> dict_get (rev d) k = dict_get d k.
Proof.
  induction d as [|[k' v'] d IH]; simpl; intros Hnd; [reflexivity|].
  apply NoDup_cons in Hnd. destruct Hnd as [Hk' Hnd].
  rewrite dict_get_app, (IH Hnd). simpl.
  destruct (String.eqb_spec k' k) as [->|Hne].
  - now rewrite (dict_get_not_in d k Hk').
  - now destruct (dict_get d k).
Qed.

Lemma dict_get_to_json (d : list (string * PyVal)) k :
  dict_get (map (fun kv => (kv.1, to_json kv.2)) d) k
  = to_json <$> dict_get d k.
Proof.
  induction d as [|[k' v'] d IH]; simpl; [reflexivity|].
  now destruct (String.eqb k' k).
Qed.

(** The record written for a chunk carries the chunk's own id. *)
Lemma record_key_chunk_record (d : Document) :
  NoDup (map fst (metadata d)) ->
  record_key (chunk_record d) = Ok (chunk_key d).
Proof.
  intros Hnd. unfold record_key, chunk_record, chunk_key, chunk_id_of.
  cbn [json_get rev app dict_get String.eqb Ascii.eqb Bool.eqb default id].
  rewrite dict_get_rev.
  - rewrite dict_get_to_json.
    destruct (dict_get (metadata d) "chunk_id") as [[|b|z|s]|]; simpl;
      try reflexivity.
    + now destruct b.
    + now destruct (negb (z =? 0)).
    + now destruct (negb (String.eqb s EmptyString)).
  - rewrite map_map. simpl. exact Hnd.
Qed.


End LedgerFacts.

(** ** POSIX paths *)

Section PosixFacts.
Import Posix.

Lemma str_concat_cons (x y : string) (r : list string) :
  String.concat "/" (x :: y :: r) = x +:+ "/" +:+ String.concat "/" (y :: r).
Proof. reflexivity. Qed.

Lemma segment_inv s :
  segment s = true ->
  has_char slash s = false
  /\ exists c r, s = String c r /\ Ascii.eqb c slash = false.
Proof.
  unfold segment, nonempty. intros H. apply andb_prop in H as [Hne Hs].
  apply negb_true_iff in Hs. split; [exact Hs|].
  destruct s as [|c r]; [discriminate|]. exists c, r. split; [reflexivity|].
  simpl in Hs. now apply orb_false_elim in Hs.
Qed.

Lemma component_segment s : component s = true -> segment s = true.
Proof.
  unfold component. intros H. apply andb_prop in H as [H _].
  now apply andb_prop in H as [H _].
Qed.


Lemma has_char_app c a b :
  has_char c (a +:+ b) = has_char c a || has_char c b.
Proof.
  induction a as [|x a IH]; [reflexivity|].
  change (String x a +:+ b) with (String x (a +:+ b)).
  cbn [has_char]. now rewrite IH, orb_assoc.
Qed.

Lemma split_app_slash a b :
  has_char slash a = false ->
  split (a +:+ "/" +:+ b) = a :: split b.
Proof.
  induction a as [|c a IH]; intros Ha; [reflexivity|].
  simpl in Ha. apply orb_false_elim in Ha as [Hc Ha].
  change (String c a +:+ "/" +:+ b) with (String c (a +:+ "/" +:+ b)).
  cbn [split]. now rewrite Hc, (IH Ha).
Qed.

Lemma split_one a : has_char slash a = false -> split a = [a].
Proof.
  induction a as [|c a IH]; intros Ha; [reflexivity|].
  simpl in Ha. apply orb_false_elim in Ha as [Hc Ha].
  cbn [split]. now rewrite Hc, (IH Ha).
Qed.

Lemma split_concat comps :
  Forall (fun c => segment c = true) comps -> comps <> [] ->
  split (String.concat "/" comps) = comps.
Proof.
  induction 1 as [|x comps Hx Hall IH]; intros Hne; [congruence|].
  destruct (segment_inv x Hx) as [Hs _].
  destruct comps as [|y r]; [now apply split_one|].
  rewrite str_concat_cons, (split_app_slash _ _ Hs), IH by discriminate.
  reflexivity.
Qed.

(** A path made of segments starts with the first character of the first
    one, which is no separator. *)
Lemma concat_head comps :
  Forall (fun c => segment c = true) comps -> comps <> [] ->
  exists c r, String.concat "/" comps = String c r
              /\ Ascii.eqb c slash = false.
Proof.
  intros Hall Hne. destruct Hall as [|x comps Hx Hall]; [congruence|].
  destruct (segment_inv x Hx) as (_ & c & r & -> & Hc).
  destruct comps as [|y r']; [eauto|].
  rewrite str_concat_cons. exists c, (r +:+ "/" +:+ String.concat "/" (y :: r')).
  split; [reflexivity | exact Hc].
Qed.

Lemma startswith_slash_cons c r :
  startswith "/" (String c r) = Ascii.eqb slash c.
Proof.
  unfold startswith, slash. cbn [String.prefix].
  destruct (ascii_dec "/" c) as [<-|Hne]; [now destruct r|].
  symmetry. now apply Ascii.eqb_neq.
Qed.

Lemma startswith_slash_concat comps :
  Forall (fun c => segment c = true) comps -> comps <> [] ->
  startswith "/" (String.concat "/" comps) = false.
Proof.
  intros Hall Hne. destruct (concat_head comps Hall Hne) as (c & r & -> & Hc).
  rewrite startswith_slash_cons, Ascii.eqb_sym. exact Hc.
Qed.

Lemma concat_app_ne (a b : list string) :
  a <> [] -> b <> [] ->
  String.concat "/" (a ++ b)
  = String.concat "/" a +:+ "/" +:+ String.concat "/" b.
Proof.
  intros Ha Hb. induction a as [|x a IH]; [congruence|].
  destruct a as [|y a].
  - destruct b as [|z b]; [congruence | reflexivity].
  - change ((x :: y :: a) ++ b) with (x :: y :: (a ++ b)).
    rewrite !str_concat_cons.
    change (String.concat "/" (y :: a ++ b))
      with (String.concat "/" ((y :: a) ++ b)).
    rewrite IH by discriminate. now rewrite !str_app_assoc.
Qed.

Lemma endswith_slash_app a b :
  b <> EmptyString -> endswith_slash (a +:+ b) = endswith_slash b.
Proof.
  intros Hb. induction a as [|c a IH]; [reflexivity|].
  change (String c a +:+ b) with (String c (a +:+ b)).
  cbn [endswith_slash]. destruct (a +:+ b) eqn:Hab.
  - destruct a; [now apply Hb in Hab | discriminate].
  - exact IH.
Qed.

Lemma endswith_slash_segment s :
  has_char slash s = false -> endswith_slash s = false.
Proof.
  induction s as [|c s IH]; intros Hs; [reflexivity|].
  simpl in Hs. apply orb_false_elim in Hs as [Hc Hs].
  cbn [endswith_slash]. destruct s; [exact Hc | now apply IH].
Qed.

Lemma endswith_slash_concat comps :
  Forall (fun c => segment c = true) comps -> comps <> [] ->
  endswith_slash (String.concat "/" comps) = false.
Proof.
  induction 1 as [|x comps Hx Hall IH]; intros Hne; [congruence|].
  destruct (segment_inv x Hx) as [Hs _].
  destruct comps as [|y r]; [now apply endswith_slash_segment|].
  rewrite str_concat_cons.
  destruct (concat_head (y :: r) Hall ltac:(discriminate)) as (c & t & Hc & _).
  rewrite endswith_slash_app by discriminate.
  rewrite Hc in *. change ("/" +:+ String c t) with (String slash (String c t)).
  cbn [endswith_slash]. apply IH. discriminate.
Qed.

(** Joining a relative path to an absolute one. *)
Lemma join_abs cs ps :
  Forall (fun c => segment c = true) cs ->
  Forall (fun c => segment c = true) ps -> ps <> [] ->
  join (abs_of cs) (String.concat "/" ps) = abs_of (cs ++ ps).
Proof.
  intros Hcs Hps Hne. unfold join.
  rewrite (startswith_slash_concat ps Hps Hne).
  destruct cs as [|x cs]; [reflexivity|].
  assert (He1 : String.eqb (abs_of (x :: cs)) EmptyString = false)
    by reflexivity.
  assert (He2 : endswith_slash (abs_of (x :: cs)) = false).
  { unfold abs_of.
    destruct (concat_head (x :: cs) Hcs ltac:(discriminate)) as (c & t & Hc & _).
    rewrite endswith_slash_app by (rewrite Hc; discriminate).
    now apply endswith_slash_concat. }
  rewrite He1, He2. cbn [orb]. unfold abs_of.
  rewrite concat_app_ne by (discriminate || exact Hne).
  now rewrite !str_app_assoc.
Qed.

Lemma normpath_comps_filter n comps : forall acc,
  Forall (fun c => component c = true \/ c = ".") comps ->
  normpath_comps n acc comps = acc ++ List.filter not_dot comps.
Proof.
  induction comps as [|c comps IH]; intros acc Hall.
  - simpl. now rewrite app_nil_r.
  - inversion Hall as [|? ? Hc Hrest]; subst. cbn [normpath_comps List.filter].
    destruct Hc as [Hc| ->].
    + unfold component, segment, nonempty in Hc.
      apply andb_prop in Hc as [Hc Hdd]. apply andb_prop in Hc as [Hc Hd].
      apply andb_prop in Hc as [Hne _].
      apply negb_true_iff in Hne, Hd, Hdd. unfold not_dot at 1.
      rewrite Hne, Hd, Hdd. cbn [orb negb].
      rewrite (IH _ Hrest). now rewrite <- app_assoc.
    + cbn. apply IH, Hrest.
Qed.

Lemma filter_not_dot comps :
  Forall (fun c => component c = true) comps ->
  List.filter not_dot comps = comps.
Proof.
  induction 1 as [|c comps Hc Hall IH]; [reflexivity|].
  cbn [List.filter]. unfold component in Hc.
  apply andb_prop in Hc as [Hc _]. apply andb_prop in Hc as [_ Hd].
  unfold not_dot at 1. now rewrite Hd, IH.
Qed.

Lemma segment_or_dot comps :
  Forall (fun c => component c = true \/ c = ".") comps ->
  Forall (fun c => segment c = true) comps.
Proof.
  intros Hall. eapply Forall_impl; [exact Hall|].
  intros c [Hc| ->]; [now apply component_segment | reflexivity].
Qed.

(** [normpath] of an absolute path of components and dots. *)
Lemma normpath_abs comps :
  Forall (fun c => component c = true \/ c = ".") comps ->
  normpath (abs_of comps) = abs_of (List.filter not_dot comps).
Proof.
  intros Hall. pose proof (segment_or_dot comps Hall) as Hseg.
  unfold normpath, abs_of.
  change ("/" +:+ String.concat "/" comps)
    with (String slash (String.concat "/" comps)).
  change (String.eqb (String slash _) EmptyString) with false. cbv iota.
  rewrite startswith_slash_cons, Ascii.eqb_refl.
  assert (H2 : startswith "//" (String slash (String.concat "/" comps)) = false).
  { destruct comps as [|x comps]; [reflexivity|].
    destruct (concat_head (x :: comps) Hseg ltac:(discriminate))
      as (c & t & -> & Hc).
    unfold startswith. cbn [String.prefix].
    destruct (ascii_dec "/" "/") as [_|Hne]; [|congruence].
    destruct (ascii_dec "/" c) as [<-|Hne]; [discriminate Hc | reflexivity]. }
  rewrite H2. cbn [andb split]. rewrite Ascii.eqb_refl.
  assert (Hcomps : normpath_comps 1 [] (EmptyString :: split (String.concat "/" comps))
                   = List.filter not_dot comps).
  { destruct comps as [|x comps]; [reflexivity|].
    rewrite (split_concat _ Hseg) by discriminate.
    change (normpath_comps 1 [] (EmptyString :: x :: comps))
      with (normpath_comps 1 [] (x :: comps)).
    now rewrite (normpath_comps_filter 1 _ [] Hall). }
  rewrite Hcomps. reflexivity.
Qed.

(** [normpath] of a relative path of components. *)
Lemma normpath_rel comps :
  Forall (fun c => component c = true) comps -> comps <> [] ->
  normpath (String.concat "/" comps) = String.concat "/" comps.
Proof.
  intros Hall Hne.
  assert (Hseg : Forall (fun c => segment c = true) comps)
    by (eapply Forall_impl; [exact Hall | apply component_segment]).
  assert (Hor : Forall (fun c => component c = true \/ c = ".") comps)
    by (eapply Forall_impl; [exact Hall | now left]).
  unfold normpath.
  rewrite (startswith_slash_concat comps Hseg Hne).
  rewrite (split_concat comps Hseg Hne).
  rewrite (normpath_comps_filter 0 comps [] Hor), (filter_not_dot comps Hall).
  cbn [app].
  destruct (concat_head comps Hseg Hne) as (c & t & -> & _). reflexivity.
Qed.

Lemma path_list_abs comps :
  Forall (fun c => segment c = true) comps ->
  List.filter nonempty (split (abs_of comps)) = comps.
Proof.
  intros Hseg. unfold abs_of.
  change ("/" +:+ String.concat "/" comps)
    with (String slash (String.concat "/" comps)).
  cbn [split]. rewrite Ascii.eqb_refl. cbn [List.filter nonempty String.eqb negb].
  destruct comps as [|x comps]; [reflexivity|].
  rewrite (split_concat _ Hseg) by discriminate.
  clear -Hseg. induction Hseg as [|c l Hc Hall IH]; [reflexivity|].
  cbn [List.filter]. unfold segment in Hc. apply andb_prop in Hc as [-> _].
  now rewrite IH.
Qed.

Lemma common_len_app (cs ps : list string) :
  common_len cs (cs ++ ps) = length cs.
Proof.
  induction cs as [|c cs IH]; [now destruct ps|].
  cbn [common_len app length]. now rewrite String.eqb_refl, IH.
Qed.

Lemma fold_join rest : forall acc,
  acc <> EmptyString -> endswith_slash acc = false ->
  Forall (fun c => segment c = true) rest ->
  fold_left join rest acc
  = match rest with
    | [] => acc
    | _ => acc +:+ "/" +:+ String.concat "/" rest
    end.
Proof.
  induction rest as [|b rest IH]; intros acc Hacc Hend Hall; [reflexivity|].
  inversion Hall as [|? ? Hb Hrest]; subst.
  destruct (segment_inv b Hb) as (Hs & c & t & Hbeq & Hc).
  cbn [fold_left].
  assert (Hjoin : join acc b = acc +:+ "/" +:+ b).
  { unfold join. rewrite Hbeq, startswith_slash_cons, Ascii.eqb_sym, Hc.
    rewrite Hend. destruct acc; [congruence | reflexivity]. }
  rewrite Hjoin, IH.
  - destruct rest as [|b' rest']; [reflexivity|].
    rewrite str_concat_cons. now rewrite !str_app_assoc.
  - destruct acc; [congruence | discriminate].
  - rewrite !endswith_slash_app by (rewrite Hbeq; discriminate).
    now apply endswith_slash_segment.
  - exact Hrest.
Qed.

(** The path of components [ps], relative to the working directory
    itself, is that path. *)
Lemma relpath_cwd cs ps :
  Forall (fun c => component c = true) cs ->
  Forall (fun c => component c = true) ps -> ps <> [] ->
  relpath (abs_of cs) (String.concat "/" ps) "."
  = Ok (String.concat "/" ps).
Proof.
  intros Hcs Hps Hne.
  assert (Hcs' : Forall (fun c => segment c = true) cs)
    by (eapply Forall_impl; [exact Hcs | apply component_segment]).
  assert (Hps' : Forall (fun c => segment c = true) ps)
    by (eapply Forall_impl; [exact Hps | apply component_segment]).
  unfold relpath.
  destruct (concat_head ps Hps' Hne) as (c & t & Hhead & _).
  rewrite Hhead at 1. change (String.eqb (String c t) EmptyString) with false.
  cbv iota.
  assert (Hstart : abspath (abs_of cs) "." = abs_of cs).
  { unfold abspath. change (isabs ".") with false. cbv iota.
    change "."%string with (String.concat "/" ["."]).
    rewrite join_abs by (auto; repeat constructor || discriminate).
    rewrite normpath_abs.
    - rewrite List.filter_app. cbn. rewrite app_nil_r.
      now rewrite (filter_not_dot cs Hcs).
    - apply Forall_app. split; [|repeat constructor; now right].
      eapply Forall_impl; [exact Hcs | now left]. }
  assert (Hpath : abspath (abs_of cs) (String.concat "/" ps) = abs_of (cs ++ ps)).
  { unfold abspath, isabs. rewrite (startswith_slash_concat ps Hps' Hne).
    rewrite join_abs by auto. rewrite normpath_abs.
    - rewrite filter_not_dot; [reflexivity|]. apply Forall_app. now split.
    - apply Forall_app. split;
        [eapply Forall_impl; [exact Hcs | now left]
        |eapply Forall_impl; [exact Hps | now left]]. }
  rewrite Hstart, Hpath, !path_list_abs by (try apply Forall_app; auto).
  rewrite common_len_app, Nat.sub_diag, drop_app_length. cbn [repeat app].
  destruct ps as [|a rest]; [congruence|].
  inversion Hps' as [|? ? Ha Hrest]; subst.
  destruct (segment_inv a Ha) as (Hs & c' & t' & Haeq & _).
  rewrite fold_join;
    [ destruct rest; reflexivity
    | rewrite Haeq; discriminate
    | now apply endswith_slash_segment
    | exact Hrest ].
Qed.

End PosixFacts.

(** ** The two spellings of a path *)

Section SpellingFacts.
Context {E : Type}.
Import Posix.


Lemma replace_backslash_id s :
  has_char backslash s = false -> replace_backslash s = s.
Proof.
  unfold replace_backslash. induction s as [|c s IH]; intros Hs; [reflexivity|].
  simpl in Hs. apply orb_false_elim in Hs as [Hc Hs].
  cbn [str_map]. now rewrite Hc, (IH Hs).
Qed.



End SpellingFacts.

(** ** The examples of the specification *)

(** The page sequence (a.pdf,1), (a.pdf,1), (a.pdf,2), (a.pdf,2). *)
Example calc_chunk_ids_pages :
  map (fun c => chunk_id_of
                  (heap (calc_chunk_ids (X:=px) [0; 1; 2; 3]%nat "data"
                           pages_world).2 c))
      [0; 1; 2; 3]%nat
  = [Some (VStr "a.pdf:1:0"); Some (VStr "a.pdf:1:1");
     Some (VStr "a.pdf:2:0"); Some (VStr "a.pdf:2:1")].
Proof. vm_compute. reflexivity. Qed.

Lemma calc_chunk_ids_indices_witness :
  Forall2 (fun c pid => page_id_of (X:=px) "data" (heap pages_world c) = Ok pid)
          [0; 1; 2; 3]%nat ["a.pdf:1"; "a.pdf:1"; "a.pdf:2"; "a.pdf:2"]
  /\ chunk_id_of (heap (calc_chunk_ids (X:=px) [0; 1; 2; 3]%nat "data"
                          pages_world).2 3%nat)
     = Some (VStr "a.pdf:2:1").
Proof.
  assert (Hall : Forall2 (fun c pid => page_id_of (X:=px) "data"
                                         (heap pages_world c) = Ok pid)
                   [0; 1; 2; 3]%nat
                   ["a.pdf:1"; "a.pdf:1"; "a.pdf:2"; "a.pdf:2"])
    by (repeat constructor).
  split; [exact Hall|].
  destruct (calc_chunk_ids_indices (X:=px) [0; 1; 2; 3]%nat "data" pages_world
              ["a.pdf:1"; "a.pdf:1"; "a.pdf:2"; "a.pdf:2"] Hall)
    as (idxs & Hlen & Hfirst & Hstep & Hid).
  destruct idxs as [|a [|b [|c [|d [|]]]]]; try discriminate Hlen.
  pose proof (Hfirst a eq_refl) as Ha.
  destruct (Hstep 0%nat "a.pdf:1" "a.pdf:1" a b eq_refl eq_refl eq_refl eq_refl)
    as [Hb _].
  destruct (Hstep 1%nat "a.pdf:1" "a.pdf:2" b c eq_refl eq_refl eq_refl eq_refl)
    as [_ Hc].
  destruct (Hstep 2%nat "a.pdf:2" "a.pdf:2" c d eq_refl eq_refl eq_refl eq_refl)
    as [Hd _].
  destruct (Hid 3%nat 3%nat "a.pdf:2" d eq_refl eq_refl eq_refl) as [_ Hfin].
  rewrite Hfin by (simpl; apply not_elem_of_nil).
  rewrite (Hd eq_refl), (Hc ltac:(discriminate)). reflexivity.
Defined.

(** Two processes in [/proj], one with a tokenizer that works and one
    without: the second run changes nothing. *)
Lemma calc_chunk_ids_deterministic_witness :
  let r1 := calc_chunk_ids (X:=px) [0; 1; 2; 3]%nat "data" pages_world in
  let r2 := calc_chunk_ids (X:=px_down) [0; 1; 2; 3]%nat "data" r1.2 in
  (forall s b, os_path_relpath (Externals:=px_down) s b
               = os_path_relpath (Externals:=px) s b)
  /\ r2.1 = r1.1
  /\ (forall l, chunk_id_of (heap r2.2 l) = chunk_id_of (heap r1.2 l)).
Proof.
  intros r1 r2.
  assert (Hn : forall s, os_path_normpath (Externals:=px_down) s
                         = os_path_normpath (Externals:=px) s)
    by reflexivity.
  assert (Hr : forall s b, os_path_relpath (Externals:=px_down) s b
                           = os_path_relpath (Externals:=px) s b)
    by reflexivity.
  split; [exact Hr|].
  destruct (calc_chunk_ids_deterministic px px_down [0; 1; 2; 3]%nat "data"
              pages_world Hn Hr) as (H1 & _ & H3 & _).
  split; [exact H1 | exact H3].
Defined.

(** The same chunk, an absolute source, and the same relative base
    directory, in a process whose working directory is [/proj] and in one
    whose working directory is [/home/x]: the ids differ. *)
Lemma calc_chunk_ids_deterministic_counterexample :
  let id cwd :=
    chunk_id_of
      (heap (calc_chunk_ids (X:=posix_externals cwd tok_len) [0%nat] "data"
               absolute_world).2 0%nat) in
  dict_get (metadata (heap absolute_world 0%nat)) "source"
  = Some (VStr "/proj/data/a.pdf")
  /\ id "/proj" = Some (VStr "a.pdf:1:0")
  /\ id "/home/x" = Some (VStr "../../../proj/data/a.pdf:1:0")
  /\ id "/proj" <> id "/home/x".
Proof. vm_compute. repeat split; try reflexivity. discriminate. Qed.

(** Bounds 10 and 20: counts 10 and 20 are out, 11 and 19 are in. *)
Lemma filter_chunks_window_witness :
  Forall (fun c => exists n, token_len_of (X:=px) (heap sized_world) c = Ok n)
         [0; 1; 2; 3]%nat
  /\ (filter_chunks (X:=px) [0; 1; 2; 3]%nat 10 20 sized_world).1
     = Ok [1; 2]%nat.
Proof.
  assert (Hall : Forall (fun c => exists n,
                           token_len_of (X:=px) (heap sized_world) c = Ok n)
                        [0; 1; 2; 3]%nat).
  { repeat constructor; eexists; vm_compute; reflexivity. }
  split; [exact Hall|].
  destruct (filter_chunks_window (X:=px) [0; 1; 2; 3]%nat 10 20 sized_world Hall)
    as [-> _].
  vm_compute. reflexivity.
Defined.

(** The tokenizer fails on every chunk: the list comes back whole. *)
Lemma filter_chunks_fail_open_witness :
  (filter_chunks (X:=px_down) [0; 1; 2; 3]%nat 10 20 sized_world).1
  = Ok [0; 1; 2; 3]%nat.
Proof.
  apply (filter_chunks_fail_open (X:=px_down) [0; 1; 2; 3]%nat 10 20
           sized_world 0%nat (Exn "RuntimeError" "tokenizer unavailable")).
  - apply (bool_decide_unpack _). vm_compute. exact I.
  - vm_compute. reflexivity.
Defined.

(** Five documents in batches of two, the second batch failing: three
    batches are attempted, in order, and the failure is logged as that of
    batch 1. *)
Example process_in_batches_five :
  let r := process_in_batches (X:=px) [0; 1; 2; 3; 4]%nat 2 ingest_noting
             batch_world in
  r.1 = Ok tt
  /\ ext r.2 = [[0; 1]; [2; 3]; [4]]%nat
  /\ map fst (logs r.2) = [INFO; INFO; ERROR; DEBUG; INFO]
  /\ map snd (logs r.2) !! 1%nat = Some "[Stage 01, Part 08.4] Ingested batch 0"
  /\ map snd (logs r.2) !! 2%nat
     = Some "[Stage 01, Part 08.4] Failed to ingest batch 1: store unavailable"
  /\ map snd (logs r.2) !! 4%nat = Some "[Stage 01, Part 08.4] Ingested batch 2".
Proof. vm_compute. repeat split; reflexivity. Qed.

Lemma process_in_batches_attempts_witness :
  0 < 2
  /\ batches 2 [0; 1; 2; 3; 4]%nat = [[0; 1]; [2; 3]; [4]]%nat
  /\ (process_in_batches (X:=px) [0; 1; 2; 3; 4]%nat 2 ingest_noting
        batch_world).1 = Ok tt.
Proof.
  split; [lia|]. split; [reflexivity|].
  destruct (process_in_batches_attempts (X:=px) [0; 1; 2; 3; 4]%nat 2
              ingest_noting batch_world ltac:(lia)) as [-> _].
  reflexivity.
Defined.

(** A line that is JSON but no object makes the whole load come back
    empty: the record on the line before it parses, and its chunk id is
    not in the set returned. *)
Lemma load_existing_chunks_metadata_counterexample :
  exists line j ids,
    line ∈ text_lines text_with_number
    /\ json_loads (Externals:=px) (strip line) = Some j
    /\ record_key j = Ok (Some (KStr "a.pdf:1:0"))
    /\ (load_existing_chunks_metadata (X:=px) sidecar
          (sidecar_world text_with_number)).1 = Ok ids
    /\ KStr "a.pdf:1:0" ∉ ids.
Proof.
  exists (record_line "a.pdf:1:0" +:+ line_end),
         (chunk_record (stored "text" "a.pdf:1:0")), ∅.
  split; [apply (bool_decide_unpack _); vm_compute; exact I|].
  split; [vm_compute; reflexivity|].
  split; [vm_compute; reflexivity|].
  split; [vm_compute; reflexivity|].
  apply not_elem_of_empty.
Qed.

(** A line that is no JSON is passed over. *)
Lemma load_existing_chunks_metadata_ledger_witness :
  Forall (fun line => line_ok (X:=px) line = true)
         (text_lines text_with_garbage)
  /\ (load_existing_chunks_metadata (X:=px) sidecar
        (sidecar_world text_with_garbage)).1
     = Ok {[ KStr "a.pdf:1:0" ]}
  /\ logs (load_existing_chunks_metadata (X:=px) sidecar
             (sidecar_world text_with_garbage)).2
     = [(INFO, "[Stage 01, Part 06.2] Loaded 1 existing chunk IDs")].
Proof.
  assert (Hall : Forall (fun line => line_ok (X:=px) line = true)
                        (text_lines text_with_garbage))
    by (apply (bool_decide_unpack _); vm_compute; exact I).
  split; [exact Hall|].
  destruct (load_existing_chunks_metadata_ledger (X:=px) sidecar
              (sidecar_world text_with_garbage)) as [_ Hfile].
  destruct (Hfile text_with_garbage ltac:(discriminate) eq_refl Hall)
    as [-> _].
  split; vm_compute; reflexivity.
Defined.




(** * Further properties *)

(** ** [calc_chunk_ids]: failures and repeated ids *)

Section CalcMore.
Context {E : Type} {X : Externals}.
Implicit Types (w : World E) (h : loc -> Document) (c l : loc).

(** *** Decimal numerals *)

Lemma to_int_normal (z : Z) :
  Z.to_int z <> Decimal.Pos Decimal.Nil /\ Z.to_int z <> Decimal.Neg Decimal.Nil.
Proof.
  assert (Hn : Decimal.norm (Z.to_int z) = Z.to_int z)
    by (rewrite <- DecimalZ.to_of; now rewrite DecimalZ.of_to).
  split; intros Heq; rewrite Heq in Hn; discriminate Hn.
Qed.

Lemma str_int_inj (a b : Z) : str_int a = str_int b -> a = b.
Proof.
  unfold str_int. intros Heq. apply DecimalZ.to_int_inj.
  destruct (to_int_normal a) as [Ha1 Ha2], (to_int_normal b) as [Hb1 Hb2].
  pose proof (NilZero.isi _ Ha1 Ha2) as Ha.
  pose proof (NilZero.isi _ Hb1 Hb2) as Hb.
  rewrite Heq in Ha. congruence.
Qed.

Lemma uint_no_colon (d : Decimal.uint) :
  Posix.has_char colon (NilEmpty.string_of_uint d) = false.
Proof. induction d; simpl; auto. Qed.

Lemma str_int_no_colon (z : Z) : Posix.has_char colon (str_int z) = false.
Proof.
  unfold str_int, NilZero.string_of_int, NilZero.string_of_uint.
  destruct (Z.to_int z) as [d|d]; destruct d; try reflexivity;
    cbn [Posix.has_char]; try apply (uint_no_colon (_ d));
    simpl; apply uint_no_colon.
Qed.

(** Where the last colon of a string is, is where it was put. *)
Lemma colon_split (p q s t : string) :
  Posix.has_char colon s = false -> Posix.has_char colon t = false ->
  p +:+ ":" +:+ s = q +:+ ":" +:+ t -> p = q /\ s = t.
Proof.
  intros Hs Ht. revert q.
  change (":" +:+ s) with (String colon s).
  change (":" +:+ t) with (String colon t).
  induction p as [|x p IH]; intros q Heq.
  - destruct q as [|y q].
    + change (String colon s = String colon t) in Heq. now injection Heq as ->.
    + change (String colon s = String y (q +:+ String colon t)) in Heq.
      injection Heq as _ Heq. rewrite Heq, has_char_app in Hs. cbn in Hs.
      now rewrite orb_true_r in Hs.
  - destruct q as [|y q].
    + change (String x (p +:+ String colon s) = String colon t) in Heq.
      injection Heq as _ Heq. rewrite <- Heq, has_char_app in Ht. cbn in Ht.
      now rewrite orb_true_r in Ht.
    + change (String x (p +:+ String colon s) = String y (q +:+ String colon t))
        in Heq.
      injection Heq as -> Heq. destruct (IH q Heq) as [-> ->]. auto.
Qed.


(** *** The run, with what it logs *)

Lemma calc_chunk_ids_outcome chunks base w :
  let a := assignments base (None, 0) chunks (heap w) in
  calc_chunk_ids chunks base w
  = (Ok chunks,
     with_logs
       (logs w ++
        (INFO, "[Stage 01, Part 06.1.1] Calculating chunk IDs...") ::
        match a.2 with
        | Ok _ =>
            [(INFO, "[Stage 01, Part 06.1.2] Chunk IDs calculated successfully.")]
        | Raise e =>
            [(ERROR, "[Stage 01, Part 06.1] Error calculating chunk IDs: "
                     +:+ exn_msg e);
             (DEBUG, format_exc e)]
        end)
       (with_heap (assign_all a.1 (heap w)) w)).
Proof.
  intros a. unfold calc_chunk_ids, try_except, bind; simpl.
  rewrite (calc_chunk_ids_loop base chunks (None, 0) _ (heap w))
    by reflexivity.
  fold a. destruct a as [ws [st|e]]; unfold logger, ret, with_logs, with_heap;
    cbn [fst snd heap fs logs ext]; now rewrite <- !app_assoc.
Qed.

Lemma assignments_stop base pre c post h e : forall st,
  Forall (fun c' => exists pid, page_id_of base (h c') = Ok pid) pre ->
  page_id_of base (h c) = Raise e ->
  assignments base st (pre ++ c :: post) h
  = ((assignments base st pre h).1, Raise e).
Proof.
  intros st Hpre Hc. revert st.
  induction Hpre as [|c' pre [pid Hpid] Hpre IH]; intros st.
  - cbn [app assignments]. now rewrite Hc.
  - cbn [app assignments]. rewrite Hpid. cbn [fst snd]. now rewrite IH.
Qed.

(** X1. Best effort, not all or nothing: when the page id of a chunk cannot be
    computed (its [source] is missing or no [str], or [os.path] refuses it),
    the chunks before it have their ids as if the list had ended there, the
    chunk itself and the ones after it are left as they were, the list is
    returned all the same, and the failure is logged. *)
Theorem calc_chunk_ids_stops_at_failure (pre post : list loc) (c : loc)
    (base : string) (w : World E) (e : exn) :
  Forall (fun c' => exists pid, page_id_of base (heap w c') = Ok pid) pre ->
  page_id_of base (heap w c) = Raise e ->
  let r := calc_chunk_ids (pre ++ c :: post) base w in
  r.1 = Ok (pre ++ c :: post)
  /\ heap r.2 = heap (calc_chunk_ids pre base w).2
  /\ (forall l, l ∉ pre -> heap r.2 l = heap w l)
  /\ logs r.2
     = logs w ++
       [(INFO, "[Stage 01, Part 06.1.1] Calculating chunk IDs...");
        (ERROR, "[Stage 01, Part 06.1] Error calculating chunk IDs: "
                +:+ exn_msg e);
        (DEBUG, format_exc e)].
Proof.
  intros Hpre Hc r. subst r.
  rewrite calc_chunk_ids_outcome, (calc_chunk_ids_outcome pre).
  cbv zeta. rewrite (assignments_stop base pre c post (heap w) e _ Hpre Hc).
  cbn [fst snd]. world_simpl. repeat split.
  intros l Hl. rewrite assign_all_spec, last_write_None; [reflexivity|].
  intros Hin. apply Hl.
  destruct (assignments_prefix base (None, 0) pre (heap w)) as [k Hk].
  rewrite Hk. apply elem_of_app. now left.
Qed.

(** *** Ids that do not repeat *)

Lemma calc_chunk_ids_id_at chunks base w pids i c pid k :
  Forall2 (fun c pid => page_id_of base (heap w c) = Ok pid) chunks pids ->
  chunks !! i = Some c -> pids !! i = Some pid ->
  indices None 0 pids !! i = Some k ->
  c ∉ drop (S i) chunks ->
  chunk_id_of (heap (calc_chunk_ids chunks base w).2 c)
  = Some (VStr (pid +:+ ":" +:+ str_int k)).
Proof.
  intros Hall Hc Hpid Hk Hlater.
  pose proof (Forall2_length _ _ _ Hall) as Hlen.
  set (ws := (assignments base (None, 0) chunks (heap w)).1).
  assert (Hws : ws = zip chunks
                       (zip_with (fun pid k => pid +:+ ":" +:+ str_int k) pids
                          (indices None 0 pids)))
    by (unfold ws;
        now rewrite (assignments_ok base chunks pids (heap w) (None, 0) Hall)).
  assert (Hi : ws !! i = Some (c, pid +:+ ":" +:+ str_int k)).
  { rewrite Hws. apply lookup_zip_with_Some.
    exists c, (pid +:+ ":" +:+ str_int k).
    split; [reflexivity|]. split; [exact Hc|].
    apply lookup_zip_with_Some. exists pid, k. auto. }
  destruct (last_write_at ws i c _ Hi) as [_ Hfin].
  destruct (calc_chunk_ids_run chunks base w) as (_ & -> & _).
  rewrite assign_all_spec. fold ws. rewrite Hfin.
  - unfold chunk_id_of. simpl. apply dict_get_set_eq.
  - change (map fst (drop (S i) ws)) with (fst <$> drop (S i) ws).
    rewrite fmap_drop. change (fst <$> ws) with (map fst ws).
    rewrite Hws, fst_zip; [exact Hlater|].
    rewrite length_zip_with, indices_length. lia.
Qed.

(** Along a run of one page id the index goes up by one at each chunk. *)
Lemma indices_run pids last idx p : forall n i a,
  (forall m, (i <= m <= i + n)%nat -> pids !! m = Some p) ->
  indices last idx pids !! i = Some a ->
  indices last idx pids !! (i + n)%nat = Some (a + Z.of_nat n).
Proof.
  induction n as [|n IH]; intros i a Hrun Ha.
  - rewrite Nat.add_0_r, Z.add_0_r. exact Ha.
  - assert (Hb : exists b, indices last idx pids !! (i + n)%nat = Some b).
    { rewrite (IH i a); eauto. intros m Hm. apply Hrun. lia. }
    destruct Hb as [b Hb].
    assert (Hb' : b = a + Z.of_nat n).
    { rewrite (IH i a) in Hb; [congruence| |exact Ha].
      intros m Hm. apply Hrun. lia. }
    assert (Hc : exists b', indices last idx pids !! S (i + n) = Some b').
    { apply lookup_lt_is_Some. rewrite indices_length.
      apply (lookup_lt_Some pids _ p), Hrun. lia. }
    destruct Hc as [b' Hc].
    pose proof (indices_step pids last idx (i + n) p p b b' 
                  (Hrun (i + n)%nat ltac:(lia)) (Hrun (S (i + n)) ltac:(lia))
                  Hb Hc) as Hstep.
    rewrite decide_True in Hstep by reflexivity.
    replace (i + S n)%nat with (S (i + n)) by lia. rewrite Hc. f_equal. lia.
Qed.

(** X2. When the chunks of one page come one after the other ([grouped]: a
    page, once left, does not come back) and no Document object is in the list
    twice, no two chunks of the list end with the same chunk id. *)
Theorem calc_chunk_ids_unique (chunks : list loc) (base : string)
    (w : World E) (pids : list string) :
  Forall2 (fun c pid => page_id_of base (heap w c) = Ok pid) chunks pids ->
  NoDup chunks ->
  grouped pids ->
  forall i j ci cj,
    i <> j -> chunks !! i = Some ci -> chunks !! j = Some cj ->
    chunk_id_of (heap (calc_chunk_ids chunks base w).2 ci)
    <> chunk_id_of (heap (calc_chunk_ids chunks base w).2 cj).
Proof.
  intros Hall Hnd Hgr.
  assert (Hlt : forall i j ci cj, (i < j)%nat ->
            chunks !! i = Some ci -> chunks !! j = Some cj ->
            chunk_id_of (heap (calc_chunk_ids chunks base w).2 ci)
            <> chunk_id_of (heap (calc_chunk_ids chunks base w).2 cj)).
  { intros i j ci cj Hij Hci Hcj.
    pose proof (Forall2_length _ _ _ Hall) as Hlen.
    assert (Hlater : forall n c, chunks !! n = Some c -> c ∉ drop (S n) chunks).
    { intros n c Hn Hin. apply list_elem_of_lookup in Hin as [m Hm].
      rewrite lookup_drop in Hm.
      pose proof (NoDup_lookup _ _ _ _ Hnd Hn Hm). lia. }
    destruct (lookup_lt_is_Some_2 pids i) as [p Hp];
      [rewrite <- Hlen; eapply lookup_lt_Some; eauto|].
    destruct (lookup_lt_is_Some_2 pids j) as [q Hq];
      [rewrite <- Hlen; eapply lookup_lt_Some; eauto|].
    destruct (lookup_lt_is_Some_2 (indices None 0 pids) i) as [a Ha];
      [rewrite indices_length; eapply lookup_lt_Some; eauto|].
    destruct (lookup_lt_is_Some_2 (indices None 0 pids) j) as [b Hb];
      [rewrite indices_length; eapply lookup_lt_Some; eauto|].
    rewrite (calc_chunk_ids_id_at chunks base w pids i ci p a),
      (calc_chunk_ids_id_at chunks base w pids j cj q b); auto.
    intros Heq. injection Heq as Heq.
    apply colon_split in Heq; try apply str_int_no_colon.
    destruct Heq as [-> Hab]. apply str_int_inj in Hab. subst b.
    pose proof (indices_run pids None 0 q (j - i) i a) as Hrun.
    replace (i + (j - i))%nat with j in Hrun by lia.
    rewrite Hrun in Hb; [injection Hb; lia| |exact Ha].
    intros m Hm. apply (Hgr i m j q); auto; lia. }
  intros i j ci cj Hij Hci Hcj.
  destruct (Nat.lt_total i j) as [H|[H|H]].
  - exact (Hlt i j ci cj H Hci Hcj).
  - contradiction.
  - intros Heq. exact (Hlt j i cj ci H Hcj Hci (eq_sym Heq)).
Qed.


Lemma indices_start pids i p :
  pids !! i = Some p -> page_start pids i ->
  indices None 0 pids !! i = Some 0.
Proof.
  intros Hp Hstart. destruct i as [|i'].
  - destruct pids as [|p0 pids]; [discriminate|]. reflexivity.
  - destruct (lookup_lt_is_Some_2 pids i') as [q Hq];
      [apply lookup_lt_Some in Hp; lia|].
    destruct (lookup_lt_is_Some_2 (indices None 0 pids) i') as [a Ha];
      [rewrite indices_length; apply lookup_lt_Some in Hq; lia|].
    destruct (lookup_lt_is_Some_2 (indices None 0 pids) (S i')) as [b Hb];
      [rewrite indices_length; now apply lookup_lt_Some in Hp|].
    rewrite Hb. f_equal.
    rewrite (indices_step pids None 0 i' q p a b Hq Hp Ha Hb).
    apply decide_False. intros Heq. now apply (Hstart i' p q eq_refl Hq Hp).
Qed.

(** X3. The index starts again at 0 each time a page begins: when a page comes
    back after chunks of another page, its first chunk gets the id the first
    chunk of its earlier run has. *)
Theorem calc_chunk_ids_repeats (chunks : list loc) (base : string)
    (w : World E) (pids : list string) (i j : nat) (ci cj : loc) (p : string) :
  Forall2 (fun c pid => page_id_of base (heap w c) = Ok pid) chunks pids ->
  NoDup chunks ->
  chunks !! i = Some ci -> chunks !! j = Some cj ->
  pids !! i = Some p -> pids !! j = Some p ->
  page_start pids i -> page_start pids j ->
  chunk_id_of (heap (calc_chunk_ids chunks base w).2 ci)
  = Some (VStr (p +:+ ":" +:+ "0"))
  /\ chunk_id_of (heap (calc_chunk_ids chunks base w).2 cj)
     = Some (VStr (p +:+ ":" +:+ "0")).
Proof.
  intros Hall Hnd Hci Hcj Hpi Hpj Hsi Hsj.
  assert (Hlater : forall n c, chunks !! n = Some c -> c ∉ drop (S n) chunks).
  { intros n c Hn Hin. apply list_elem_of_lookup in Hin as [m Hm].
    rewrite lookup_drop in Hm.
    pose proof (NoDup_lookup _ _ _ _ Hnd Hn Hm). lia. }
  split.
  - apply (calc_chunk_ids_id_at chunks base w pids i ci p 0); auto.
    now apply (indices_start pids i p).
  - apply (calc_chunk_ids_id_at chunks base w pids j cj p 0); auto.
    now apply (indices_start pids j p).
Qed.

End CalcMore.

(** ** [calc_chunk_ids]: where the sources lie *)

Section PlaceFacts.
Context {E : Type}.
Import Posix.

Lemma components_segments cs :
  Forall (fun c => component c = true) cs ->
  Forall (fun c => segment c = true) cs.
Proof. intros H. eapply Forall_impl; [exact H | apply component_segment]. Qed.

Lemma components_or_dot cs :
  Forall (fun c => component c = true) cs ->
  Forall (fun c => component c = true \/ c = ".") cs.
Proof. intros H. eapply Forall_impl; [exact H | now left]. Qed.

Lemma normpath_abs_components cs :
  Forall (fun c => component c = true) cs ->
  normpath (abs_of cs) = abs_of cs.
Proof.
  intros H. rewrite normpath_abs by now apply components_or_dot.
  now rewrite filter_not_dot.
Qed.

Lemma abspath_abs cwd cs :
  Forall (fun c => component c = true) cs ->
  abspath cwd (abs_of cs) = abs_of cs.
Proof.
  intros H. unfold abspath, isabs, abs_of at 1.
  change ("/" +:+ String.concat "/" cs)
    with (String slash (String.concat "/" cs)).
  rewrite startswith_slash_cons, Ascii.eqb_refl.
  now apply normpath_abs_components.
Qed.

Lemma abspath_rel cs ps :
  Forall (fun c => component c = true) cs ->
  Forall (fun c => component c = true) ps -> ps <> [] ->
  abspath (abs_of cs) (String.concat "/" ps) = abs_of (cs ++ ps).
Proof.
  intros Hcs Hps Hne. unfold abspath, isabs.
  rewrite (startswith_slash_concat ps) by (auto using components_segments).
  rewrite join_abs by (auto using components_segments).
  apply normpath_abs_components, Forall_app. now split.
Qed.

(** A path below the start directory, relative to it. *)
Lemma relpath_below cwd p start (bs ps : list string) :
  p <> EmptyString ->
  abspath cwd start = abs_of bs ->
  abspath cwd p = abs_of (bs ++ ps) ->
  Forall (fun c => segment c = true) bs ->
  Forall (fun c => segment c = true) ps -> ps <> [] ->
  relpath cwd p start = Ok (String.concat "/" ps).
Proof.
  intros Hp Hstart Hpath Hbs Hps Hne. unfold relpath.
  destruct (String.eqb_spec p EmptyString) as [|_]; [contradiction|].
  rewrite Hstart, Hpath, !path_list_abs by (try apply Forall_app; auto).
  rewrite common_len_app, Nat.sub_diag, drop_app_length. cbn [repeat app].
  destruct ps as [|a rest]; [congruence|].
  inversion Hps as [|? ? Ha Hrest]; subst.
  destruct (segment_inv a Ha) as (Hs & c' & t' & Haeq & _).
  rewrite fold_join;
    [ destruct rest; reflexivity
    | rewrite Haeq; discriminate
    | now apply endswith_slash_segment
    | exact Hrest ].
Qed.

Lemma concat_nonempty ps :
  Forall (fun c => segment c = true) ps -> ps <> [] ->
  String.concat "/" ps <> EmptyString.
Proof.
  intros Hps Hne Heq. destruct (concat_head ps Hps Hne) as (c & t & Hc & _).
  congruence.
Qed.

(** The page id of a document placed below the base directory. *)
Lemma page_id_of_placed cwd tok base source ps (d : Document) :
  placed cwd base source ps ->
  Forall (fun c => component c = true) ps -> ps <> [] ->
  dict_get (metadata d) "source" = Some (VStr source) ->
  page_id_of (X:=posix_externals cwd tok) base d
  = Ok (replace_backslash (String.concat "/" ps) +:+ ":"
        +:+ py_str (default VNone (dict_get (metadata d) "page"))).
Proof.
  intros Hpl Hps Hne Hsrc. unfold page_id_of. rewrite Hsrc.
  cbn [default id normpath_of os_path_normpath os_path_relpath posix_externals].
  destruct Hpl as [cs bs -> Hcs Hbs Hbne -> -> | bs Hbs -> ->].
  - assert (Hall : Forall (fun c => component c = true) (bs ++ ps))
      by (apply Forall_app; now split).
    assert (Hne' : bs ++ ps <> []) by (destruct bs; [congruence | discriminate]).
    rewrite normpath_rel by auto.
    rewrite (relpath_below _ _ _ (cs ++ bs) ps); [reflexivity | | | | | |].
    + apply concat_nonempty; auto using components_segments.
    + now apply abspath_rel.
    + rewrite abspath_rel by auto. now rewrite app_assoc.
    + apply components_segments, Forall_app. now split.
    + now apply components_segments.
    + exact Hne.
  - assert (Hall : Forall (fun c => component c = true) (bs ++ ps))
      by (apply Forall_app; now split).
    rewrite normpath_abs_components by exact Hall.
    rewrite (relpath_below _ _ _ bs ps); [reflexivity | | | | | |].
    + discriminate.
    + now apply abspath_abs.
    + now apply abspath_abs.
    + now apply components_segments.
    + now apply components_segments.
    + exact Hne.
Qed.

(** The assignments of two runs, each with its own [os.path] and base
    directory, agree when the page ids do. *)
Lemma assignments_agree_across (X1 X2 : Externals) base1 base2 chunks
    (h1 h2 : loc -> Document) : forall st,
  (forall c, c ∈ chunks ->
     page_id_of (X:=X1) base1 (h1 c) = page_id_of (X:=X2) base2 (h2 c)) ->
  assignments (X:=X1) base1 st chunks h1 = assignments (X:=X2) base2 st chunks h2.
Proof.
  induction chunks as [|c cs IH]; intros st Hall; [reflexivity|].
  cbn [assignments]. rewrite (Hall c) by now left.
  destruct (page_id_of base2 (h2 c)); [|reflexivity].
  rewrite IH; [reflexivity|]. intros c' Hc'. apply Hall. now right.
Qed.

Lemma assignments_form (X : Externals) base chunks (h : loc -> Document)
    (c : loc) v : forall st,
  (c, v) ∈ (assignments (X:=X) base st chunks h).1 ->
  exists pid k, page_id_of (X:=X) base (h c) = Ok pid
                /\ v = pid +:+ ":" +:+ str_int k.
Proof.
  induction chunks as [|c0 cs IH]; intros st Hin;
    [now apply elem_of_nil in Hin|].
  cbn [assignments] in Hin.
  destruct (page_id_of base (h c0)) as [pid|e] eqn:Hp;
    [|now apply elem_of_nil in Hin].
  cbn [fst] in Hin. apply elem_of_cons in Hin as [Heq|Hin].
  - injection Heq as -> ->. eauto.
  - eapply IH; eauto.
Qed.

Lemma last_write_elem (ws : list (loc * string)) (l : loc) v :
  last_write ws l = Some v -> (l, v) ∈ ws.
Proof.
  induction ws as [|[c v'] ws IH]; [discriminate|]. cbn [last_write].
  destruct (last_write ws l) as [v0|].
  - intros [= ->]. right. now apply IH.
  - destruct (Nat.eqb_spec l c) as [->|]; [|discriminate].
    intros [= ->]. now left.
Qed.

(** X4. On a POSIX system the chunk ids depend on where a source lies below
    the base directory and on the page, and on nothing else of the paths: two
    runs, each with its own working directory and base directory, given
    relative or absolute, give a chunk whose source lies at the components
    [place c] below the base directory in both the same id, which starts with
    those components, joined by ["/"], and the page. *)
Theorem calc_chunk_ids_relocatable (cwd1 cwd2 : string)
    (tok1 tok2 : string -> Res Z) (base1 base2 : string)
    (chunks : list loc) (w1 w2 : World E) (place : loc -> list string) :
  (forall c, c ∈ chunks ->
     Forall (fun x => component x = true) (place c) /\ place c <> []
     /\ (exists s1 s2,
           dict_get (metadata (heap w1 c)) "source" = Some (VStr s1)
           /\ dict_get (metadata (heap w2 c)) "source" = Some (VStr s2)
           /\ placed cwd1 base1 s1 (place c) /\ placed cwd2 base2 s2 (place c))
     /\ dict_get (metadata (heap w1 c)) "page"
        = dict_get (metadata (heap w2 c)) "page") ->
  forall c, c ∈ chunks ->
    exists k,
      let id := replace_backslash (String.concat "/" (place c)) +:+ ":"
                +:+ py_str (default VNone (dict_get (metadata (heap w1 c)) "page"))
                +:+ ":" +:+ str_int k in
      chunk_id_of (heap (calc_chunk_ids (X:=posix_externals cwd1 tok1)
                           chunks base1 w1).2 c) = Some (VStr id)
      /\ chunk_id_of (heap (calc_chunk_ids (X:=posix_externals cwd2 tok2)
                              chunks base2 w2).2 c) = Some (VStr id).
Proof.
  intros Hall c Hc.
  assert (Hpid : forall c', c' ∈ chunks ->
            let pid := replace_backslash (String.concat "/" (place c')) +:+ ":"
                       +:+ py_str (default VNone
                                     (dict_get (metadata (heap w1 c')) "page")) in
            page_id_of (X:=posix_externals cwd1 tok1) base1 (heap w1 c') = Ok pid
            /\ page_id_of (X:=posix_externals cwd2 tok2) base2 (heap w2 c')
               = Ok pid).
  { intros c' Hc'.
    destruct (Hall c' Hc') as (Hps & Hne & (s1 & s2 & H1 & H2 & P1 & P2) & Hpg).
    split.
    - apply (page_id_of_placed cwd1 tok1 base1 s1); eauto.
    - rewrite (page_id_of_placed cwd2 tok2 base2 s2 (place c')); eauto.
      now rewrite Hpg. }
  destruct (calc_chunk_ids_run (X:=posix_externals cwd1 tok1) chunks base1 w1)
    as (_ & -> & _).
  destruct (calc_chunk_ids_run (X:=posix_externals cwd2 tok2) chunks base2 w2)
    as (_ & -> & _).
  rewrite !assign_all_spec.
  rewrite (assignments_agree_across (posix_externals cwd1 tok1)
             (posix_externals cwd2 tok2) base1 base2 chunks (heap w1) (heap w2)).
  - destruct (last_write_Some
                (assignments (X:=posix_externals cwd2 tok2) base2 (None, 0)
                   chunks (heap w2)).1 c) as [v Hv].
    + rewrite assignments_all; [exact Hc|].
      intros c' Hc'. destruct (Hpid c' Hc') as (_ & Hp). eauto.
    + rewrite Hv. apply last_write_elem, assignments_form in Hv.
      destruct Hv as (pid & k & Hp & ->).
      destruct (Hpid c Hc) as (_ & Hp'). rewrite Hp' in Hp. injection Hp as <-.
      exists k. cbv zeta. unfold chunk_id_of. cbn [with_chunk_id metadata].
      rewrite !dict_get_set_eq, !str_app_assoc. auto.
  - intros c' Hc'. destruct (Hpid c' Hc') as (-> & ->). reflexivity.
Qed.

End PlaceFacts.

(** ** The two spellings of a path, for any base directory *)

Section SpelledFacts.
Context {E : Type}.
Import Posix.








End SpelledFacts.

(** ** [process_in_batches]: the batch size and the calls *)

Section BatchMore.
Context {X : Externals}.

Lemma process_in_batches_run {E} (documents : list loc) (batch_size : Z)
    (ingest_fn : list loc -> M unit (E:=E)) (w : World E) :
  0 < batch_size ->
  process_in_batches documents batch_size ingest_fn w
  = (Ok tt,
     attempt_all ingest_fn 0
       (map (fun j => take (Z.to_nat batch_size)
                        (drop (j * Z.to_nat batch_size) documents))
            (seq 0 (range_count (len documents) batch_size)))
       (with_logs
          (logs w ++
           [(INFO, "[Stage 01, Part 08.3] Processing "
                   +:+ str_int (len documents)
                   +:+ " documents in batches of " +:+ str_int batch_size
                   +:+ "...")]) w)).
Proof.
  intros Hpos. set (n := Z.to_nat batch_size).
  assert (Hn : (0 < n)%nat) by (unfold n; lia).
  assert (Hbs : batch_size = Z.of_nat n) by (unfold n; lia).
  unfold process_in_batches. unfold bind at 1, logger at 1.
  unfold bind at 1, lift, py_range.
  destruct (Z.eqb_spec batch_size 0); [lia|].
  destruct (Z.ltb_spec 0 batch_size); [|lia].
  unfold bind at 1. rewrite Hbs.
  fold (range_count (len documents) (Z.of_nat n)).
  now rewrite (process_loop documents n ingest_fn Hn).
Qed.

(** X5. A batch size that is not positive: nothing is ingested. With 0 the
    [ValueError] of [range] leaves the function; with a negative size the
    function returns as if all had gone well. *)
Theorem process_in_batches_nonpositive {E} (documents : list loc)
    (batch_size : Z) (ingest_fn : list loc -> M unit (E:=E)) (w : World E) :
  batch_size <= 0 ->
  process_in_batches documents batch_size ingest_fn w
  = (if batch_size =? 0
     then Raise (Exn "ValueError" "range() arg 3 must not be zero")
     else Ok tt,
     with_logs
       (logs w ++
        [(INFO, "[Stage 01, Part 08.3] Processing "
                +:+ str_int (len documents)
                +:+ " documents in batches of " +:+ str_int batch_size
                +:+ "...")]) w).
Proof.
  intros Hle. unfold process_in_batches. unfold bind at 1, logger at 1.
  unfold bind at 1, lift, py_range.
  destruct (Z.eqb_spec batch_size 0) as [->|Hne]; [reflexivity|].
  destruct (Z.ltb_spec 0 batch_size); [lia|].
  assert (Hlen : 0 <= len documents) by (unfold len; lia).
  destruct (Z.ltb_spec (len documents) 0); [lia|]. reflexivity.
Qed.

Lemma attempt_all_counting outcome (bs : list (list loc)) : forall k w,
  ext (attempt_all (counting outcome) k bs w) = (ext w + length bs)%nat.
Proof.
  induction bs as [|b bs IH]; intros k w; cbn [attempt_all length]; [lia|].
  rewrite IH. unfold attempt, counting.
  destruct (outcome b) as [[]|e]; cbn [ext with_logs]; lia.
Qed.

Lemma range_count_ceil (total step : Z) :
  0 <= total -> 0 < step ->
  Z.of_nat (range_count total step) = (total + step - 1) / step.
Proof.
  intros Ht Hs. unfold range_count.
  destruct (Z.ltb_spec 0 total).
  - replace (total + step - 1) with (total - 0 - 1 + 1 * step) by lia.
    rewrite Z.div_add by lia.
    assert (0 <= (total - 0 - 1) / step) by (apply Z.div_pos; lia). lia.
  - replace total with 0 by lia. rewrite Z.div_small by lia. reflexivity.
Qed.

(** X6. For a positive batch size the ingestion function is called
    [ceil(total / batch_size)] times, whatever the calls end with. *)
Theorem process_in_batches_call_count (documents : list loc) (batch_size : Z)
    (outcome : list loc -> Res unit) (w : World nat) :
  0 < batch_size ->
  let r := process_in_batches documents batch_size (counting outcome) w in
  r.1 = Ok tt
  /\ Z.of_nat (ext r.2) - Z.of_nat (ext w)
     = (len documents + batch_size - 1) / batch_size.
Proof.
  intros Hpos r. subst r. rewrite process_in_batches_run by exact Hpos.
  cbn [fst snd]. split; [reflexivity|].
  rewrite attempt_all_counting, length_map, length_seq. cbn [ext with_logs].
  rewrite Nat2Z.inj_add, range_count_ceil by (unfold len; lia). lia.
Qed.

End BatchMore.

(** ** The sidecar file, whatever is in it *)

Section LedgerMore.
Context {E : Type} {X : Externals}.
Implicit Types (w : World E) (p : path).

(** *** What a scan returns, whatever is in the file *)

Lemma ledger_fold_sound lines : forall ids ids',
  ledger_fold ids lines = Ok ids' ->
  forall k, k ∈ ids' ->
    k ∈ ids \/ exists line j, line ∈ lines /\ json_loads (strip line) = Some j
                              /\ record_key j = Ok (Some k).
Proof.
  induction lines as [|line lines IH]; intros ids ids' Hfold k Hk.
  - injection Hfold as <-. now left.
  - cbn [ledger_fold] in Hfold.
    destruct (line_step ids line) as [ids1|e] eqn:Hstep; [|discriminate].
    destruct (IH _ _ Hfold k Hk) as [Hin|(l & j & Hl & Hj & Hr)].
    + unfold line_step in Hstep.
      destruct (json_loads (strip line)) as [j|] eqn:Hj.
      * destruct (record_key j) as [[k'|]|e] eqn:Hr; try discriminate;
          injection Hstep as <-; [|now left].
        apply elem_of_union in Hin as [Hin|Hin]; [now left|].
        apply elem_of_singleton in Hin as ->.
        right. exists line, j. split; [now left | auto].
      * injection Hstep as <-. now left.
    + right. exists l, j. split; [now right | auto].
Qed.

Lemma ledger_fold_poisoned lines line j e :
  line ∈ lines -> json_loads (strip line) = Some j -> record_key j = Raise e ->
  forall ids, exists e', ledger_fold ids lines = Raise e'.
Proof.
  intros Hin Hj Hr. induction lines as [|l lines IH]; intros ids;
    [now apply elem_of_nil in Hin|].
  cbn [ledger_fold]. destruct (line_step ids l) as [ids1|e1] eqn:Hstep; [|eauto].
  apply elem_of_cons in Hin as [->|Hin]; [|now apply IH].
  unfold line_step in Hstep. rewrite Hj, Hr in Hstep. discriminate.
Qed.

Lemma load_existing_chunks_metadata_run p w :
  exists l,
    load_existing_chunks_metadata p w
    = (Ok (scan_result (fs w) p), with_logs (logs w ++ l) w).
Proof. rewrite load_existing_chunks_metadata_scan. apply scan_run. Qed.

(** X7. [load_existing_chunks_metadata] never raises and changes nothing but
    the log, whatever is at the path; and every id in the set it returns is
    the truthy chunk id of a line of the file that parses. *)
Theorem load_existing_chunks_metadata_sound (p : path) (w : World E) :
  exists ids l,
    load_existing_chunks_metadata p w = (Ok ids, with_logs (logs w ++ l) w)
    /\ forall k, k ∈ ids ->
         exists text line j,
           fs w !! p = Some (File text) /\ line ∈ text_lines text
           /\ json_loads (strip line) = Some j /\ record_key j = Ok (Some k).
Proof.
  destruct (load_existing_chunks_metadata_run p w) as [l Hrun].
  exists (scan_result (fs w) p), l. split; [exact Hrun|].
  intros k Hk. unfold scan_result in Hk.
  destruct p as [|c p']; [now apply elem_of_empty in Hk|].
  destruct (fs w !! (c :: p')) as [[text|]|] eqn:Hp;
    try (now apply elem_of_empty in Hk).
  destruct (ledger_fold ∅ (text_lines text)) as [ids|e] eqn:Hfold;
    [|now apply elem_of_empty in Hk].
  destruct (ledger_fold_sound _ _ _ Hfold k Hk) as [Hin|(line & j & H)];
    [now apply elem_of_empty in Hin|].
  exists text, line, j. tauto.
Qed.

(** X8. One line that is JSON but no record (no object, a ["metadata"] that is
    no object, a ["chunk_id"] that cannot be hashed) makes
    [load_existing_chunks_metadata] return the empty set, whatever the other
    lines hold. *)
Theorem load_existing_chunks_metadata_poisoned (p : path) (w : World E)
    (text line : string) (j : json) (e : exn) :
  fs w !! p = Some (File text) ->
  line ∈ text_lines text ->
  json_loads (strip line) = Some j ->
  record_key j = Raise e ->
  (load_existing_chunks_metadata p w).1 = Ok ∅.
Proof.
  intros Hp Hin Hj Hr.
  destruct (load_existing_chunks_metadata_run p w) as [l ->]. cbn [fst].
  f_equal. unfold scan_result. destruct p as [|c p']; [reflexivity|].
  rewrite Hp.
  destruct (ledger_fold_poisoned _ _ _ _ Hin Hj Hr ∅) as [e' ->]. reflexivity.
Qed.

(** *** Saving when the directory cannot be made *)

(** X9. When a file is in the way of the directory of the path,
    [save_processed_chunks_metadata] writes nothing and changes no document;
    it still returns what [load_existing_chunks_metadata] returns. *)
Theorem save_processed_chunks_metadata_blocked (chunks : list loc)
    (p : path) (w : World E) (e : exn) :
  mkdir_from [] (parent p) (fs w) = Raise e ->
  let r := save_processed_chunks_metadata chunks p w in
  r.1 = (load_existing_chunks_metadata p w).1
  /\ fs r.2 = fs w /\ heap r.2 = heap w /\ ext r.2 = ext w.
Proof.
  intros Hmk r.
  assert (Hrun : exists l,
    save_processed_chunks_metadata chunks p w
    = scan (INFO, "[Stage 01, Part 10.2.1] No existing chunks file found at "
                  +:+ path_str p)
           "[Stage 01, Part 10.2.2] Loaded " " existing chunk IDs"
           "[Stage 01, Part 10.2] Error loading existing chunks metadata: "
           p (with_logs (logs w ++ l) w)).
  { unfold save_processed_chunks_metadata. unfold bind at 1, try_except at 1.
    unfold bind at 1, logger at 1.
    unfold bind at 1, mkdir_parents. cbn [fs]. rewrite Hmk.
    unfold bind at 1, logger at 1. unfold logger at 1. world_simpl.
    rewrite <- !app_assoc. eexists. reflexivity. }
  destruct Hrun as [l Hrun]. subst r. rewrite Hrun.
  destruct (load_existing_chunks_metadata_run p w) as [l0 ->].
  match goal with |- context [scan ?m ?a ?b ?c p ?w1] =>
    destruct (scan_run m a b c p w1) as [l1 ->]
  end.
  cbn [fst snd]. world_simpl. auto.
Qed.


(** *** What the functions leave alone *)

Lemma grown_refl p (f : gmap path node) : grown p f f.
Proof.
  repeat split; auto. intros old Hold. exists EmptyString.
  now rewrite str_app_nil_r.
Qed.

Lemma grown_trans p (f1 f2 f3 : gmap path node) :
  grown p f1 f2 -> grown p f2 f3 -> grown p f1 f3.
Proof.
  intros (Ha1 & Hb1 & Hc1) (Ha2 & Hb2 & Hc2). repeat split; auto.
  intros old Hold. destruct (Hc1 old Hold) as [m1 H1].
  destruct (Hc2 _ H1) as [m2 H2]. exists (m1 +:+ m2).
  now rewrite <- str_app_assoc.
Qed.

Lemma keeps_same {A} p (m : M A (E:=E)) :
  (forall w, (m w).2 = w) -> keeps p m.
Proof. intros H w. rewrite H. auto using grown_refl. Qed.

Lemma keeps_ret {A} p (a : A) : keeps p (ret a (E:=E)).
Proof. now apply keeps_same. Qed.

Lemma keeps_lift {A} p (r : Res A) : keeps p (lift r (E:=E)).
Proof. now apply keeps_same. Qed.

Lemma keeps_deref p c : keeps p (deref c (E:=E)).
Proof. now apply keeps_same. Qed.

Lemma keeps_path_exists p q : keeps p (path_exists q (E:=E)).
Proof. now apply keeps_same. Qed.

Lemma keeps_read_lines p q : keeps p (read_lines q (E:=E)).
Proof.
  apply keeps_same. intros w. unfold read_lines.
  destruct q; [reflexivity|]. now destruct (fs w !! _) as [[]|].
Qed.

Lemma keeps_logger p lv msg : keeps p (logger lv msg (E:=E)).
Proof. intros w. cbn. auto using grown_refl. Qed.

Lemma keeps_bind {A B} p (m : M A (E:=E)) (f : A -> M B) :
  keeps p m -> (forall a, keeps p (f a)) -> keeps p (bind m f).
Proof.
  intros Hm Hf w. unfold bind. destruct (Hm w) as (H1 & H2 & H3).
  destruct (m w) as [[a|e] w1]; cbn [snd] in *; [|auto].
  destruct (Hf a w1) as (H4 & H5 & H6).
  split; [congruence|]. split; [congruence|]. eapply grown_trans; eauto.
Qed.

Lemma keeps_try_except {A} p (body : M A (E:=E)) handler :
  keeps p body -> (forall e, keeps p (handler e)) ->
  keeps p (try_except body handler).
Proof.
  intros Hm Hh w. unfold try_except. destruct (Hm w) as (H1 & H2 & H3).
  destruct (body w) as [[a|e] w1]; cbn [snd] in *; [auto|].
  destruct (Hh e w1) as (H4 & H5 & H6).
  split; [congruence|]. split; [congruence|]. eapply grown_trans; eauto.
Qed.

Lemma keeps_try_except_class {A} p cls (body : M A (E:=E)) handler :
  keeps p body -> keeps p handler ->
  keeps p (try_except_class cls body handler).
Proof.
  intros Hm Hh w. unfold try_except_class. destruct (Hm w) as (H1 & H2 & H3).
  destruct (body w) as [[a|e] w1]; cbn [snd] in *; [auto|].
  destruct (String.eqb (exn_class e) cls); [|auto].
  destruct (Hh w1) as (H4 & H5 & H6).
  split; [congruence|]. split; [congruence|]. eapply grown_trans; eauto.
Qed.

Lemma keeps_for_fold {S A} p (body : S -> A -> M S (E:=E)) l :
  (forall s a, keeps p (body s a)) -> forall s, keeps p (for_fold body s l).
Proof.
  intros Hb. induction l as [|a l IH]; intros s; cbn [for_fold].
  - apply keeps_ret.
  - apply keeps_bind; auto.
Qed.

Lemma keeps_mkdir_parents p q : keeps p (mkdir_parents q (E:=E)).
Proof.
  intros w. unfold mkdir_parents.
  destruct (mkdir_from [] q (fs w)) as [f|e] eqn:Hmk; cbn [snd];
    [|auto using grown_refl].
  world_simpl. repeat split.
  - intros q0 x _. now apply (mkdir_from_keeps _ _ _ _ _ _ Hmk).
  - now apply (mkdir_from_keeps _ _ _ _ _ _ Hmk).
  - intros old Hold. exists EmptyString. rewrite str_app_nil_r.
    now apply (mkdir_from_keeps _ _ _ _ _ _ Hmk).
Qed.

Lemma keeps_open_append p : keeps p (open_append p (E:=E)).
Proof.
  intros w. unfold open_append. destruct p as [|c p']; [auto using grown_refl|].
  destruct (fs w !! (c :: p')) as [[t|]|] eqn:Hp; cbn [snd];
    try (auto using grown_refl).
  assert (Hg : grown (c :: p') (fs w) (<[c :: p' := File EmptyString]> (fs w))).
  { repeat split.
    - intros q x Hq Hx. now rewrite lookup_insert_ne.
    - congruence.
    - congruence. }
  destruct (parent (c :: p')) as [|s l]; [world_simpl; auto|].
  destruct (fs w !! (s :: l)) as [[]|]; cbn [snd]; world_simpl;
    auto using grown_refl.
Qed.

Lemma keeps_write_end p s : keeps p (write_end p s (E:=E)).
Proof.
  intros w. unfold write_end.
  destruct (fs w !! p) as [[t|]|] eqn:Hp; cbn [snd]; try (auto using grown_refl).
  world_simpl. repeat split.
  - intros q x Hq Hx. now rewrite lookup_insert_ne.
  - congruence.
  - intros old Hold. rewrite Hp in Hold. injection Hold as <-.
    exists s. apply lookup_insert_eq.
Qed.

(** X10. [save_processed_chunks_metadata] never raises, for any input, and
    never takes anything away: no document and nothing of the ingestion state
    changes, every file and directory other than the path is kept, and a text
    that was at the path is still there, at the start of the text the function
    leaves. *)
Theorem save_processed_chunks_metadata_grows (chunks : list loc)
    (p : path) (w : World E) :
  let r := save_processed_chunks_metadata chunks p w in
  (exists ids, r.1 = Ok ids)
  /\ heap r.2 = heap w /\ ext r.2 = ext w
  /\ (forall q x, q <> p -> fs w !! q = Some x -> fs r.2 !! q = Some x)
  /\ (forall old, fs w !! p = Some (File old) ->
        exists more, fs r.2 !! p = Some (File (old +:+ more))).
Proof.
  intros r. subst r. split.
  - destruct (save_processed_chunks_metadata_scan chunks p w) as [w1 ->].
    match goal with |- context [scan ?m ?a ?b ?c p w1] =>
      destruct (scan_run m a b c p w1) as [l1 ->]
    end.
    eauto.
  - assert (Hk : keeps (E:=E) p (save_processed_chunks_metadata chunks p)).
    { unfold save_processed_chunks_metadata.
      repeat
      first
        [ apply keeps_bind; [|intros ?]
        | apply keeps_try_except_class
        | apply keeps_try_except; [|intros ?]
        | apply keeps_for_fold; intros ? ?
        | apply keeps_logger | apply keeps_ret | apply keeps_lift
        | apply keeps_deref | apply keeps_path_exists | apply keeps_read_lines
        | apply keeps_mkdir_parents | apply keeps_open_append
        | apply keeps_write_end
        | match goal with
          | |- keeps _ (if ?b then _ else _) => destruct b
          | |- keeps _ (add_line_id _ _) => unfold add_line_id
          end ]. }
    destruct (Hk w) as (Hh & He & Ha & _ & Hc). auto.
Qed.


(** *** Saving twice *)

Lemma mkdir_from_made todo : forall seen (f f' : gmap path node) k,
  mkdir_from seen todo f = Ok f' ->
  (0 < k <= length todo)%nat ->
  f' !! (seen ++ take k todo) = Some Dir.
Proof.
  induction todo as [|c todo IH]; intros seen f f' k Hmk Hk;
    [simpl in Hk; lia|].
  simpl in Hmk. destruct k as [|k]; [lia|]. cbn [take].
  replace (seen ++ c :: take k todo) with ((seen ++ [c]) ++ take k todo)
    by now rewrite <- app_assoc.
  destruct k as [|k].
  - rewrite take_0, app_nil_r.
    destruct (f !! (seen ++ [c])) as [[t|]|] eqn:Hc; [discriminate| |].
    + now apply (mkdir_from_keeps _ _ _ _ _ _ Hmk).
    + apply (mkdir_from_keeps _ _ _ _ _ _ Hmk), lookup_insert_eq.
  - simpl in Hk.
    destruct (f !! (seen ++ [c])) as [[t|]|]; [discriminate| |];
      (eapply IH; [exact Hmk | lia]).
Qed.

Lemma mkdir_from_present todo : forall seen (f : gmap path node),
  (forall k, (0 < k <= length todo)%nat ->
     f !! (seen ++ take k todo) = Some Dir) ->
  mkdir_from seen todo f = Ok f.
Proof.
  induction todo as [|c todo IH]; intros seen f Hall; [reflexivity|].
  cbn [mkdir_from].
  pose proof (Hall 1%nat ltac:(simpl; lia)) as H1. cbn [take] in H1.
  rewrite take_0 in H1. rewrite H1. apply IH. intros k Hk.
  rewrite <- app_assoc. apply (Hall (S k)). simpl. lia.
Qed.

(** Making the directories again, once they are there and the file is
    written, changes nothing. *)
Lemma mkdir_from_again p (f f1 : gmap path node) x :
  p <> [] ->
  mkdir_from [] (parent p) f = Ok f1 ->
  mkdir_from [] (parent p) (<[p := x]> f1) = Ok (<[p := x]> f1).
Proof.
  intros Hp Hmk. apply mkdir_from_present. intros k Hk.
  rewrite lookup_insert_ne.
  - now apply (mkdir_from_made _ _ _ _ _ Hmk).
  - intros Heq. pose proof (parent_length p Hp) as Hlt.
    rewrite Heq in Hlt at 2. cbn [app] in Hlt. rewrite length_take in Hlt. lia.
Qed.

Lemma ends_with_newline_app (a b : string) :
  ends_with_newline a = true -> ends_with_newline b = true ->
  ends_with_newline (a +:+ b) = true.
Proof.
  intros Ha Hb. induction a as [|c a IH]; [exact Hb|].
  change (String c a +:+ b) with (String c (a +:+ b)).
  destruct a as [|c' a'].
  - destruct b as [|c' b']; [exact Ha | exact Hb].
  - change (ends_with_newline (String c' a' +:+ b) = true). now apply IH.
Qed.

Lemma ends_with_newline_line (s : string) :
  ends_with_newline (s +:+ String newline EmptyString) = true.
Proof.
  induction s as [|c s IH]; [reflexivity|].
  change (String c s +:+ String newline EmptyString)
    with (String c (s +:+ String newline EmptyString)).
  cbn [ends_with_newline].
  destruct (s +:+ String newline EmptyString) eqn:Hs; [|exact IH].
  destruct s; discriminate.
Qed.

Lemma ends_with_newline_appended (h : loc -> Document) chunks :
  ends_with_newline (appended_text h chunks) = true.
Proof.
  induction chunks as [|c cs IH]; [reflexivity|].
  cbn [appended_text fold_right].
  apply ends_with_newline_app; [apply ends_with_newline_line | exact IH].
Qed.

Lemma appended_lines (h : loc -> Document) chunks old :
  ends_with_newline old = true ->
  Forall (fun l => line_ok l = true) (text_lines old) ->
  Forall (reads_back h) chunks ->
  let line c := json_dumps (chunk_record (h c)) +:+ String newline EmptyString in
  text_lines (old +:+ appended_text h chunks) = text_lines old ++ map line chunks
  /\ Forall (fun l => line_ok l = true)
            (text_lines (old +:+ appended_text h chunks))
  /\ ledger_of (old +:+ appended_text h chunks)
     = ledger_of old ∪ list_to_set (omap (fun c => chunk_key (h c)) chunks).
Proof.
  intros Hend Hlines Hchunks line.
  assert (Hnl : Forall (fun c => has_newline (json_dumps (chunk_record (h c)))
                                 = false) chunks).
  { eapply Forall_impl; [exact Hchunks|]. now intros c (_ & Hc & _). }
  assert (Htl : text_lines (old +:+ appended_text h chunks)
                = text_lines old ++ map line chunks).
  { now rewrite (text_lines_app _ _ Hend), (text_lines_appended _ _ Hnl). }
  assert (Hkey : forall c, c ∈ chunks ->
            line_ok (line c) = true /\ line_key (line c) = chunk_key (h c)).
  { intros c Hc. rewrite Forall_forall in Hchunks.
    destruct (Hchunks c Hc) as (Hnd & _ & Hload).
    unfold line_ok, line_key, line. rewrite Hload.
    now rewrite (record_key_chunk_record _ Hnd); destruct (chunk_key _). }
  split; [exact Htl|]. split.
  - rewrite Htl. apply Forall_app. split; [exact Hlines|].
    apply Forall_forall. intros l0 Hl0. apply list_elem_of_fmap in Hl0.
    destruct Hl0 as (c & -> & Hc). now apply Hkey.
  - unfold ledger_of. rewrite Htl, omap_app, list_to_set_app_L. f_equal. f_equal.
    clear -Hkey. induction chunks as [|c cs IH]; [reflexivity|].
    cbn [map omap list_omap].
    destruct (Hkey c ltac:(now left)) as [_ ->].
    rewrite IH; [reflexivity|]. intros c' Hc'. apply Hkey. now right.
Qed.

Lemma scan_result_file (f : gmap path node) p text :
  p <> [] -> f !! p = Some (File text) ->
  Forall (fun l => line_ok l = true) (text_lines text) ->
  scan_result f p = ledger_of text.
Proof.
  intros Hp Hf Hall. unfold scan_result. destruct p; [congruence|].
  rewrite Hf, (ledger_fold_ok _ _ Hall). unfold ledger_of.
  now rewrite (left_id_L ∅ (∪)).
Qed.

(** The whole of [save_processed_chunks_metadata] on a well-formed file
    and chunks whose lines are read back. *)
Lemma save_processed_chunks_metadata_ledger_run chunks p w old f1 :
  p <> [] ->
  mkdir_from [] (parent p) (fs w) = Ok f1 ->
  fs w !! p = Some (File old) \/ (fs w !! p = None /\ old = EmptyString) ->
  ends_with_newline old = true ->
  Forall (fun l => line_ok l = true) (text_lines old) ->
  Forall (reads_back (heap w)) chunks ->
  exists l,
    save_processed_chunks_metadata chunks p w
    = (Ok (ledger_of old
           ∪ list_to_set (omap (fun c => chunk_key (heap w c)) chunks)),
       with_logs (logs w ++ l)
         (with_fs (<[p := File (old +:+ appended_text (heap w) chunks)]> f1) w)).
Proof.
  intros Hp Hmk Hold Hend Hlines Hchunks.
  destruct (appended_lines (heap w) chunks old Hend Hlines Hchunks)
    as (_ & Hok & Hled).
  destruct (save_processed_chunks_metadata_run chunks p w old f1 Hp Hmk Hold)
    as [l Hrun].
  match type of Hrun with _ = scan ?m ?a ?b ?c p ?w1 =>
    destruct (scan_run m a b c p w1) as [l' Hscan]
  end.
  rewrite Hscan in Hrun. clear Hscan.
  unfold with_fs, with_logs in Hrun. cbn [heap fs logs ext] in Hrun.
  rewrite (scan_result_file _ p (old +:+ appended_text (heap w) chunks))
    in Hrun; [|exact Hp | apply lookup_insert_eq | exact Hok].
  rewrite Hled, <- app_assoc in Hrun. exists (l ++ l'). exact Hrun.
Qed.

(** X11. The persister does not look at what the file already holds: saving
    the same chunks a second time appends their records a second time, and the
    set returned is the one the first call returned. *)
Theorem save_processed_chunks_metadata_twice (chunks : list loc)
    (p : path) (w : World E) (old : string) (f1 : gmap path node) :
  p <> [] ->
  mkdir_from [] (parent p) (fs w) = Ok f1 ->
  fs w !! p = Some (File old) \/ (fs w !! p = None /\ old = EmptyString) ->
  ends_with_newline old = true ->
  Forall (fun l => line_ok l = true) (text_lines old) ->
  Forall (reads_back (heap w)) chunks ->
  let r1 := save_processed_chunks_metadata chunks p w in
  let r2 := save_processed_chunks_metadata chunks p r1.2 in
  let added := appended_text (heap w) chunks in
  fs r1.2 !! p = Some (File (old +:+ added))
  /\ fs r2.2 !! p = Some (File (old +:+ added +:+ added))
  /\ r1.1 = Ok (ledger_of old
                ∪ list_to_set (omap (fun c => chunk_key (heap w c)) chunks))
  /\ r2.1 = r1.1.
Proof.
  intros Hp Hmk Hold Hend Hlines Hchunks r1 r2 added.
  destruct (appended_lines (heap w) chunks old Hend Hlines Hchunks)
    as (_ & Hok1 & Hled1). fold added in Hok1, Hled1.
  destruct (save_processed_chunks_metadata_ledger_run chunks p w old f1
              Hp Hmk Hold Hend Hlines Hchunks) as [l1 Hrun1].
  fold r1 added in Hrun1.
  assert (Hfs1 : fs r1.2 = <[p := File (old +:+ added)]> f1)
    by (rewrite Hrun1; reflexivity).
  assert (Hheap1 : heap r1.2 = heap w) by (rewrite Hrun1; reflexivity).
  assert (Hend1 : ends_with_newline (old +:+ added) = true)
    by (apply ends_with_newline_app;
        [exact Hend | apply ends_with_newline_appended]).
  assert (Hmk2 : mkdir_from [] (parent p) (fs r1.2) = Ok (fs r1.2))
    by (rewrite Hfs1; now apply (mkdir_from_again p (fs w))).
  assert (Hfile2 : fs r1.2 !! p = Some (File (old +:+ added)))
    by (rewrite Hfs1; apply lookup_insert_eq).
  assert (Hchunks2 : Forall (reads_back (heap r1.2)) chunks)
    by now rewrite Hheap1.
  destruct (save_processed_chunks_metadata_ledger_run chunks p r1.2
              (old +:+ added) (fs r1.2) Hp Hmk2 (or_introl Hfile2) Hend1 Hok1
              Hchunks2) as [l2 Hrun2].
  fold r2 in Hrun2. rewrite Hheap1 in Hrun2. fold added in Hrun2.
  split; [exact Hfile2|]. split; [|split].
  - rewrite Hrun2. cbn [snd]. world_simpl.
    now rewrite lookup_insert_eq, str_app_assoc.
  - now rewrite Hrun1.
  - rewrite Hrun1, Hrun2. cbn [fst]. f_equal. rewrite Hled1. set_solver.
Qed.

Lemma chunk_key_str (d : Document) (pid : string) (k : Z) :
  chunk_id_of d = Some (VStr (pid +:+ ":" +:+ str_int k)) ->
  chunk_key d = Some (KStr (pid +:+ ":" +:+ str_int k)).
Proof.
  intros Hid. unfold chunk_key. rewrite Hid. cbn [to_json truthy hash_key].
  destruct (String.eqb_spec (pid +:+ ":" +:+ str_int k) EmptyString)
    as [Heq|_]; [|reflexivity].
  destruct pid; discriminate Heq.
Qed.

(** X12. The ids of [calc_chunk_ids] end up in the ledger: when the chunks
    that [calc_chunk_ids] has gone through are saved to a well-formed file,
    the set returned holds the chunk id of every one of them, and all the ids
    the file held before. *)
Theorem save_processed_chunks_metadata_after_calc (chunks : list loc)
    (base : string) (p : path) (w : World E) (old : string)
    (f1 : gmap path node) :
  Forall (fun c => exists pid, page_id_of base (heap w c) = Ok pid) chunks ->
  p <> [] ->
  mkdir_from [] (parent p) (fs w) = Ok f1 ->
  fs w !! p = Some (File old) \/ (fs w !! p = None /\ old = EmptyString) ->
  ends_with_newline old = true ->
  Forall (fun l => line_ok l = true) (text_lines old) ->
  let w1 := (calc_chunk_ids chunks base w).2 in
  Forall (reads_back (heap w1)) chunks ->
  exists ids,
    (save_processed_chunks_metadata chunks p w1).1 = Ok ids
    /\ (forall c, c ∈ chunks ->
          exists id, chunk_id_of (heap w1 c) = Some (VStr id) /\ KStr id ∈ ids)
    /\ (forall k, k ∈ ledger_of old -> k ∈ ids).
Proof.
  intros Hpids Hp Hmk Hold Hend Hlines w1 Hchunks.
  destruct (calc_chunk_ids_run chunks base w) as (_ & Hh1 & Hfs1 & _).
  fold w1 in Hh1, Hfs1.
  rewrite <- Hfs1 in Hmk, Hold.
  destruct (save_processed_chunks_metadata_ledger_run chunks p w1 old f1
              Hp Hmk Hold Hend Hlines Hchunks) as [l ->].
  eexists. split; [reflexivity|]. split; [|set_solver].
  intros c Hc.
  assert (Hid : exists pid k, chunk_id_of (heap w1 c)
                              = Some (VStr (pid +:+ ":" +:+ str_int k))).
  { rewrite Hh1, assign_all_spec.
    destruct (last_write_Some (assignments base (None, 0) chunks (heap w)).1 c)
      as [v Hv].
    - rewrite assignments_all; [exact Hc|]. now apply Forall_forall.
    - rewrite Hv. apply last_write_elem, assignments_form in Hv.
      destruct Hv as (pid & k & _ & ->). exists pid, k.
      unfold chunk_id_of. cbn [with_chunk_id metadata].
      apply dict_get_set_eq. }
  destruct Hid as (pid & k & Hid). eexists. split; [exact Hid|].
  apply elem_of_union_r, elem_of_list_to_set, list_elem_of_omap.
  exists c. split; [exact Hc | now apply chunk_key_str].
Qed.

End LedgerMore.

(** ** [filter_chunks] applied again *)

Section FilterMore.
Context {E : Type} {X : Externals}.
Implicit Types (w : World E) (c : loc).

Lemma filter_filter_impl {A} (f g : A -> bool) (l : list A) :
  (forall x, x ∈ l -> g x = true -> f x = true) ->
  List.filter g (List.filter f l) = List.filter g l.
Proof.
  induction l as [|x l IH]; intros Himp; [reflexivity|].
  cbn [List.filter].
  assert (IH' : List.filter g (List.filter f l) = List.filter g l)
    by (apply IH; intros y Hy; apply Himp; now right).
  destruct (g x) eqn:Hg.
  - rewrite (Himp x ltac:(now left) Hg). cbn [List.filter]. now rewrite Hg, IH'.
  - destruct (f x); cbn [List.filter]; [rewrite Hg|]; exact IH'.
Qed.

Lemma filter_chunks_counted chunks lower upper w :
  Forall (fun c => exists n, token_len_of (heap w) c = Ok n) chunks ->
  (filter_chunks chunks lower upper w).1
  = Ok (List.filter (in_window lower upper (heap w)) chunks).
Proof.
  intros Hall.
  destruct (filter_chunks_cases chunks lower upper w)
    as [[[_ Hr]|(c & e & Hin & He & _)] _]; [exact Hr|].
  rewrite Forall_forall in Hall. destruct (Hall c Hin) as [n Hn]. congruence.
Qed.

Lemma filter_chunks_failed chunks lower upper w c e :
  c ∈ chunks -> token_len_of (heap w) c = Raise e ->
  (filter_chunks chunks lower upper w).1 = Ok chunks.
Proof.
  intros Hin He.
  destruct (filter_chunks_cases chunks lower upper w)
    as [[[Hall _]|(c' & e' & _ & _ & Hr)] _]; [|exact Hr].
  rewrite Forall_forall in Hall. destruct (Hall c Hin) as [n Hn]. congruence.
Qed.

(** X13. Filtering what [filter_chunks] returned, with the same bounds,
    returns it again: whether or not the tokenizer works. *)
Theorem filter_chunks_idempotent (chunks : list loc) (lower upper : Z)
    (w : World E) :
  let r := filter_chunks chunks lower upper w in
  exists res,
    r.1 = Ok res /\ (filter_chunks res lower upper r.2).1 = Ok res.
Proof.
  intros r. subst r.
  destruct (filter_chunks_cases chunks lower upper w)
    as [[[Hall Hr]|(c & e & Hin & He & Hr)] (Hh & _)].
  - eexists. split; [exact Hr|].
    rewrite filter_chunks_counted, Hh.
    + f_equal. now apply filter_filter_impl.
    + rewrite Hh. rewrite Forall_forall in *. intros c Hc. apply Hall.
      apply list_elem_of_In, filter_In in Hc as [Hc _].
      now apply list_elem_of_In.
  - exists chunks. split; [exact Hr|].
    apply (filter_chunks_failed chunks lower upper _ c e Hin).
    now rewrite Hh.
Qed.

(** X14. With a working tokenizer, a window inside another keeps a part of
    what the wider one keeps, and filtering in two passes, the wider window
    first, is filtering with the narrower one. *)
Theorem filter_chunks_narrower (chunks : list loc)
    (lower upper lower' upper' : Z) (w : World E) :
  Forall (fun c => exists n, token_len_of (heap w) c = Ok n) chunks ->
  lower <= lower' -> upper' <= upper ->
  exists wide narrow,
    (filter_chunks chunks lower upper w).1 = Ok wide
    /\ (filter_chunks chunks lower' upper' w).1 = Ok narrow
    /\ sublist narrow wide
    /\ (filter_chunks wide lower' upper'
          (filter_chunks chunks lower upper w).2).1 = Ok narrow.
Proof.
  intros Hall Hlo Hhi.
  assert (Himp : forall c, c ∈ chunks ->
            in_window lower' upper' (heap w) c = true ->
            in_window lower upper (heap w) c = true).
  { intros c Hc. rewrite Forall_forall in Hall. destruct (Hall c Hc) as [n Hn].
    rewrite !(in_window_iff _ _ _ _ n Hn). lia. }
  pose proof (filter_filter_impl _ _ chunks Himp) as Hff.
  exists (List.filter (in_window lower upper (heap w)) chunks),
         (List.filter (in_window lower' upper' (heap w)) chunks).
  split; [now apply filter_chunks_counted|].
  split; [now apply filter_chunks_counted|].
  destruct (filter_chunks_cases chunks lower upper w) as [_ (Hh & _)].
  split.
  - rewrite <- Hff. clear.
    induction (List.filter (in_window lower upper (heap w)) chunks)
      as [|c cs IH]; simpl; [constructor|].
    destruct (in_window lower' upper' (heap w) c);
      [now apply sublist_skip | now apply sublist_cons].
  - rewrite filter_chunks_counted, Hh; [now rewrite Hff|].
    rewrite Hh. rewrite Forall_forall in *. intros c Hc. apply Hall.
    apply list_elem_of_In, filter_In in Hc as [Hc _].
    now apply list_elem_of_In.
Qed.

(** X15. The bounds are exclusive: with a working tokenizer, a window with no
    whole number strictly between its bounds keeps no chunk. *)
Theorem filter_chunks_empty_window (chunks : list loc) (lower upper : Z)
    (w : World E) :
  Forall (fun c => exists n, token_len_of (heap w) c = Ok n) chunks ->
  upper <= lower + 1 ->
  (filter_chunks chunks lower upper w).1 = Ok [].
Proof.
  intros Hall Hup. rewrite filter_chunks_counted by exact Hall. f_equal.
  induction Hall as [|c cs [n Hn] Hall IH]; [reflexivity|].
  cbn [List.filter].
  destruct (in_window lower upper (heap w) c) eqn:Hw; [|exact IH].
  apply (in_window_iff _ _ _ _ n Hn) in Hw. lia.
Qed.

End FilterMore.

(** ** The loading stage *)

Section LoadingFacts.
Context {E : Type} {X : Externals}.
Implicit Types (w : World E).

Variable glob_pdf : path -> M (list path) (E:=E).
Variable pdf_load : path -> M (list loc) (E:=E).
Variable iter_other : pyobj -> Res (list pyobj).
Context {Splitter : Type}.
Variable from_tiktoken_encoder : Z -> Z -> M Splitter (E:=E).
Variable split_documents : Splitter -> list loc -> M (list loc) (E:=E).

Lemma load_docs_step_run all_docs pdf_file w :
  load_docs_step pdf_load all_docs pdf_file w
  = match pdf_load pdf_file w with
    | (Ok docs, w') => (Ok (all_docs ++ docs), w')
    | (Raise e, w') =>
        (Ok all_docs,
         with_logs (logs w' ++
                    [(WARNING, "[Part 02] Failed to load " +:+ path_str pdf_file
                               +:+ ": " +:+ exn_msg e);
                     (DEBUG, format_exc e)]) w')
    end.
Proof.
  unfold load_docs_step, try_except, bind, logger, ret, with_logs.
  destruct (pdf_load pdf_file w) as [[docs|e] w']; cbn [heap fs logs ext];
    [reflexivity|]. now rewrite <- app_assoc.
Qed.

(** The loop over the files never raises. *)
Lemma load_docs_loop_ok files : forall acc w,
  exists docs w',
    for_fold (load_docs_step pdf_load) acc files w = (Ok docs, w').
Proof.
  induction files as [|f files IH]; intros acc w; cbn [for_fold].
  - unfold ret. eauto.
  - unfold bind. rewrite load_docs_step_run.
    destruct (pdf_load f w) as [[docs|e] w']; apply IH.
Qed.

Lemma load_docs_loop_outcome (outcome : path -> Res (list loc)) files :
  (forall f w, f ∈ files -> (pdf_load f w).1 = outcome f) ->
  forall acc w,
    (for_fold (load_docs_step pdf_load) acc files w).1
    = Ok (acc ++ flat_map (fun f => ok_list (outcome f)) files).
Proof.
  induction files as [|f files IH]; intros Hout acc w; cbn [for_fold flat_map].
  - unfold ret. cbn. now rewrite app_nil_r.
  - unfold bind. rewrite load_docs_step_run.
    pose proof (Hout f w ltac:(now left)) as Hf.
    assert (Hrest : forall f' w', f' ∈ files -> (pdf_load f' w').1 = outcome f')
      by (intros f' w' Hin; apply Hout; now right).
    destruct (pdf_load f w) as [[docs|e] w']; cbn [fst] in Hf; rewrite <- Hf;
      rewrite (IH Hrest); cbn [ok_list]; [now rewrite app_assoc | reflexivity].
Qed.

(** X16. The documents [load_docs] returns: none when the base directory is
    missing; otherwise those of the files that load, one file after the other
    in the order they are listed, a file that fails to load being passed over. *)
Theorem load_docs_collects (base : path) (w : World E)
    (files : list path) (outcome : path -> Res (list loc)) :
  (exists_in (fs w) base = true ->
   (glob_pdf base
      (with_logs
         (logs w ++
          [(INFO, "[Stage 01, Part 01.1] Loading docs from base directory.....")])
         w)).1 = Ok files) ->
  (forall f w', f ∈ files -> (pdf_load f w').1 = outcome f) ->
  (load_docs glob_pdf pdf_load base w).1
  = Ok (if exists_in (fs w) base
        then flat_map (fun f => ok_list (outcome f)) files
        else []).
Proof.
  intros Hglob Hout.
  unfold load_docs, try_except. unfold bind at 1, logger at 1.
  unfold bind at 1, path_exists. cbn [fs].
  destruct (exists_in (fs w) base); cbn [negb]; [|reflexivity].
  unfold bind at 1. specialize (Hglob eq_refl). unfold with_logs in Hglob.
  match goal with |- context [glob_pdf base ?w0] =>
    destruct (glob_pdf base w0) as [[fl|e] w1]
  end; cbn [fst] in Hglob; [|discriminate]. injection Hglob as ->.
  unfold bind at 1, logger at 1. unfold bind at 1.
  match goal with |- context [for_fold ?b [] files ?w2] =>
    pose proof (load_docs_loop_outcome outcome files Hout [] w2) as Hloop;
    destruct (for_fold b [] files w2) as [[docs|e] w3]
  end; cbn [fst] in Hloop; [|discriminate]. injection Hloop as ->.
  reflexivity.
Qed.

(** [[item for sublist in docs for item in sublist]] over lists. *)
Lemma flatten_comprehension_lists (lists : list (list pyobj)) :
  flatten_comprehension iter_other (map OList lists) = Ok (concat lists).
Proof.
  induction lists as [|l lists IH]; [reflexivity|].
  cbn [map flatten_comprehension iter_obj concat]. now rewrite IH.
Qed.

Lemma flatten_comprehension_raises docs o e :
  o ∈ docs -> is_list o = false -> iter_other o = Raise e ->
  exists e', flatten_comprehension iter_other docs = Raise e'.
Proof.
  intros Hin Hl He. induction docs as [|d docs IH];
    [now apply elem_of_nil in Hin|].
  cbn [flatten_comprehension].
  destruct (iter_obj iter_other d) as [items|e0] eqn:Hd; [|eauto].
  apply elem_of_cons in Hin as [->|Hin].
  - destruct d; cbn in Hl, Hd; congruence.
  - destruct (IH Hin) as [e' ->]. eauto.
Qed.

(** X17. A list of lists is flattened by one level: the elements of the inner
    lists, in order; an inner list that holds lists keeps them. *)
Theorem flatten_docs_lists (lists : list (list pyobj)) (w : World E) :
  let r := flatten_docs iter_other (map OList lists) w in
  r.1 = Ok (concat lists)
  /\ heap r.2 = heap w /\ fs r.2 = fs w /\ ext r.2 = ext w.
Proof.
  intros r. subst r. unfold flatten_docs, try_except.
  unfold bind at 1, logger at 1.
  destruct lists as [|l lists]; [cbn; auto|].
  cbn [map is_list]. unfold bind at 1, lift.
  change (OList l :: map OList lists) with (map OList (l :: lists)).
  rewrite (flatten_comprehension_lists (l :: lists)). cbn. auto.
Qed.

(** X18. The argument comes back as it is when there is nothing to flatten or
    flattening fails: an empty list; a list whose first element is no list,
    whatever follows it; a list that starts with a list and holds an object
    that cannot be iterated. *)
Theorem flatten_docs_unchanged (docs : list pyobj) (w : World E) :
  docs = []
  \/ (exists first rest, docs = first :: rest /\ is_list first = false)
  \/ (exists l rest o e, docs = OList l :: rest /\ o ∈ rest
                         /\ is_list o = false /\ iter_other o = Raise e) ->
  (flatten_docs iter_other docs w).1 = Ok docs.
Proof.
  intros [->|[(first & rest & -> & Hf)|(l & rest & o & e & -> & Hin & Hl & He)]];
    unfold flatten_docs, try_except; unfold bind at 1, logger at 1.
  - reflexivity.
  - rewrite Hf. reflexivity.
  - cbn [is_list]. unfold bind at 1, lift.
    destruct (flatten_comprehension_raises (OList l :: rest) o e
                ltac:(now right) Hl He) as [e' ->].
    reflexivity.
Qed.

Lemma split_docs_run docs chunk_size chunk_overlap w :
  exists chunks,
    (split_docs from_tiktoken_encoder split_documents docs chunk_size
       chunk_overlap w).1 = Ok chunks.
Proof.
  unfold split_docs, try_except. unfold bind at 1, logger at 1.
  unfold bind at 1.
  match goal with |- context [from_tiktoken_encoder _ _ ?w0] =>
    destruct (from_tiktoken_encoder chunk_size chunk_overlap w0) as [[s|e] w1]
  end; [|cbn; eauto].
  unfold bind at 1, logger at 1. unfold bind at 1.
  match goal with |- context [split_documents s docs ?w2] =>
    destruct (split_documents s docs w2) as [[c|e] w3]
  end; cbn; eauto.
Qed.

(** X19. No function of the loading stage lets an exception out: whatever
    listing the directory, loading a file, iterating an object, building
    the splitter or splitting does, each returns a list. *)
Theorem loading_stage_never_raises (base : path) (objs : list pyobj)
    (docs : list loc) (chunk_size chunk_overlap : Z) (w : World E) :
  (exists loaded, (load_docs glob_pdf pdf_load base w).1 = Ok loaded)
  /\ (exists flat, (flatten_docs iter_other objs w).1 = Ok flat)
  /\ (exists chunks,
        (split_docs from_tiktoken_encoder split_documents docs chunk_size
           chunk_overlap w).1 = Ok chunks).
Proof.
  split; [|split].
  - unfold load_docs, try_except. unfold bind at 1, logger at 1.
    unfold bind at 1, path_exists. cbn [fs].
    destruct (exists_in (fs w) base); cbn [negb]; [|cbn; eauto].
    unfold bind at 1.
    match goal with |- context [glob_pdf base ?w0] =>
      destruct (glob_pdf base w0) as [[fl|e] w1]
    end; [|cbn; eauto].
    unfold bind at 1, logger at 1. unfold bind at 1.
    match goal with |- context [for_fold ?b [] fl ?w2] =>
      destruct (load_docs_loop_ok fl [] w2) as (loaded & w3 & ->)
    end.
    cbn. eauto.
  - unfold flatten_docs, try_except. unfold bind at 1, logger at 1.
    destruct (match objs with first :: _ => is_list first | [] => false end);
      [|cbn; eauto].
    unfold bind at 1, lift.
    destruct (flatten_comprehension iter_other objs); cbn; eauto.
  - apply split_docs_run.
Qed.

End LoadingFacts.

(** ** Examples of the further properties *)

(** The second of three chunks has no [source]: the first gets its id,
    the other two get none. *)
Lemma calc_chunk_ids_stops_at_failure_witness :
  let r := calc_chunk_ids (X:=px) [0; 1; 2]%nat "data" holed_world in
  Forall (fun c' => exists pid,
            page_id_of (X:=px) "data" (heap holed_world c') = Ok pid) [0%nat]
  /\ page_id_of (X:=px) "data" (heap holed_world 1%nat)
     = Raise (Exn "TypeError"
                "expected str, bytes or os.PathLike object, not NoneType")
  /\ r.1 = Ok [0; 1; 2]%nat
  /\ heap r.2 2%nat = heap holed_world 2%nat
  /\ map fst (logs r.2) = [INFO; ERROR; DEBUG].
Proof.
  intros r.
  assert (Hpre : Forall (fun c' => exists pid,
                           page_id_of (X:=px) "data" (heap holed_world c')
                           = Ok pid) [0%nat])
    by (repeat constructor; eexists; vm_compute; reflexivity).
  assert (Hc : page_id_of (X:=px) "data" (heap holed_world 1%nat)
               = Raise (Exn "TypeError"
                    "expected str, bytes or os.PathLike object, not NoneType"))
    by reflexivity.
  split; [exact Hpre|]. split; [exact Hc|].
  destruct (calc_chunk_ids_stops_at_failure (X:=px) [0%nat] [2%nat] 1%nat "data"
              holed_world _ Hpre Hc) as (Hr & _ & Hframe & Hlogs).
  split; [exact Hr|]. split.
  - apply Hframe. apply (bool_decide_unpack _). vm_compute. exact I.
  - exact (f_equal (map fst) Hlogs).
Defined.

Lemma pages_grouped : grouped ["a.pdf:1"; "a.pdf:1"; "a.pdf:2"; "a.pdf:2"].
Proof.
  intros i j k p [Hij Hjk] Hi Hk.
  assert (Hlt : (k < 4)%nat) by (apply lookup_lt_Some in Hk; exact Hk).
  destruct i as [|[|[|[|i]]]]; destruct j as [|[|[|[|j]]]];
    destruct k as [|[|[|[|k]]]]; try lia; cbn in *; congruence.
Qed.

(** The pages 1, 1, 2, 2 of the specification: no two ids are the same. *)
Lemma calc_chunk_ids_unique_witness :
  let r := calc_chunk_ids (X:=px) [0; 1; 2; 3]%nat "data" pages_world in
  Forall2 (fun c pid => page_id_of (X:=px) "data" (heap pages_world c) = Ok pid)
          [0; 1; 2; 3]%nat ["a.pdf:1"; "a.pdf:1"; "a.pdf:2"; "a.pdf:2"]
  /\ NoDup [0; 1; 2; 3]%nat
  /\ grouped ["a.pdf:1"; "a.pdf:1"; "a.pdf:2"; "a.pdf:2"]
  /\ chunk_id_of (heap r.2 0%nat) <> chunk_id_of (heap r.2 1%nat).
Proof.
  intros r.
  assert (Hall : Forall2 (fun c pid => page_id_of (X:=px) "data"
                                         (heap pages_world c) = Ok pid)
                   [0; 1; 2; 3]%nat
                   ["a.pdf:1"; "a.pdf:1"; "a.pdf:2"; "a.pdf:2"])
    by (repeat constructor).
  assert (Hnd : NoDup [0; 1; 2; 3]%nat)
    by (apply (bool_decide_unpack _); vm_compute; exact I).
  split; [exact Hall|]. split; [exact Hnd|]. split; [exact pages_grouped|].
  apply (calc_chunk_ids_unique (X:=px) [0; 1; 2; 3]%nat "data" pages_world _
           Hall Hnd pages_grouped 0%nat 1%nat); [lia | reflexivity | reflexivity].
Defined.

(** Page 1, page 2, page 1: the first and the third chunk both get
    [a.pdf:1:0]. *)
Lemma calc_chunk_ids_repeats_witness :
  let r := calc_chunk_ids (X:=px) [0; 1; 2]%nat "data" returning_world in
  Forall2 (fun c pid => page_id_of (X:=px) "data" (heap returning_world c)
                        = Ok pid)
          [0; 1; 2]%nat ["a.pdf:1"; "a.pdf:2"; "a.pdf:1"]
  /\ NoDup [0; 1; 2]%nat
  /\ chunk_id_of (heap r.2 0%nat) = Some (VStr "a.pdf:1:0")
  /\ chunk_id_of (heap r.2 2%nat) = Some (VStr "a.pdf:1:0").
Proof.
  intros r.
  assert (Hall : Forall2 (fun c pid => page_id_of (X:=px) "data"
                                         (heap returning_world c) = Ok pid)
                   [0; 1; 2]%nat ["a.pdf:1"; "a.pdf:2"; "a.pdf:1"])
    by (repeat constructor).
  assert (Hnd : NoDup [0; 1; 2]%nat)
    by (apply (bool_decide_unpack _); vm_compute; exact I).
  split; [exact Hall|]. split; [exact Hnd|].
  apply (calc_chunk_ids_repeats (X:=px) [0; 1; 2]%nat "data" returning_world _
           0%nat 2%nat 0%nat 2%nat "a.pdf:1" Hall Hnd);
    try reflexivity.
  - intros i' p q Hi. discriminate Hi.
  - intros i' p q Hi. injection Hi as <-. cbn. congruence.
Defined.

(** [data/a.pdf] below [data], seen from [/proj], and [/srv/docs/a.pdf]
    below [/srv/docs], seen from [/home/x]: the id is [a.pdf:1:0] in
    both. *)
Lemma calc_chunk_ids_relocatable_witness :
  let w1 := world_of (fun _ => doc "text" "data/a.pdf" 1) ∅ tt in
  placed "/proj" "data" "data/a.pdf" ["a.pdf"]
  /\ placed "/home/x" "/srv/docs" "/srv/docs/a.pdf" ["a.pdf"]
  /\ exists k,
       chunk_id_of (heap (calc_chunk_ids (X:=posix_externals "/proj" tok_len)
                            [0%nat] "data" w1).2 0%nat)
       = Some (VStr ("a.pdf:1:" +:+ str_int k))
       /\ chunk_id_of (heap (calc_chunk_ids
                               (X:=posix_externals "/home/x" tok_down)
                               [0%nat] "/srv/docs" moved_world).2 0%nat)
          = Some (VStr ("a.pdf:1:" +:+ str_int k)).
Proof.
  intros w1.
  assert (P1 : placed "/proj" "data" "data/a.pdf" ["a.pdf"])
    by (apply (placed_relative _ _ _ _ ["proj"] ["data"]);
        repeat constructor; discriminate).
  assert (P2 : placed "/home/x" "/srv/docs" "/srv/docs/a.pdf" ["a.pdf"])
    by (apply (placed_absolute _ _ _ _ ["srv"; "docs"]); repeat constructor).
  split; [exact P1|]. split; [exact P2|].
  apply (calc_chunk_ids_relocatable "/proj" "/home/x" tok_len tok_down
           "data" "/srv/docs" [0%nat] w1 moved_world (fun _ => ["a.pdf"])).
  - intros c _. split; [repeat constructor|]. split; [discriminate|].
    split; [|reflexivity]. exists "data/a.pdf", "/srv/docs/a.pdf". auto.
  - now left.
Defined.


(** The same two spellings with other base directories: the working
    directory, its parent, a directory elsewhere, and a directory [docs]
    that holds [data]. *)
Example calc_chunk_ids_spellings_bases :
  let id base source :=
    chunk_id_of
      (heap (calc_chunk_ids (X:=px) [0%nat] base
               (world_of (fun _ => doc "text" source 1) ∅ tt)).2 0%nat) in
  let back := "data" +:+ String backslash "a.pdf" in
  id "." back = Some (VStr "data/a.pdf:1:0")
  /\ id "." "data/a.pdf" = Some (VStr "data/a.pdf:1:0")
  /\ id ".." back = Some (VStr "proj/data/a.pdf:1:0")
  /\ id ".." "data/a.pdf" = Some (VStr "proj/data/a.pdf:1:0")
  /\ id "/srv/x" back = Some (VStr "../../proj/data/a.pdf:1:0")
  /\ id "/srv/x" "data/a.pdf" = Some (VStr "../../proj/data/a.pdf:1:0")
  /\ id "docs" ("docs/" +:+ back) = Some (VStr "data/a.pdf:1:0")
  /\ id "docs" "docs/data/a.pdf" = Some (VStr "data/a.pdf:1:0").
Proof. vm_compute. repeat split; reflexivity. Qed.

(** A batch size of 0 raises; a negative one does nothing and returns. *)
Lemma process_in_batches_nonpositive_witness :
  -2 <= 0
  /\ (process_in_batches (X:=px) [0; 1; 2; 3; 4]%nat (-2) ingest_noting
        batch_world).1 = Ok tt
  /\ ext (process_in_batches (X:=px) [0; 1; 2; 3; 4]%nat (-2) ingest_noting
            batch_world).2 = [].
Proof.
  assert (H : -2 <= 0) by lia.
  split; [exact H|].
  rewrite (process_in_batches_nonpositive (X:=px) [0; 1; 2; 3; 4]%nat (-2)
             ingest_noting batch_world H).
  split; reflexivity.
Defined.

Example process_in_batches_zero :
  (process_in_batches (X:=px) [0; 1; 2; 3; 4]%nat 0 ingest_noting
     batch_world).1
  = Raise (Exn "ValueError" "range() arg 3 must not be zero").
Proof. reflexivity. Qed.

(** Five documents in batches of two: three calls, the failing one
    included. *)
Lemma process_in_batches_call_count_witness :
  let r := process_in_batches (X:=px) [0; 1; 2; 3; 4]%nat 2
             (counting outcome_second_fails) counting_world in
  0 < 2 /\ r.1 = Ok tt /\ ext r.2 = 3%nat.
Proof.
  intros r. assert (H : 0 < 2) by lia. split; [exact H|].
  destruct (process_in_batches_call_count (X:=px) [0; 1; 2; 3; 4]%nat 2
              outcome_second_fails counting_world H) as [Hr Hn].
  split; [exact Hr|].
  fold r in Hn. change (Z.of_nat (ext r.2) - 0 = 3) in Hn. lia.
Defined.

(** The line [42] after a record: the set comes back empty. *)
Lemma load_existing_chunks_metadata_poisoned_witness :
  let line := "42" +:+ line_end in
  fs (sidecar_world text_with_number) !! sidecar = Some (File text_with_number)
  /\ line ∈ text_lines text_with_number
  /\ json_loads (Externals:=px) (strip line) = Some (JInt 42)
  /\ record_key (JInt 42)
     = Raise (Exn "AttributeError" "'int' object has no attribute 'get'")
  /\ (load_existing_chunks_metadata (X:=px) sidecar
        (sidecar_world text_with_number)).1 = Ok ∅.
Proof.
  intros line.
  assert (Hf : fs (sidecar_world text_with_number) !! sidecar
               = Some (File text_with_number)) by (vm_compute; reflexivity).
  assert (Hin : line ∈ text_lines text_with_number)
    by (apply (bool_decide_unpack _); vm_compute; exact I).
  assert (Hj : json_loads (Externals:=px) (strip line) = Some (JInt 42))
    by (vm_compute; reflexivity).
  assert (Hr : record_key (JInt 42)
               = Raise (Exn "AttributeError"
                          "'int' object has no attribute 'get'"))
    by reflexivity.
  split; [exact Hf|]. split; [exact Hin|]. split; [exact Hj|].
  split; [exact Hr|].
  exact (load_existing_chunks_metadata_poisoned (X:=px) sidecar
           (sidecar_world text_with_number) text_with_number line (JInt 42) _
           Hf Hin Hj Hr).
Defined.

(** [faiss] is a file: nothing is written. *)
Lemma save_processed_chunks_metadata_blocked_witness :
  let r := save_processed_chunks_metadata (X:=px) [0%nat] sidecar
             blocked_world in
  mkdir_from [] (parent sidecar) (fs blocked_world)
  = Raise (Exn "FileExistsError" "cannot create directory")
  /\ r.1 = (load_existing_chunks_metadata (X:=px) sidecar blocked_world).1
  /\ fs r.2 = fs blocked_world.
Proof.
  intros r.
  assert (Hmk : mkdir_from [] (parent sidecar) (fs blocked_world)
                = Raise (Exn "FileExistsError" "cannot create directory"))
    by (vm_compute; reflexivity).
  split; [exact Hmk|].
  destruct (save_processed_chunks_metadata_blocked (X:=px) [0%nat] sidecar
              blocked_world _ Hmk) as (Hr & Hfs & _).
  split; [exact Hr | exact Hfs].
Defined.

Lemma sidecar_reads_back :
  Forall (reads_back (X:=px) (heap (sidecar_world text_with_garbage)))
         [0; 1]%nat.
Proof.
  repeat constructor;
    try (apply (bool_decide_unpack _); vm_compute; exact I);
    vm_compute; reflexivity.
Qed.

(** Two chunks saved twice: four lines are added, and the set is that of
    the first call. *)
Lemma save_processed_chunks_metadata_twice_witness :
  let w := sidecar_world text_with_garbage in
  let r1 := save_processed_chunks_metadata (X:=px) [0; 1]%nat sidecar w in
  let r2 := save_processed_chunks_metadata (X:=px) [0; 1]%nat sidecar r1.2 in
  mkdir_from [] (parent sidecar) (fs w) = Ok (fs w)
  /\ fs w !! sidecar = Some (File text_with_garbage)
  /\ ends_with_newline text_with_garbage = true
  /\ Forall (fun l => line_ok (X:=px) l = true) (text_lines text_with_garbage)
  /\ Forall (reads_back (X:=px) (heap w)) [0; 1]%nat
  /\ r2.1 = r1.1.
Proof.
  intros w r1 r2.
  assert (Hmk : mkdir_from [] (parent sidecar) (fs w) = Ok (fs w))
    by (vm_compute; reflexivity).
  assert (Hfile : fs w !! sidecar = Some (File text_with_garbage))
    by (vm_compute; reflexivity).
  assert (Hend : ends_with_newline text_with_garbage = true)
    by (vm_compute; reflexivity).
  assert (Hlines : Forall (fun l => line_ok (X:=px) l = true)
                          (text_lines text_with_garbage))
    by (apply (bool_decide_unpack _); vm_compute; exact I).
  split; [exact Hmk|]. split; [exact Hfile|]. split; [exact Hend|].
  split; [exact Hlines|]. split; [exact sidecar_reads_back|].
  destruct (save_processed_chunks_metadata_twice (X:=px) [0; 1]%nat sidecar w
              text_with_garbage (fs w) ltac:(discriminate) Hmk
              (or_introl Hfile) Hend Hlines sidecar_reads_back)
    as (_ & _ & _ & H2).
  exact H2.
Defined.

(** Bounds 10 and 20, then 10 and 15. *)
Lemma filter_chunks_narrower_witness :
  Forall (fun c => exists n, token_len_of (X:=px) (heap sized_world) c = Ok n)
         [0; 1; 2; 3]%nat
  /\ 10 <= 10 /\ 15 <= 20
  /\ exists wide narrow,
       (filter_chunks (X:=px) [0; 1; 2; 3]%nat 10 20 sized_world).1 = Ok wide
       /\ (filter_chunks (X:=px) [0; 1; 2; 3]%nat 10 15 sized_world).1
          = Ok narrow
       /\ sublist narrow wide
       /\ (filter_chunks (X:=px) wide 10 15
             (filter_chunks (X:=px) [0; 1; 2; 3]%nat 10 20 sized_world).2).1
          = Ok narrow.
Proof.
  assert (Hall : Forall (fun c => exists n,
                           token_len_of (X:=px) (heap sized_world) c = Ok n)
                        [0; 1; 2; 3]%nat)
    by (repeat constructor; eexists; vm_compute; reflexivity).
  assert (H1 : 10 <= 10) by lia. assert (H2 : 15 <= 20) by lia.
  split; [exact Hall|]. split; [exact H1|]. split; [exact H2|].
  exact (filter_chunks_narrower (X:=px) [0; 1; 2; 3]%nat 10 20 10 15
           sized_world Hall H1 H2).
Defined.

(** Bounds 10 and 11: nothing lies strictly between. *)
Lemma filter_chunks_empty_window_witness :
  Forall (fun c => exists n, token_len_of (X:=px) (heap sized_world) c = Ok n)
         [0; 1; 2; 3]%nat
  /\ 11 <= 10 + 1
  /\ (filter_chunks (X:=px) [0; 1; 2; 3]%nat 10 11 sized_world).1 = Ok [].
Proof.
  assert (Hall : Forall (fun c => exists n,
                           token_len_of (X:=px) (heap sized_world) c = Ok n)
                        [0; 1; 2; 3]%nat)
    by (repeat constructor; eexists; vm_compute; reflexivity).
  assert (H1 : 11 <= 10 + 1) by lia.
  split; [exact Hall|]. split; [exact H1|].
  exact (filter_chunks_empty_window (X:=px) [0; 1; 2; 3]%nat 10 11 sized_world
           Hall H1).
Defined.

(** Three files, the second broken: the documents of the first and the
    third. *)
Lemma load_docs_collects_witness :
  let files := [["data"; "a.pdf"]; ["data"; "b.pdf"]; ["data"; "c.pdf"]] in
  (forall f w', f ∈ files -> (sample_load f w').1 = sample_outcome f)
  /\ (load_docs (X:=px) sample_glob sample_load ["data"] data_world).1
     = Ok [0; 1; 2]%nat.
Proof.
  intros files.
  assert (Hout : forall f (w' : World unit), f ∈ files ->
                   (sample_load f w').1 = sample_outcome f)
    by reflexivity.
  split; [exact Hout|].
  exact (load_docs_collects (X:=px) sample_glob sample_load ["data"] data_world
           files sample_outcome (fun _ => eq_refl) Hout).
Defined.

(** A flat list of documents, and a nested list with a number in it,
    which cannot be iterated, come back as they are. *)
Lemma flatten_docs_unchanged_witness :
  let flat := [ODoc 0%nat; ODoc 1%nat] in
  let mixed := [OList [ODoc 0%nat]; OOther "42"] in
  (flatten_docs (X:=px) iter_fields flat pages_world).1 = Ok flat
  /\ (flatten_docs (X:=px) iter_fields mixed pages_world).1 = Ok mixed.
Proof.
  intros flat mixed. split.
  - apply (flatten_docs_unchanged (X:=px) iter_fields flat pages_world).
    right. left. exists (ODoc 0%nat), [ODoc 1%nat]. auto.
  - apply (flatten_docs_unchanged (X:=px) iter_fields mixed pages_world).
    right. right.
    exists [ODoc 0%nat], [OOther "42"], (OOther "42"),
           (Exn "TypeError" "'int' object is not iterable").
    split; [reflexivity|]. split; [now left|]. auto.
Defined.

Example flatten_docs_nested :
  (flatten_docs (X:=px) iter_fields
     [OList [ODoc 0%nat; ODoc 1%nat]; OList []; OList [ODoc 2%nat]]
     pages_world).1
  = Ok [ODoc 0%nat; ODoc 1%nat; ODoc 2%nat].
Proof. reflexivity. Qed.

(** A Document next to a list is iterated too: its fields land in the
    result. *)
Example flatten_docs_document_among_lists :
  (flatten_docs (X:=px) iter_fields [OList [ODoc 0%nat]; ODoc 1%nat]
     pages_world).1
  = Ok (ODoc 0%nat :: document_fields).
Proof. reflexivity. Qed.
(** The four chunks of the specification's example, given their ids and
    saved to a fresh sidecar file: the set returned holds the four ids. *)
Lemma save_processed_chunks_metadata_after_calc_witness :
  let chunks := [0; 1; 2; 3]%nat in
  let w1 := (calc_chunk_ids (X:=px) chunks "data" pages_world).2 in
  Forall (fun c => exists pid,
            page_id_of (X:=px) "data" (heap pages_world c) = Ok pid) chunks
  /\ mkdir_from [] (parent sidecar) (fs pages_world)
     = Ok (<[ ["faiss"] := Dir ]> ∅)
  /\ Forall (reads_back (X:=px) (heap w1)) chunks
  /\ exists ids,
       (save_processed_chunks_metadata (X:=px) chunks sidecar w1).1 = Ok ids
       /\ KStr "a.pdf:1:0" ∈ ids /\ KStr "a.pdf:2:1" ∈ ids.
Proof.
  intros chunks w1.
  assert (Hpids : Forall (fun c => exists pid,
                            page_id_of (X:=px) "data" (heap pages_world c)
                            = Ok pid) chunks)
    by (repeat constructor; eexists; vm_compute; reflexivity).
  assert (Hmk : mkdir_from [] (parent sidecar) (fs pages_world)
                = Ok (<[ ["faiss"] := Dir ]> ∅)) by reflexivity.
  assert (Hback : Forall (reads_back (X:=px) (heap w1)) chunks).
  { repeat constructor;
      try (apply (bool_decide_unpack _); vm_compute; exact I);
      vm_compute; reflexivity. }
  split; [exact Hpids|]. split; [exact Hmk|]. split; [exact Hback|].
  destruct (save_processed_chunks_metadata_after_calc (X:=px) chunks "data"
              sidecar pages_world EmptyString _ Hpids ltac:(discriminate) Hmk
              (or_intror (conj eq_refl eq_refl)) eq_refl (List.Forall_nil _)
              Hback)
    as (ids & Hr & Hin & _).
  exists ids. split; [exact Hr|]. split.
  - destruct (Hin 0%nat ltac:(now left)) as (id & Hid & Hk).
    vm_compute in Hid. injection Hid as <-. exact Hk.
  - destruct (Hin 3%nat ltac:(do 3 right; now left)) as (id & Hid & Hk).
    vm_compute in Hid. injection Hid as <-. exact Hk.
Defined.
